(** * osm2pgsql, output-pgsql.cpp: a shallow embedding and its properties

    The file embeds the pgsql output back-end of osm2pgsql:
    - [Style]: the style file reader [read_style_file];
    - [Output]: the feature emitter ([pgsql_out_node], [pgsql_out_way],
      [pgsql_out_relation], [way_add], the delete helpers) and the two
      iteration call-backs [way_cb_func] and [rel_cb_func].

    Collaborators that live in other translation units (tag transform,
    geometry builder, middle, expire accumulator, output tables, id trackers)
    are taken through the interface this file uses. *)

From Stdlib Require Import ZArith List String Ascii Bool Lia.
From Stdlib Require Import Floats.SpecFloat.
From Stdlib Require Import DecimalString.
From stdpp Require Import base decidable list sorting gmap.

#[local] Unset Default Proof Using.
#[local] Set Warnings "-clear-no-such-hyp".
#[local] Open Scope string_scope.
#[local] Open Scope list_scope.
#[local] Open Scope Z_scope.
Import ListNotations.

(** ** Process termination

    [util::exit_nicely()] never returns.  A computation either exits, leaving
    what it wrote to stderr, or returns a value (with its stderr output). *)

Inductive diag : Type :=
  | CouldNotOpenStyle                      (* "Couldn't open style file" *)
  | ErrorReadingStyle (lineno fields : Z)  (* "Error reading style file line %d (fields=%d)" *)
  | UnknownFlag (tok : string) (lineno : Z)(* "Unknown flag '%s' line %d, ignored" *)
  | WildcardNonDelete (name : string)      (* "wildcard '%s' in non-delete style entry" *)
  | WeirdStyleLine (lineno : Z)            (* "Weird style line %d" *)
  | StyleReadError                         (* perror(filename) *)
  | NoValidColumns                         (* "Unable to parse any valid columns ..." *)
  | CannotApplyDiffs.                      (* "Cannot apply diffs unless in slim mode" *)

Inductive outcome (A : Type) : Type :=
  | Exit (stderr : list diag)
  | Return (stderr : list diag) (a : A).
Arguments Exit {A} stderr.
Arguments Return {A} stderr a.

Definition is_exit {A} (o : outcome A) : bool :=
  match o with Exit _ => true | Return _ _ => false end.

Definition stderr_of {A} (o : outcome A) : list diag :=
  match o with Exit e => e | Return e _ => e end.

(** ** The style rule table *)

Module Style.

(** Modelled from the spec: the FLAG_* masks are declared in taginfo_impl.hpp,
    which is not part of this file.  The spec gives the flags as a set over
    POLYGON, LINEAR, NOCACHE, DELETE and PHSTORE; they are bit masks that the
    reader combines with [|] and compares with [==].  PHSTORE includes the
    POLYGON bit (the table set-up tests it with [(flags & FLAG_PHSTORE) ==
    FLAG_PHSTORE]). *)
Definition FLAG_POLYGON : Z := 1.
Definition FLAG_LINEAR : Z := 2.
Definition FLAG_NOCACHE : Z := 4.
Definition FLAG_DELETE : Z := 8.
Definition FLAG_PHSTORE : Z := 17.

Definition tagflags : list (string * Z) :=
  [ ("polygon", FLAG_POLYGON);
    ("linear", FLAG_LINEAR);
    ("nocache", FLAG_NOCACHE);
    ("delete", FLAG_DELETE);
    ("phstore", FLAG_PHSTORE) ].

Record taginfo : Type := mk_taginfo {
  name : string;
  type : string;
  flags : Z
}.

(** Modelled from the spec: [export_list] is declared in taginfo_impl.hpp; it
    maps an OSM type to an ordered sequence of taginfo, and [add] appends,
    so that rule order within a type is preserved. *)
Inductive OsmType : Type := OSMTYPE_WAY | OSMTYPE_NODE | OSMTYPE_RELATION.

Record export_list : Type := mk_export_list {
  way_infos : list taginfo;
  node_infos : list taginfo;
  relation_infos : list taginfo
}.

Definition empty_export_list : export_list := mk_export_list [] [] [].

Definition export_list_get (t : OsmType) (e : export_list) : list taginfo :=
  match t with
  | OSMTYPE_WAY => way_infos e
  | OSMTYPE_NODE => node_infos e
  | OSMTYPE_RELATION => relation_infos e
  end.

Definition export_list_add (t : OsmType) (i : taginfo) (e : export_list)
  : export_list :=
  match t with
  | OSMTYPE_WAY =>
      mk_export_list (way_infos e ++ [i]) (node_infos e) (relation_infos e)
  | OSMTYPE_NODE =>
      mk_export_list (way_infos e) (node_infos e ++ [i]) (relation_infos e)
  | OSMTYPE_RELATION =>
      mk_export_list (way_infos e) (node_infos e) (relation_infos e ++ [i])
  end.

(** *** C library pieces used by the reader

    Text is a [string] without NUL bytes. *)

Definition LF : ascii := ascii_of_nat 10.
Definition CR : ascii := ascii_of_nat 13.

(** [isspace] in the C locale: space, and \t \n \v \f \r. *)
Definition isspace (c : ascii) : bool :=
  let n := nat_of_ascii c in
  (Nat.eqb n 32 || (Nat.leb 9 n && Nat.leb n 13))%bool.

(** The stream open for reading: the bytes it delivers before it ends, and
    whether it ended on a read error ([ferror]) rather than at end of file. *)
Record FILE : Type := mk_FILE {
  data : string;
  read_error : bool
}.

(** Successive results of [fgets(buffer, 1024, in)]: each holds at most 1023
    characters and stops after a newline.  [room] is what is left of the
    buffer, [cur] what the current call has read so far. *)
Fixpoint fgets_all (room : nat) (cur : string) (s : string) : list string :=
  match s with
  | EmptyString => match cur with EmptyString => [] | _ => [cur] end
  | String c r =>
      let cur' := (cur ++ String c EmptyString)%string in
      if Ascii.eqb c LF then cur' :: fgets_all 1023 EmptyString r
      else match room with
           | S O | O => cur' :: fgets_all 1023 EmptyString r
           | S room' => fgets_all room' cur' r
           end
  end.

Definition fgets_lines (f : FILE) : list string :=
  fgets_all 1023 EmptyString (data f).

(** [str = strchr(buffer, '#'); if (str) *str = '\0';] *)
Fixpoint strip_comment (s : string) : string :=
  match s with
  | EmptyString => EmptyString
  | String c r => if Ascii.eqb c "#" then EmptyString else String c (strip_comment r)
  end.

Fixpoint skip_space (s : string) : string :=
  match s with
  | String c r => if isspace c then skip_space r else s
  | EmptyString => EmptyString
  end.

(** The characters a [%<w>s] conversion stores, and the rest of the input. *)
Fixpoint scan_word (w : nat) (s : string) : string * string :=
  match w, s with
  | S w', String c r =>
      if isspace c then (EmptyString, s)
      else let '(t, rest) := scan_word w' r in (String c t, rest)
  | _, _ => (EmptyString, s)
  end.

(** One [%<w>s] directive: skip white space, fail at the end of the input. *)
Definition scan_s (w : nat) (s : string) : option (string * string) :=
  match skip_space s with
  | EmptyString => None
  | s' => Some (scan_word w s')
  end.

(** [sscanf(buffer, "%23s %63s %23s %127s", ...)]: the return value (EOF is
    -1) and the converted fields, in order. *)
Definition sscanf4 (buffer : string) : Z * list string :=
  match scan_s 23 buffer with
  | None => (-1, [])
  | Some (a, r1) =>
    match scan_s 63 r1 with
    | None => (1, [a])
    | Some (b, r2) =>
      match scan_s 23 r2 with
      | None => (2, [a; b])
      | Some (c, r3) =>
        match scan_s 127 r3 with
        | None => (3, [a; b; c])
        | Some (d, _) => (4, [a; b; c; d])
        end
      end
    end
  end.

(** Delimiters of [strtok(flags, ",\r\n")]. *)
Definition is_delim (c : ascii) : bool :=
  (Ascii.eqb c "," || Ascii.eqb c CR || Ascii.eqb c LF)%bool.

(** The tokens the [strtok] loop visits, in order. *)
Fixpoint strtok_all (cur : string) (s : string) : list string :=
  match s with
  | EmptyString => match cur with EmptyString => [] | _ => [cur] end
  | String c r =>
      if is_delim c
      then match cur with
           | EmptyString => strtok_all EmptyString r
           | _ => cur :: strtok_all EmptyString r
           end
      else strtok_all (cur ++ String c EmptyString)%string r
  end.

(** What the buffer holds, read as a C string, once the [strtok] loop has
    run over it: [strtok] overwrites the delimiter that ends a token with
    NUL, so the text stops after the first token. *)
Fixpoint strtok_residue (started : bool) (s : string) : string :=
  match s with
  | EmptyString => EmptyString
  | String c r =>
      if is_delim c
      then (if started then EmptyString else String c (strtok_residue false r))
      else String c (strtok_residue true r)
  end.

(** [strstr(haystack, needle) != NULL] *)
Fixpoint strstr (haystack needle : string) : bool :=
  (String.prefix needle haystack ||
   match haystack with
   | EmptyString => false
   | String _ r => strstr r needle
   end)%bool.

(** [s.find(c) != std::string::npos] *)
Fixpoint str_has (c : ascii) (s : string) : bool :=
  match s with
  | EmptyString => false
  | String d r => (Ascii.eqb d c || str_has c r)%bool
  end.

(** The inner [for (i = 0; i < NUM_FLAGS; i++)] loop: the flag of the first
    entry of [tagflags] whose name is [str]. *)
Fixpoint lookup_flag (table : list (string * Z)) (str : string) : option Z :=
  match table with
  | [] => None
  | (n, f) :: rest => if String.eqb n str then Some f else lookup_flag rest str
  end.

(** The [strtok] loop: or the known flags into the mask, warn about the
    others. *)
Fixpoint parse_flags (lineno : Z) (toks : list string) (mask : Z)
  : Z * list diag :=
  match toks with
  | [] => (mask, [])
  | str :: rest =>
      match lookup_flag tagflags str with
      | Some f => parse_flags lineno rest (Z.lor mask f)
      | None =>
          let '(m, w) := parse_flags lineno rest mask in
          (m, UnknownFlag str lineno :: w)
      end
  end.

Definition has_wildcard (n : string) : bool :=
  (str_has "?" n || str_has "*" n)%bool.

(** *** read_style_file *)

(** The locals of [read_style_file] that live across iterations of the
    line loop.  [flags_buf] is the [char flags[128]] array: [sscanf] only
    overwrites it when the line has a fourth field. *)
Record reader : Type := mk_reader {
  lineno : Z;
  num_read : Z;
  flags_buf : string;
  exlist : export_list;
  enable_way_area : bool;
  err : list diag
}.

(** The text in [flags] when the [strtok] loop starts: the fourth field when
    [sscanf] converted one, otherwise what the array held before. *)
Definition line_flags (st : reader) (conv : list string) : string :=
  match conv with
  | [_; _; _; d] => d
  | _ => flags_buf st
  end.

(** One iteration of [while (fgets(buffer, sizeof(buffer), in) != NULL)].
    [inl] is an exit with the stderr output, [inr] the locals afterwards. *)
Definition style_line (st : reader) (buffer : string)
  : list diag + reader :=
  let lineno := lineno st + 1 in
  let buffer := strip_comment buffer in
  let '(fields, conv) := sscanf4 buffer in
  if fields <=? 0 then
    inr (mk_reader lineno (num_read st) (flags_buf st) (exlist st)
           (enable_way_area st) (err st))
  else if fields <? 3 then
    inl (err st ++ [ErrorReadingStyle lineno fields])
  else
    let osmtype := nth 0 conv EmptyString in
    let tag := nth 1 conv EmptyString in
    let datatype := nth 2 conv EmptyString in
    let flags := line_flags st conv in
    let '(mask, warns) := parse_flags lineno (strtok_all EmptyString flags) 0 in
    let temp := mk_taginfo tag datatype mask in
    let err1 := err st ++ warns in
    if (negb (mask =? FLAG_DELETE) && has_wildcard tag)%bool then
      inl (err1 ++ [WildcardNonDelete tag])
    else
      let enable := if (String.eqb tag "way_area" && (mask =? FLAG_DELETE))%bool
                    then false else enable_way_area st in
      let ex1 := if strstr osmtype "node"
                 then export_list_add OSMTYPE_NODE temp (exlist st)
                 else exlist st in
      let ex2 := if strstr osmtype "way"
                 then export_list_add OSMTYPE_WAY temp ex1
                 else ex1 in
      let kept := (strstr osmtype "node" || strstr osmtype "way")%bool in
      if negb kept then
        inl (err1 ++ [WeirdStyleLine lineno])
      else
        inr (mk_reader lineno (num_read st + 1) (strtok_residue false flags)
               ex2 enable err1).

Fixpoint style_loop (lines : list string) (st : reader)
  : list diag + reader :=
  match lines with
  | [] => inr st
  | buffer :: rest =>
      match style_line st buffer with
      | inl e => inl e
      | inr st' => style_loop rest st'
      end
  end.

(** [read_style_file(filename, exlist)].  [fopen] gives [None] when the file
    cannot be opened; [flags0] is whatever the uninitialised [flags] array
    holds on entry. *)
Definition read_style_file (f : option FILE) (flags0 : string)
    (exl : export_list) : outcome (bool * export_list) :=
  match f with
  | None => Exit [CouldNotOpenStyle]
  | Some f =>
      match style_loop (fgets_lines f) (mk_reader 0 0 flags0 exl true []) with
      | inl e => Exit e
      | inr st =>
          if read_error f then Exit (err st ++ [StyleReadError])
          else if num_read st =? 0 then Exit (err st ++ [NoValidColumns])
          else Return (err st) (enable_way_area st, exlist st)
      end
  end.

(** *** The failure conditions, by the text of each line

    Each line is classified by what [sscanf] converts from its own text;
    the flags of a line are the tokens of its own fourth field. *)

Definition own_fields (buffer : string) : Z :=
  fst (sscanf4 (strip_comment buffer)).

Definition own_field (i : nat) (buffer : string) : string :=
  nth i (snd (sscanf4 (strip_comment buffer))) EmptyString.

Definition flags_mask (text : string) : Z :=
  fst (parse_flags 0 (strtok_all EmptyString text) 0).

Definition own_mask (buffer : string) : Z := flags_mask (own_field 3 buffer).

(** A non-blank line with fewer than 3 fields. *)
Definition too_few_fields (buffer : string) : bool :=
  ((0 <? own_fields buffer) && (own_fields buffer <? 3))%bool.

(** An entry whose name has a wildcard while its flags are not exactly
    DELETE. *)
Definition wildcard_in_non_delete (buffer : string) : bool :=
  ((3 <=? own_fields buffer) && has_wildcard (own_field 1 buffer)
   && negb (own_mask buffer =? FLAG_DELETE))%bool.

Definition names_osm_type (buffer : string) : bool :=
  (strstr (own_field 0 buffer) "node" || strstr (own_field 0 buffer) "way")%bool.

(** An otherwise well-formed line whose type mask names neither nodes nor
    ways. *)
Definition no_osm_type (buffer : string) : bool :=
  ((3 <=? own_fields buffer) && negb (wildcard_in_non_delete buffer)
   && negb (names_osm_type buffer))%bool.

Definition valid_line (buffer : string) : bool :=
  ((3 <=? own_fields buffer) && negb (wildcard_in_non_delete buffer)
   && names_osm_type buffer)%bool.

(** The three failure conditions of the specification: fewer than 3
    fields, a wildcard in a non-DELETE entry, zero valid lines. *)
Definition spec_listed_fatal (lines : list string) : bool :=
  (existsb too_few_fields lines || existsb wildcard_in_non_delete lines
   || negb (existsb valid_line lines))%bool.

End Style.

(** ** The feature emitter and the iteration call-backs *)

Module Output.
Import Style.

(** [osmid_t] is a signed 64-bit integer; identifiers are kept as [Z].  The
    only arithmetic on them is the unary minus of relation ids. *)
Definition osmid_t : Type := Z.

(** [std::numeric_limits<osmid_t>::max()] *)
Definition osmid_max : Z := 2 ^ 63 - 1.

(** C [double], as the IEEE 754 values of [spec_float]. *)
Definition double : Type := spec_float.

(** [x > 0.0]: false on NaN. *)
Definition double_gt0 (x : double) : bool := SFltb (S754_zero false) x.

(** Modelled from the spec: [struct keyval] and its [addItem]/[getItem] are
    declared in keyvals.hpp.  A tag list is a sequence of key/value pairs;
    [addItem(tags, k, v, 0)] adds one pair without looking for duplicates,
    [getItem] gives the value of the first pair with the key. *)
Definition keyval : Type := list (string * string).

Definition addItem (tags : keyval) (k v : string) : keyval := (k, v) :: tags.

Fixpoint getItem (tags : keyval) (k : string) : option string :=
  match tags with
  | [] => None
  | (k', v) :: rest => if String.eqb k' k then Some v else getItem rest k
  end.

Record osmNode : Type := mk_osmNode { lon : double; lat : double }.

Record member : Type := mk_member {
  m_type : OsmType;
  m_id : osmid_t;
  m_role : string
}.

(** *** Output tables *)

Inductive geometry : Type :=
  | Wkt (wkt : string)
  | NodePoint (node_lat node_lon : double).

Record row : Type := mk_row {
  osm_id : osmid_t;
  row_tags : keyval;
  way : geometry
}.

(** Modelled from the spec: [table_t] is declared in table.hpp.  A table is
    known here by what is sent over its connection: rows streamed by COPY,
    the end of the running COPY, and DELETE FROM ... WHERE osm_id = $1.
    [write] streams one row; [pgsql_pause_copy] ends the active COPY;
    [delete_row] pauses the COPY and issues the DELETE. *)
Inductive table_cmd : Type :=
  | CopyRow (r : row)
  | EndCopy
  | DeleteWhere (id : osmid_t).

Definition table_t : Type := list table_cmd.

Definition write_way (id : osmid_t) (tags : keyval) (wkt : string)
    (t : table_t) : table_t :=
  t ++ [CopyRow (mk_row id tags (Wkt wkt))].

Definition write_node (id : osmid_t) (tags : keyval) (node_lat node_lon : double)
    (t : table_t) : table_t :=
  t ++ [CopyRow (mk_row id tags (NodePoint node_lat node_lon))].

Definition pgsql_pause_copy (t : table_t) : table_t := t ++ [EndCopy].

Definition delete_row (id : osmid_t) (t : table_t) : table_t :=
  t ++ [EndCopy; DeleteWhere id].

(** The rows a table holds after the commands sent to it. *)
Definition apply_cmd (rows : list row) (c : table_cmd) : list row :=
  match c with
  | CopyRow r => rows ++ [r]
  | EndCopy => rows
  | DeleteWhere id => List.filter (fun r => negb (osm_id r =? id)) rows
  end.

Definition table_rows (t : table_t) : list row := fold_left apply_cmd t [].

(** The rows streamed to a table, in order. *)
Definition copied_rows (t : table_t) : list row :=
  flat_map (fun c => match c with CopyRow r => [r] | _ => [] end) t.

(** *** Id trackers *)

(** Modelled from the spec: [pgsql_id_tracker] is declared in
    pgsql-id-tracker.hpp.  A tracker is a set of ids; [mark] is an upsert,
    [is_marked] a point lookup, and [pop_mark] removes and returns the
    smallest id, or the sentinel max when the set is empty. *)
Definition mark (id : osmid_t) (t : gset Z) : gset Z := {[ id ]} ∪ t.

Definition is_marked (id : osmid_t) (t : gset Z) : bool := bool_decide (id ∈ t).

Definition pop_mark (t : gset Z) : osmid_t * gset Z :=
  match merge_sort Z.le (elements t) with
  | [] => (osmid_max, t)
  | x :: _ => (x, t ∖ {[ x ]})
  end.

(** *** Collaborators *)

(** Modelled from the spec: [tagtransform] is declared in tagtransform.hpp.
    Its filters are pure: they return nonzero to drop the feature and give
    their verdicts through out parameters.  [filter_way_tags] gives
    (drop, polygon, roads). *)
Record rel_member_verdict : Type := mk_verdict {
  v_drop : bool;
  v_superseeded : list bool;
  v_make_boundary : bool;
  v_make_polygon : bool;
  v_roads : bool
}.

Record tagtransform : Type := mk_tagtransform {
  filter_node_tags : keyval -> export_list -> bool;
  filter_way_tags : keyval -> export_list -> bool * bool * bool;
  filter_rel_tags : keyval -> export_list -> bool;
  filter_rel_member_tags :
    keyval -> list keyval -> list (option string) -> export_list ->
    rel_member_verdict
}.

(** Modelled from the spec: the geometry builder is declared in
    build_geometry.hpp.  A build leaves a sequence of geometries, each read
    back with [get_wkt(i)] and [get_area(i)]. *)
Record build_geometry : Type := mk_builder {
  get_wkt_split : list osmNode -> bool -> Z -> list (string * double);
  build : osmid_t -> list (list osmNode) -> bool -> bool -> Z ->
          list (string * double)
}.

(** Modelled from the spec: the middle is declared in middle.hpp.  The
    getters return 0 on success ([Some]); [ways_get_list] may return fewer
    ways than requested. *)
Record middle_query_t : Type := mk_middle {
  nodes_get_list : list osmid_t -> list osmNode;
  ways_get : osmid_t -> option (keyval * list osmNode);
  ways_get_list : list osmid_t -> list (osmid_t * keyval * list osmNode);
  relations_get : osmid_t -> option (list member * keyval);
  relations_using_way : osmid_t -> list osmid_t
}.

Record options_t : Type := mk_options {
  slim : bool;
  droptemp : bool;
  proj_latlong : bool;     (* projection->get_proj_id() == PROJ_LATLONG *)
  enable_multi : bool
}.

(** *** The output object *)

Inductive table_id : Type := t_point | t_line | t_poly | t_roads.

Record output_pgsql_t : Type := mk_output {
  tbl_point : table_t;
  tbl_line : table_t;
  tbl_poly : table_t;
  tbl_roads : table_t;
  ways_pending_tracker : gset Z;
  ways_done_tracker : gset Z;
  rels_pending_tracker : gset Z
}.

Definition m_tables (i : table_id) (o : output_pgsql_t) : table_t :=
  match i with
  | t_point => tbl_point o
  | t_line => tbl_line o
  | t_poly => tbl_poly o
  | t_roads => tbl_roads o
  end.

Definition on_table (i : table_id) (f : table_t -> table_t)
    (o : output_pgsql_t) : output_pgsql_t :=
  match i with
  | t_point => mk_output (f (tbl_point o)) (tbl_line o) (tbl_poly o) (tbl_roads o)
      (ways_pending_tracker o) (ways_done_tracker o) (rels_pending_tracker o)
  | t_line => mk_output (tbl_point o) (f (tbl_line o)) (tbl_poly o) (tbl_roads o)
      (ways_pending_tracker o) (ways_done_tracker o) (rels_pending_tracker o)
  | t_poly => mk_output (tbl_point o) (tbl_line o) (f (tbl_poly o)) (tbl_roads o)
      (ways_pending_tracker o) (ways_done_tracker o) (rels_pending_tracker o)
  | t_roads => mk_output (tbl_point o) (tbl_line o) (tbl_poly o) (f (tbl_roads o))
      (ways_pending_tracker o) (ways_done_tracker o) (rels_pending_tracker o)
  end.

Definition set_ways_pending (p : gset Z) (o : output_pgsql_t) : output_pgsql_t :=
  mk_output (tbl_point o) (tbl_line o) (tbl_poly o) (tbl_roads o)
    p (ways_done_tracker o) (rels_pending_tracker o).

Definition set_ways_done (p : gset Z) (o : output_pgsql_t) : output_pgsql_t :=
  mk_output (tbl_point o) (tbl_line o) (tbl_poly o) (tbl_roads o)
    (ways_pending_tracker o) p (rels_pending_tracker o).

Definition set_rels_pending (p : gset Z) (o : output_pgsql_t) : output_pgsql_t :=
  mk_output (tbl_point o) (tbl_line o) (tbl_poly o) (tbl_roads o)
    (ways_pending_tracker o) (ways_done_tracker o) p.

(** [!strncmp(wkt, "POLYGON", strlen("POLYGON")) ||
     !strncmp(wkt, "MULTIPOLYGON", strlen("MULTIPOLYGON"))] *)
Definition is_polygon_wkt (wkt : string) : bool :=
  (String.prefix "POLYGON" wkt || String.prefix "MULTIPOLYGON" wkt)%bool.

(** [strlen(wkt)] as a condition *)
Definition nonempty (wkt : string) : bool :=
  match wkt with EmptyString => false | _ => true end.

(** Modelled from the spec: the expire accumulator is declared in
    expire-tiles.hpp.  [from_db(conn, id)] probes the table behind the
    connection and returns nonzero when the object previously existed.  The
    calls that only add tiles to the accumulator ([from_bbox], [from_wkt],
    [from_nodes_line], [from_nodes_poly]) change nothing this file reads
    back and are left out. *)
Record expire_tiles : Type := mk_expire {
  from_db : table_t -> osmid_t -> Z
}.

(** What the output object is set up with in [start()] and does not change
    afterwards, together with the C library's [snprintf(tmp, sizeof(tmp),
    "%g", area)]. *)
Record output_env : Type := mk_env {
  m_options : options_t;
  m_export_list : export_list;
  m_enable_way_area : bool;
  m_tagtransform : tagtransform;
  builder : build_geometry;
  m_mid : middle_query_t;
  expire : expire_tiles;
  snprintf_g : double -> string
}.

Section Emitter.

Variable E : output_env.

(** Split long ways after around 1 degree or 100km. *)
Definition split_at : Z := if proj_latlong (m_options E) then 1 else 100 * 1000.

(** [pgsql_out_node]: the return value and the output afterwards. *)
Definition pgsql_out_node (id : osmid_t) (tags : keyval)
    (node_lat node_lon : double) (o : output_pgsql_t) : Z * output_pgsql_t :=
  let filter := filter_node_tags (m_tagtransform E) tags (m_export_list E) in
  if filter then (1, o)
  else (0, on_table t_point (write_node id tags node_lat node_lon) o).

(** [pgsql_delete_way_from_output] *)
Definition pgsql_delete_way_from_output (osm_id : osmid_t)
    (o : output_pgsql_t) : output_pgsql_t :=
  (* Optimisation: we only need this is slim mode *)
  if negb (slim (m_options E)) then o
  (* in droptemp mode we don't have indices and this takes ages. *)
  else if droptemp (m_options E) then o
  else
    let o := on_table t_roads pgsql_pause_copy o in
    let o := on_table t_line pgsql_pause_copy o in
    let o := on_table t_poly pgsql_pause_copy o in
    let o := on_table t_roads (delete_row osm_id) o in
    let o := if negb (from_db (expire E) (m_tables t_line o) osm_id =? 0)
             then on_table t_line (delete_row osm_id) o else o in
    let o := if negb (from_db (expire E) (m_tables t_poly o) osm_id =? 0)
             then on_table t_poly (delete_row osm_id) o else o in
    o.

(** [pgsql_delete_relation_from_output]: relations are identified by using
    negative IDs. *)
Definition pgsql_delete_relation_from_output (osm_id : osmid_t)
    (o : output_pgsql_t) : output_pgsql_t :=
  let o := on_table t_roads pgsql_pause_copy o in
  let o := on_table t_line pgsql_pause_copy o in
  let o := on_table t_poly pgsql_pause_copy o in
  let o := on_table t_roads (delete_row (- osm_id)) o in
  let o := if negb (from_db (expire E) (m_tables t_line o) (- osm_id) =? 0)
           then on_table t_line (delete_row (- osm_id)) o else o in
  let o := if negb (from_db (expire E) (m_tables t_poly o) (- osm_id) =? 0)
           then on_table t_poly (delete_row (- osm_id)) o else o in
  o.

(** The [if ((area > 0.0) && m_enable_way_area)] block: [tags] afterwards. *)
Definition inject_way_area (area : double) (tags : keyval) : keyval :=
  if (double_gt0 area && (m_enable_way_area E))%bool
  then addItem tags "way_area" (snprintf_g E area)
  else tags.

(** Body of the geometry loop of [pgsql_out_way], for geometry
    [(wkt, area)]: the tag list (which [addItem] changes in place) and the
    output afterwards. *)
Definition out_way_geom (id : osmid_t) (roads : bool)
    (acc : keyval * output_pgsql_t) (g : string * double)
  : keyval * output_pgsql_t :=
  let '(tags, o) := acc in
  let '(wkt, area) := g in
  if nonempty wkt then
    if is_polygon_wkt wkt then
      let tags := inject_way_area area tags in
      (tags, on_table t_poly (write_way id tags wkt) o)
    else
      let o := on_table t_line (write_way id tags wkt) o in
      let o := if roads then on_table t_roads (write_way id tags wkt) o else o in
      (tags, o)
  else (tags, o).

(** [pgsql_out_way]; it always returns 0. *)
Definition pgsql_out_way (id : osmid_t) (tags : keyval) (nodes : list osmNode)
    (exists_ : bool) (o : output_pgsql_t) : output_pgsql_t :=
  (* If the flag says this object may exist already, delete it first *)
  let o :=
    if exists_ then
      let o := pgsql_delete_way_from_output id o in
      fold_left (fun o r => set_rels_pending (mark r (rels_pending_tracker o)) o)
        (relations_using_way (m_mid E) id) o
    else o in
  let '(filter, polygon, roads) := filter_way_tags (m_tagtransform E) tags (m_export_list E) in
  if filter then o
  else
    let wkts := get_wkt_split (builder E) nodes polygon split_at in
    snd (fold_left (out_way_geom id roads) wkts (tags, o)).

(** Body of the first geometry loop of [pgsql_out_relation]. *)
Definition out_rel_geom (id : osmid_t) (roads : bool)
    (acc : keyval * output_pgsql_t) (g : string * double)
  : keyval * output_pgsql_t :=
  let '(rel_tags, o) := acc in
  let '(wkt, area) := g in
  if nonempty wkt then
    if is_polygon_wkt wkt then
      let rel_tags := inject_way_area area rel_tags in
      (rel_tags, on_table t_poly (write_way (- id) rel_tags wkt) o)
    else
      let o := on_table t_line (write_way (- id) rel_tags wkt) o in
      let o := if roads then on_table t_roads (write_way (- id) rel_tags wkt) o
               else o in
      (rel_tags, o)
  else (rel_tags, o).

(** Body of the boundary loop of [pgsql_out_relation]. *)
Definition out_boundary_geom (id : osmid_t)
    (acc : keyval * output_pgsql_t) (g : string * double)
  : keyval * output_pgsql_t :=
  let '(rel_tags, o) := acc in
  let '(wkt, area) := g in
  if nonempty wkt then
    if is_polygon_wkt wkt then
      let rel_tags := inject_way_area area rel_tags in
      (rel_tags, on_table t_poly (write_way (- id) rel_tags wkt) o)
    else (rel_tags, o)
  else (rel_tags, o).

(** The loop [for (i = 0; xcount[i]; i++)] over the fetched member ways,
    given with their ids and node lists ([xcount[i]] is the length of the
    node list; the arrays end with a zero count). *)
Fixpoint mark_superseeded (ways : list (osmid_t * list osmNode))
    (members_superseeded : list bool) (o : output_pgsql_t) : output_pgsql_t :=
  match ways with
  | [] => o
  | (xid, xnodes) :: rest =>
      if (Z.of_nat (length xnodes) =? 0) then o
      else
        let o :=
          if hd false members_superseeded then
            let o := set_ways_done (mark xid (ways_done_tracker o)) o in
            pgsql_delete_way_from_output xid o
          else o in
        mark_superseeded rest (tl members_superseeded) o
  end.

(** [pgsql_out_relation]; it always returns 0.  [ways] are the fetched
    member ways (xid, xtags, xnodes with xcount), [xrole] their roles. *)
Definition pgsql_out_relation (id : osmid_t) (rel_tags : keyval)
    (ways : list (osmid_t * keyval * list osmNode))
    (xrole : list (option string)) (o : output_pgsql_t) : output_pgsql_t :=
  let xtags := map (fun w => snd (fst w)) ways in
  let xnodes := map snd ways in
  match ways with
  | [] => o
  | _ =>
    let v := filter_rel_member_tags (m_tagtransform E) rel_tags xtags xrole
               (m_export_list E) in
    if v_drop v then o
    else
      let wkts := build (builder E) id xnodes (v_make_polygon v)
                    (enable_multi (m_options E)) split_at in
      match wkts with
      | [] => o
      | _ =>
        let '(rel_tags, o) :=
          fold_left (out_rel_geom id (v_roads v)) wkts (rel_tags, o) in
        (* Tagtransform will have marked those member ways of the relation
           that have fully been dealt with as part of the multi-polygon
           entry.  Set them in the database as done and delete their entry
           to not have duplicates *)
        let o :=
          if v_make_polygon v
          then mark_superseeded (map (fun w => (fst (fst w), snd w)) ways)
                 (v_superseeded v) o
          else o in
        (* If we are making a boundary then also try adding any relations
           which form complete rings *)
        if v_make_boundary v then
          let wkts2 := build (builder E) id xnodes true (enable_multi (m_options E))
                         split_at in
          snd (fold_left (out_boundary_geom id) wkts2 (rel_tags, o))
        else o
      end
  end.

(** [node_add] *)
Definition node_add (id : osmid_t) (node_lat node_lon : double) (tags : keyval)
    (o : output_pgsql_t) : output_pgsql_t :=
  snd (pgsql_out_node id tags node_lat node_lon o).

(** [way_add] *)
Definition way_add (id : osmid_t) (nds : list osmid_t) (tags : keyval)
    (o : output_pgsql_t) : output_pgsql_t :=
  (* Check whether the way is: (1) Exportable, (2) Maybe a polygon *)
  let '(filter, polygon, roads) := filter_way_tags (m_tagtransform E) tags (m_export_list E) in
  (* If this isn't a polygon then it can not be part of a multipolygon
     Hence only polygons are "pending" *)
  let o := if (negb filter && polygon)%bool
           then set_ways_pending (mark id (ways_pending_tracker o)) o
           else o in
  if (negb polygon && negb filter)%bool then
    (* Get actual node data and generate output *)
    let nodes := nodes_get_list (m_mid E) nds in
    pgsql_out_way id tags nodes false o
  else o.

(** The role of the [i]-th fetched way: [for (j = i; j < member_count; j++)
    if (members[j].id == xid[i]) break; xrole[i] = members[j].role;].  When no
    member from position [i] on has the id, the source reads past the array;
    the role is then unknown ([None]). *)
Definition find_role (members : list member) (i : nat) (xid : osmid_t)
  : option string :=
  match List.find (fun m => m_id m =? xid) (skipn i members) with
  | Some m => Some (m_role m)
  | None => None
  end.

(** [pgsql_process_relation]: the return value and the output afterwards. *)
Definition pgsql_process_relation (id : osmid_t) (members : list member)
    (tags : keyval) (exists_ : bool) (o : output_pgsql_t)
  : Z * output_pgsql_t :=
  (* If the flag says this object may exist already, delete it first *)
  let o := if exists_ then pgsql_delete_relation_from_output id o else o in
  if filter_rel_tags (m_tagtransform E) tags (m_export_list E) then (1, o)
  else
    (* Need to handle more than just ways... *)
    let xid2 := map m_id
                  (List.filter (fun m => match m_type m with
                                         | OSMTYPE_WAY => true
                                         | _ => false
                                         end) members) in
    let ways := ways_get_list (m_mid E) xid2 in
    let xrole := imap (fun i w => find_role members i (fst (fst w))) ways in
    (0, pgsql_out_relation id tags ways xrole o).

(** [relation_add] *)
Definition relation_add (id : osmid_t) (members : list member) (tags : keyval)
    (o : output_pgsql_t) : output_pgsql_t :=
  match getItem tags "type" with
  (* Must have a type field or we ignore it *)
  | None => o
  | Some type =>
      (* Only a limited subset of type= is supported, ignore other *)
      if (negb (String.eqb type "route") && negb (String.eqb type "multipolygon")
          && negb (String.eqb type "boundary"))%bool
      then o
      else snd (pgsql_process_relation id members tags false o)
  end.

(** [node_delete] *)
Definition node_delete (osm_id : osmid_t) (o : output_pgsql_t)
  : outcome output_pgsql_t :=
  if negb (slim (m_options E)) then Exit [CannotApplyDiffs]
  else
    let o := on_table t_point pgsql_pause_copy o in
    if negb (from_db (expire E) (m_tables t_point o) osm_id =? 0)
    then Return [] (on_table t_point (fun t => t ++ [DeleteWhere osm_id]) o)
    else Return [] o.

(** [way_delete] *)
Definition way_delete (osm_id : osmid_t) (o : output_pgsql_t)
  : outcome output_pgsql_t :=
  if negb (slim (m_options E)) then Exit [CannotApplyDiffs]
  else Return [] (pgsql_delete_way_from_output osm_id o).

(** [relation_delete] *)
Definition relation_delete (osm_id : osmid_t) (o : output_pgsql_t)
  : outcome output_pgsql_t :=
  if negb (slim (m_options E)) then Exit [CannotApplyDiffs]
  else Return [] (pgsql_delete_relation_from_output osm_id o).

(** [way_modify] *)
Definition way_modify (osm_id : osmid_t) (nodes : list osmid_t) (tags : keyval)
    (o : output_pgsql_t) : outcome output_pgsql_t :=
  if negb (slim (m_options E)) then Exit [CannotApplyDiffs]
  else
    match way_delete osm_id o with
    | Exit e => Exit e
    | Return e o => Return e (way_add osm_id nodes tags o)
    end.

(** [node_modify] *)
Definition node_modify (osm_id : osmid_t) (node_lat node_lon : double)
    (tags : keyval) (o : output_pgsql_t) : outcome output_pgsql_t :=
  if negb (slim (m_options E)) then Exit [CannotApplyDiffs]
  else
    match node_delete osm_id o with
    | Exit e => Exit e
    | Return e o => Return e (node_add osm_id node_lat node_lon tags o)
    end.

(** [relation_modify] *)
Definition relation_modify (osm_id : osmid_t) (members : list member)
    (tags : keyval) (o : output_pgsql_t) : outcome output_pgsql_t :=
  if negb (slim (m_options E)) then Exit [CannotApplyDiffs]
  else
    match relation_delete osm_id o with
    | Exit e => Exit e
    | Return e o => Return e (relation_add osm_id members tags o)
    end.

(** *** way_cb_func *)

(** The call-back object next to the output it points to ([m_ptr]). *)
Record cb_func : Type := mk_cb {
  m_next_internal_id : osmid_t;
  m_ptr : output_pgsql_t
}.

(** [way_cb_func::way_cb_func] *)
Definition way_cb_func (ptr : output_pgsql_t) : cb_func :=
  let '(id, p) := pop_mark (ways_pending_tracker ptr) in
  mk_cb id (set_ways_pending p ptr).

(** The [while (m_next_internal_id < id)] loop of
    [way_cb_func::run_internal_until], unrolled at most [fuel] times. *)
Fixpoint way_run_internal_loop (fuel : nat) (id : osmid_t) (exists_ : bool)
    (cb : cb_func) : cb_func :=
  match fuel with
  | O => cb
  | S fuel' =>
      if m_next_internal_id cb <? id then
        let o := m_ptr cb in
        let o :=
          match ways_get (m_mid E) (m_next_internal_id cb) with
          | Some (tags_int, nodes_int) =>
              if negb (is_marked (m_next_internal_id cb) (ways_done_tracker o))
              then pgsql_out_way (m_next_internal_id cb) tags_int nodes_int
                     exists_ o
              else o
          | None => o
          end in
        let '(next, p) := pop_mark (ways_pending_tracker o) in
        way_run_internal_loop fuel' id exists_
          (mk_cb next (set_ways_pending p o))
      else cb
  end.

(** [way_cb_func::run_internal_until]: every turn of the loop pops one id
    off the pending tracker, so one turn per pending id and one for the id
    at the cursor are enough. *)
Definition way_run_internal_until (id : osmid_t) (exists_ : bool)
    (cb : cb_func) : cb_func :=
  way_run_internal_loop (S (size (ways_pending_tracker (m_ptr cb)))) id
    exists_ cb.

(** [way_cb_func::operator()]; [pgsql_out_way] and the early return both
    give 0. *)
Definition way_cb_call (id : osmid_t) (tags : keyval) (nodes : list osmNode)
    (exists_ : bool) (cb : cb_func) : cb_func :=
  let cb := if m_next_internal_id cb <? id
            then way_run_internal_until id exists_ cb else cb in
  let cb := if m_next_internal_id cb =? id
            then
              let '(next, p) := pop_mark (ways_pending_tracker (m_ptr cb)) in
              mk_cb next (set_ways_pending p (m_ptr cb))
            else cb in
  if is_marked id (ways_done_tracker (m_ptr cb)) then cb
  else mk_cb (m_next_internal_id cb)
         (pgsql_out_way id tags nodes exists_ (m_ptr cb)).

(** [way_cb_func::finish] *)
Definition way_cb_finish (exists_ : bool) (cb : cb_func) : cb_func :=
  way_run_internal_until osmid_max exists_ cb.

(** *** rel_cb_func *)

(** [rel_cb_func::rel_cb_func] *)
Definition rel_cb_func (ptr : output_pgsql_t) : cb_func :=
  let '(id, p) := pop_mark (rels_pending_tracker ptr) in
  mk_cb id (set_rels_pending p ptr).

(** The loop of [rel_cb_func::run_internal_until]. *)
Fixpoint rel_run_internal_loop (fuel : nat) (id : osmid_t) (exists_ : bool)
    (cb : cb_func) : cb_func :=
  match fuel with
  | O => cb
  | S fuel' =>
      if m_next_internal_id cb <? id then
        let o := m_ptr cb in
        let o :=
          match relations_get (m_mid E) (m_next_internal_id cb) with
          | Some (members_int, tags_int) =>
              snd (pgsql_process_relation (m_next_internal_id cb) members_int
                     tags_int exists_ o)
          | None => o
          end in
        let '(next, p) := pop_mark (rels_pending_tracker o) in
        rel_run_internal_loop fuel' id exists_
          (mk_cb next (set_rels_pending p o))
      else cb
  end.

Definition rel_run_internal_until (id : osmid_t) (exists_ : bool)
    (cb : cb_func) : cb_func :=
  rel_run_internal_loop (S (size (rels_pending_tracker (m_ptr cb)))) id
    exists_ cb.

(** [rel_cb_func::operator()]: the return value and the object afterwards. *)
Definition rel_cb_call (id : osmid_t) (mems : list member) (rel_tags : keyval)
    (exists_ : bool) (cb : cb_func) : Z * cb_func :=
  let cb := if m_next_internal_id cb <? id
            then rel_run_internal_until id exists_ cb else cb in
  let cb := if m_next_internal_id cb =? id
            then
              let '(next, p) := pop_mark (rels_pending_tracker (m_ptr cb)) in
              mk_cb next (set_rels_pending p (m_ptr cb))
            else cb in
  let '(r, o) := pgsql_process_relation id mems rel_tags exists_ (m_ptr cb) in
  (r, mk_cb (m_next_internal_id cb) o).

(** [rel_cb_func::finish] *)
Definition rel_cb_finish (exists_ : bool) (cb : cb_func) : cb_func :=
  rel_run_internal_until osmid_max exists_ cb.

End Emitter.

End Output.

(** * Properties of the style reader *)

Module StyleFacts.
Import Style.

(** What [sscanf4] can return. *)
Lemma sscanf4_shape (buffer : string) :
  sscanf4 buffer = (-1, []) \/
  (exists a, sscanf4 buffer = (1, [a])) \/
  (exists a b, sscanf4 buffer = (2, [a; b])) \/
  (exists a b c, sscanf4 buffer = (3, [a; b; c])) \/
  (exists a b c d, sscanf4 buffer = (4, [a; b; c; d])).
Proof.
  unfold sscanf4.
  destruct (scan_s 23 buffer) as [[a r1]|]; [|by left].
  destruct (scan_s 63 r1) as [[b r2]|]; [|right; left; by exists a].
  destruct (scan_s 23 r2) as [[c r3]|]; [|right; right; left; by exists a, b].
  destruct (scan_s 127 r3) as [[d r4]|].
  - do 4 right. by exists a, b, c, d.
  - do 3 right. left. by exists a, b, c.
Qed.

(** The line number only shows in the warnings, not in the mask. *)
Lemma parse_flags_mask (l l' : Z) (toks : list string) (m : Z) :
  fst (parse_flags l toks m) = fst (parse_flags l' toks m).
Proof.
  revert m. induction toks as [|t toks IH]; intros m; cbn [parse_flags]; [done|].
  destruct (lookup_flag tagflags t); [apply IH|].
  specialize (IH m).
  destruct (parse_flags l toks m), (parse_flags l' toks m). simpl in *. done.
Qed.

Definition line_bad (buffer : string) : bool :=
  (too_few_fields buffer || wildcard_in_non_delete buffer
   || no_osm_type buffer)%bool.

(** One turn of the line loop, read off the text of the line.  The premise
    keeps apart the lines whose flags the reader takes from the previous
    contents of the [flags] array. *)
Lemma style_line_own (st : reader) (buffer : string) :
  (own_fields buffer = 3 -> has_wildcard (own_field 1 buffer) = false) ->
  match style_line st buffer with
  | inl _ => line_bad buffer = true
  | inr st' =>
      line_bad buffer = false /\
      lineno st' = lineno st + 1 /\
      (valid_line buffer = true /\ num_read st' = num_read st + 1 \/
       valid_line buffer = false /\ own_fields buffer <= 0 /\
       num_read st' = num_read st)
  end.
Proof.
  unfold style_line, line_bad, no_osm_type, valid_line, too_few_fields,
    wildcard_in_non_delete, names_osm_type, own_mask, flags_mask, own_field,
    own_fields.
  intros H3.
  destruct (sscanf4_shape (strip_comment buffer))
    as [H|[(a&H)|[(a&b&H)|[(a&b&c&H)|(a&b&c&d&H)]]]];
    rewrite H in *; simpl in *; try done.
  - split; [done|split; [done|right; repeat split; lia]].
  - specialize (H3 eq_refl). rewrite H3.
    destruct (parse_flags (lineno st + 1) _ 0) as [mask warns] eqn:Hp.
    rewrite andb_false_r. simpl.
    destruct (strstr a "node"), (strstr a "way"); simpl; try done;
      (split; [done|split; [done|left; done]]).
  - pose proof (parse_flags_mask (lineno st + 1) 0 (strtok_all "" d) 0) as Hm.
    destruct (parse_flags (lineno st + 1) _ 0) as [mask warns] eqn:Hp.
    simpl in Hm. rewrite <- Hm.
    destruct (has_wildcard b), (mask =? FLAG_DELETE); simpl; try done;
      destruct (strstr a "node"), (strstr a "way"); simpl; try done;
      (split; [done|split; [done|left; done]]).
Qed.

(** The loop over a whole file. *)
Lemma style_loop_own (lines : list string) (st : reader) :
  (forall b, In b lines ->
     own_fields b = 3 -> has_wildcard (own_field 1 b) = false) ->
  match style_loop lines st with
  | inl _ => existsb line_bad lines = true
  | inr st' =>
      existsb line_bad lines = false /\
      lineno st' = lineno st + Z.of_nat (length lines) /\
      num_read st <= num_read st' /\
      (existsb valid_line lines = true -> num_read st < num_read st') /\
      (existsb valid_line lines = false -> num_read st' = num_read st)
  end.
Proof.
  revert st. induction lines as [|b lines IH]; intros st H3.
  - simpl. repeat split; try done; lia.
  - cbn [style_loop existsb length].
    pose proof (style_line_own st b (H3 b (or_introl eq_refl))) as Hb.
    destruct (style_line st b) as [e|st1].
    + by rewrite Hb.
    + destruct Hb as (Hbad & Hl & Hv). rewrite Hbad. simpl.
      specialize (IH st1 (fun b' Hin => H3 b' (or_intror Hin))).
      destruct (style_loop lines st1) as [e|st'']; [done|].
      destruct IH as (IH1 & IH2 & IH3 & IH4 & IH5).
      split; [done|]. split; [lia|].
      destruct Hv as [[Hv Hn]|(Hv & _ & Hn)]; rewrite Hv; simpl.
      * repeat split; try lia; done.
      * repeat split; try lia; intros Hx;
          [specialize (IH4 Hx)|specialize (IH5 Hx)]; lia.
Qed.

Lemma style_loop_app (l1 l2 : list string) (st : reader) :
  style_loop (l1 ++ l2) st =
  match style_loop l1 st with
  | inl e => inl e
  | inr st' => style_loop l2 st'
  end.
Proof.
  revert st. induction l1 as [|b l1 IH]; intros st; simpl; [done|].
  destruct (style_line st b); [done|apply IH].
Qed.

Lemma style_line_lineno (st st' : reader) (buffer : string) :
  style_line st buffer = inr st' -> lineno st' = lineno st + 1.
Proof.
  unfold style_line.
  destruct (sscanf4 (strip_comment buffer)) as [fields conv].
  destruct (fields <=? 0); [by intros [= <-]|].
  destruct (fields <? 3); [done|].
  destruct (parse_flags _ _ 0) as [mask warns].
  destruct (negb (mask =? FLAG_DELETE) && _)%bool; [done|].
  destruct (negb _); [done|]. by intros [= <-].
Qed.

Lemma style_loop_lineno (lines : list string) (st st' : reader) :
  style_loop lines st = inr st' ->
  lineno st' = lineno st + Z.of_nat (length lines).
Proof.
  revert st. induction lines as [|b lines IH]; intros st; simpl.
  - intros [= <-]. lia.
  - destruct (style_line st b) as [|st1] eqn:Hb; [done|].
    intros H. apply IH in H. apply style_line_lineno in Hb. lia.
Qed.

(** The reader stops at a line that names neither nodes nor ways. *)
Lemma style_line_weird (st : reader) (buffer : string) :
  no_osm_type buffer = true ->
  exists warns,
    style_line st buffer = inl (err st ++ warns ++ [WeirdStyleLine (lineno st + 1)]).
Proof.
  unfold style_line, no_osm_type, wildcard_in_non_delete, names_osm_type,
    own_mask, flags_mask, own_field, own_fields.
  destruct (sscanf4_shape (strip_comment buffer))
    as [H|[(a&H)|[(a&b&H)|[(a&b&c&H)|(a&b&c&d&H)]]]];
    rewrite H; simpl; try done.
  - destruct (parse_flags (lineno st + 1) _ 0) as [mask warns] eqn:Hp.
    destruct (has_wildcard b); [done|]. rewrite andb_false_r. simpl.
    destruct (strstr a "node"), (strstr a "way"); simpl; try done.
    intros _. exists warns. by rewrite <- app_assoc.
  - pose proof (parse_flags_mask (lineno st + 1) 0 (strtok_all "" d) 0) as Hm.
    destruct (parse_flags (lineno st + 1) _ 0) as [mask warns] eqn:Hp.
    simpl in Hm. rewrite <- Hm.
    destruct (has_wildcard b), (mask =? FLAG_DELETE); simpl; try done;
      destruct (strstr a "node"), (strstr a "way"); simpl; try done;
      intros _; exists warns; by rewrite <- app_assoc.
Qed.

(** Unknown flag tokens: the mask is that of the known tokens, and each
    unknown token leaves one warning. *)
Definition known_flag (tok : string) : bool :=
  match lookup_flag tagflags tok with Some _ => true | None => false end.

Lemma parse_flags_unknown (l : Z) (toks : list string) (m : Z) :
  parse_flags l toks m =
  (fst (parse_flags l (List.filter known_flag toks) m),
   map (fun t => UnknownFlag t l) (List.filter (fun t => negb (known_flag t)) toks)).
Proof.
  revert m. induction toks as [|t toks IH]; intros m; [done|].
  cbn [parse_flags List.filter].
  assert (Hk : known_flag t = match lookup_flag tagflags t with
                              | Some _ => true | None => false end) by done.
  destruct (lookup_flag tagflags t) as [f|] eqn:Hf; rewrite Hk; cbn [negb].
  - cbn [parse_flags]. rewrite Hf. apply IH.
  - rewrite IH. done.
Qed.

(** [enable_way_area] is cleared by the lines named way_area whose mask is
    exactly DELETE, and by no others. *)
Definition is_way_area_delete (t : taginfo) : bool :=
  (String.eqb (name t) "way_area" && (flags t =? FLAG_DELETE))%bool.

Definition way_area_deleted (e : export_list) : bool :=
  existsb is_way_area_delete (node_infos e ++ way_infos e).

Lemma style_line_way_area (st st' : reader) (buffer : string) :
  style_line st buffer = inr st' ->
  enable_way_area st = negb (way_area_deleted (exlist st)) ->
  enable_way_area st' = negb (way_area_deleted (exlist st')).
Proof.
  unfold style_line.
  destruct (sscanf4 (strip_comment buffer)) as [fields conv].
  destruct (fields <=? 0); [by intros [= <-]|].
  destruct (fields <? 3); [done|].
  destruct (parse_flags _ _ 0) as [mask warns].
  destruct (negb (mask =? FLAG_DELETE) && _)%bool; [done|].
  set (tag := nth 1 conv ""). set (temp := mk_taginfo tag _ mask).
  assert (Ht : is_way_area_delete temp
               = (String.eqb tag "way_area" && (mask =? FLAG_DELETE))%bool) by done.
  destruct (strstr _ "node"), (strstr _ "way"); simpl; try done;
    intros [= <-] Hinv; simpl; unfold way_area_deleted in *; simpl;
    rewrite ?existsb_app in *; simpl; rewrite ?Ht, ?Hinv;
    destruct (String.eqb tag "way_area" && (mask =? FLAG_DELETE))%bool;
    simpl; rewrite ?orb_true_r, ?orb_false_r; simpl; done.
Qed.

Lemma style_loop_way_area (lines : list string) (st st' : reader) :
  style_loop lines st = inr st' ->
  enable_way_area st = negb (way_area_deleted (exlist st)) ->
  enable_way_area st' = negb (way_area_deleted (exlist st')).
Proof.
  revert st. induction lines as [|b lines IH]; intros st; simpl.
  - by intros [= <-].
  - destruct (style_line st b) as [|st1] eqn:Hb; [done|].
    intros H Hinv. apply (IH st1 H). by apply (style_line_way_area st st1 b).
Qed.

Lemma read_style_file_way_area (f : FILE) (flags0 : string) (e : list diag)
    (enable : bool) (exl : export_list) :
  read_style_file (Some f) flags0 empty_export_list = Return e (enable, exl) ->
  enable = negb (way_area_deleted exl).
Proof.
  unfold read_style_file.
  destruct (style_loop _ _) as [|st] eqn:Hl; [done|].
  destruct (read_error f); [done|]. destruct (num_read st =? 0); [done|].
  intros [= _ <- <-]. by apply (style_loop_way_area _ _ _ Hl).
Qed.

Lemma way_area_deleted_spec (e : export_list) :
  way_area_deleted e = true <->
  exists t, (In t (node_infos e) \/ In t (way_infos e)) /\
            name t = "way_area" /\ flags t = FLAG_DELETE.
Proof.
  unfold way_area_deleted. rewrite existsb_exists. split.
  - intros (t & Hin & Ht). exists t. rewrite in_app_iff in Hin.
    unfold is_way_area_delete in Ht. apply andb_true_iff in Ht as [H1 H2].
    apply String.eqb_eq in H1. apply Z.eqb_eq in H2. done.
  - intros (t & Hin & H1 & H2). exists t. rewrite in_app_iff. split; [done|].
    unfold is_way_area_delete. rewrite H1, H2. done.
Qed.

Lemma existsb_line_bad (lines : list string) :
  existsb line_bad lines =
  (existsb too_few_fields lines || existsb wildcard_in_non_delete lines
   || existsb no_osm_type lines)%bool.
Proof.
  induction lines as [|b l IH]; [done|]. simpl. rewrite IH. unfold line_bad.
  destruct (too_few_fields b), (wildcard_in_non_delete b), (no_osm_type b),
    (existsb too_few_fields l), (existsb wildcard_in_non_delete l),
    (existsb no_osm_type l); done.
Qed.

(** **** Example style files *)

(** A rule for nodes and ways, then a line for relations only. *)
Definition style_with_relation_line : FILE :=
  mk_FILE ("node,way highway text linear" ++ String LF
           ("relation route text linear" ++ String LF ""))%string false.

(** way_area is deleted, but with a second flag. *)
Definition style_way_area_two_flags : FILE :=
  mk_FILE ("node,way highway text linear" ++ String LF
           ("way way_area real delete,linear" ++ String LF ""))%string false.

(** way_area is deleted, and a line has an unknown flag. *)
Definition style_way_area_deleted : FILE :=
  mk_FILE ("node,way highway text linear,bogus" ++ String LF
           ("way way_area real delete" ++ String LF ""))%string false.

(** C7, as stated, fails: the reader exits on the second line of
    [style_with_relation_line], which has four fields, no wildcard and
    follows a valid line, so none of the three listed conditions holds. *)
Lemma style_exit_not_listed :
  ~ (is_exit (read_style_file (Some style_with_relation_line) "" empty_export_list)
       = true <->
     spec_listed_fatal (fgets_lines style_with_relation_line) = true).
Proof.
  intros [H _]. assert (Hx : is_exit
    (read_style_file (Some style_with_relation_line) "" empty_export_list) = true)
    by (vm_compute; reflexivity).
  apply H in Hx. vm_compute in Hx. discriminate.
Qed.

(** C7, amended: a style file that can be opened makes the reader exit
    exactly when some line has fewer than 3 fields, or has a wildcard in an
    entry whose flags are not exactly DELETE, or names neither nodes nor
    ways in its type mask, or no line is valid, or reading fails; unknown
    flag tokens only leave a warning and nothing in the mask.  Lines with
    three fields and a wildcard name are left out. *)
Theorem style_exit_cases (f : FILE) (flags0 : string) (exl : export_list) :
  (forall b, In b (fgets_lines f) ->
     own_fields b = 3 -> has_wildcard (own_field 1 b) = false) ->
  (is_exit (read_style_file (Some f) flags0 exl) = true <->
   spec_listed_fatal (fgets_lines f) = true \/
   existsb no_osm_type (fgets_lines f) = true \/
   read_error f = true) /\
  (forall l toks m,
     parse_flags l toks m =
     (fst (parse_flags l (List.filter known_flag toks) m),
      map (fun t => UnknownFlag t l)
        (List.filter (fun t => negb (known_flag t)) toks))).
Proof.
  intros H3. split; [|apply parse_flags_unknown].
  unfold read_style_file, spec_listed_fatal.
  pose proof (style_loop_own (fgets_lines f) (mk_reader 0 0 flags0 exl true []) H3)
    as Hl.
  pose proof (existsb_line_bad (fgets_lines f)) as Hbad.
  destruct (style_loop _ _) as [e|st].
  - rewrite Hbad in Hl. simpl. split; [intros _|done].
    destruct (existsb too_few_fields _), (existsb wildcard_in_non_delete _),
      (existsb no_osm_type _); simpl in *; auto; done.
  - destruct Hl as (Hb & _ & _ & Hv1 & Hv0). rewrite Hbad in Hb. simpl in *.
    destruct (existsb too_few_fields _), (existsb wildcard_in_non_delete _),
      (existsb no_osm_type _); simpl in *; try done.
    destruct (read_error f); simpl; [tauto|].
    destruct (existsb valid_line _); simpl.
    + specialize (Hv1 eq_refl).
      destruct (num_read st =? 0) eqn:Hz; [lia|]. simpl.
      split; [done|]. intros [?|[?|?]]; done.
    + rewrite (Hv0 eq_refl). simpl. tauto.
Qed.

Lemma style_exit_cases_witness :
  (is_exit (read_style_file (Some style_with_relation_line) "" empty_export_list)
     = true <->
   spec_listed_fatal (fgets_lines style_with_relation_line) = true \/
   existsb no_osm_type (fgets_lines style_with_relation_line) = true \/
   read_error style_with_relation_line = true) /\
  parse_flags 1 ["linear"; "bogus"] 0 = (FLAG_LINEAR, [UnknownFlag "bogus" 1]).
Proof.
  assert (H3 : forall b, In b (fgets_lines style_with_relation_line) ->
             own_fields b = 3 -> has_wildcard (own_field 1 b) = false).
  { intros b Hb. vm_compute in Hb.
    destruct Hb as [<-|[<-|[]]]; vm_compute; intros; discriminate. }
  destruct (style_exit_cases style_with_relation_line "" empty_export_list H3)
    as [H1 H2].
  split; [exact H1|]. rewrite H2. vm_compute. reflexivity.
Defined.

(** C9: a line with three or more fields and no wildcard violation whose
    type mask contains neither "node" nor "way" makes the reader exit;
    when the lines before it are read without an exit, the last diagnostic
    is "Weird style line" with the number of that line. *)
Theorem weird_style_line_exits (f : FILE) (flags0 : string) (exl : export_list)
    (pre post : list string) (buffer : string) :
  fgets_lines f = pre ++ buffer :: post ->
  no_osm_type buffer = true ->
  is_exit (read_style_file (Some f) flags0 exl) = true /\
  (forall st, style_loop pre (mk_reader 0 0 flags0 exl true []) = inr st ->
     exists warns,
       read_style_file (Some f) flags0 exl =
       Exit (err st ++ warns ++ [WeirdStyleLine (Z.of_nat (length pre) + 1)])).
Proof.
  intros Hf Hw. unfold read_style_file. rewrite Hf, style_loop_app.
  destruct (style_loop pre _) as [e|st] eqn:Hpre.
  - split; [done|]. intros st [=].
  - destruct (style_line_weird st buffer Hw) as (warns & Hl).
    cbn [style_loop]. rewrite Hl.
    split; [done|]. intros st1 [= <-]. exists warns.
    apply style_loop_lineno in Hpre. simpl in Hpre. rewrite Hpre. done.
Qed.

Lemma weird_style_line_exits_witness :
  is_exit (read_style_file (Some style_with_relation_line) "" empty_export_list)
    = true /\
  exists warns,
    read_style_file (Some style_with_relation_line) "" empty_export_list =
    Exit ([] ++ warns ++ [WeirdStyleLine 2]).
Proof.
  destruct (weird_style_line_exits style_with_relation_line "" empty_export_list
              ["node,way highway text linear" ++ String LF ""]%string []
              ("relation route text linear" ++ String LF "")%string)
    as [H1 H2].
  - vm_compute. reflexivity.
  - vm_compute. reflexivity.
  - split; [exact H1|].
    exact (H2 (mk_reader 1 1 "linear"
                 (mk_export_list [mk_taginfo "highway" "text" FLAG_LINEAR]
                    [mk_taginfo "highway" "text" FLAG_LINEAR] [])
                 true [])
              eq_refl).
Defined.

End StyleFacts.

(** * Properties of the feature emitter *)

Module OutputFacts.
Import Style Output.

#[global] Instance table_id_eq_dec : EqDecision table_id.
Proof. solve_decision. Defined.

(** ** Commands appended to a table *)

(** [t'] is [t] followed by commands that all satisfy [P]. *)
Definition extends (P : table_cmd -> Prop) (t t' : table_t) : Prop :=
  exists cmds, t' = t ++ cmds /\ Forall P cmds.

Lemma extends_refl P t : extends P t t.
Proof. exists []. by rewrite app_nil_r. Qed.

Lemma extends_trans P t1 t2 t3 :
  extends P t1 t2 -> extends P t2 t3 -> extends P t1 t3.
Proof.
  intros (c1 & -> & H1) (c2 & -> & H2). exists (c1 ++ c2).
  rewrite app_assoc. split; [done|]. by apply Forall_app.
Qed.

Lemma extends_weaken (P Q : table_cmd -> Prop) t t' :
  (forall c, P c -> Q c) -> extends P t t' -> extends Q t t'.
Proof.
  intros HPQ (c & -> & H). exists c. split; [done|].
  eapply Forall_impl; [exact H|]. exact HPQ.
Qed.

Lemma extends_write P id tags wkt t :
  P (CopyRow (mk_row id tags (Wkt wkt))) -> extends P t (write_way id tags wkt t).
Proof. intros H. eexists. split; [done|]. by constructor. Qed.

Lemma extends_pause P t : P EndCopy -> extends P t (pgsql_pause_copy t).
Proof. intros H. eexists. split; [done|]. by constructor. Qed.

Lemma extends_delete P id t :
  P EndCopy -> P (DeleteWhere id) -> extends P t (delete_row id t).
Proof. intros H1 H2. eexists. split; [done|]. by repeat constructor. Qed.

(** The same for the four tables of an output object. *)
Definition all_extend (P : table_id -> table_cmd -> Prop)
    (o o' : output_pgsql_t) : Prop :=
  forall i, extends (P i) (m_tables i o) (m_tables i o').

Lemma all_extend_refl P o : all_extend P o o.
Proof. intros i. apply extends_refl. Qed.

Lemma all_extend_trans P o1 o2 o3 :
  all_extend P o1 o2 -> all_extend P o2 o3 -> all_extend P o1 o3.
Proof. intros H1 H2 i. eapply extends_trans; [apply H1|apply H2]. Qed.

Lemma all_extend_weaken (P Q : table_id -> table_cmd -> Prop) o o' :
  (forall i c, P i c -> Q i c) -> all_extend P o o' -> all_extend Q o o'.
Proof. intros HPQ H i. eapply extends_weaken; [apply HPQ|apply H]. Qed.

Lemma m_tables_on_table i j f o :
  m_tables i (on_table j f o) =
  if decide (i = j) then f (m_tables i o) else m_tables i o.
Proof. by destruct i, j. Qed.

Lemma all_extend_on_table P j f o :
  extends (P j) (m_tables j o) (f (m_tables j o)) ->
  all_extend P o (on_table j f o).
Proof.
  intros H i. rewrite m_tables_on_table.
  destruct (decide (i = j)) as [->|]; [done|apply extends_refl].
Qed.

(** Trackers are not touched by table updates, and the other way round. *)
Lemma on_table_trackers j f o :
  ways_pending_tracker (on_table j f o) = ways_pending_tracker o /\
  ways_done_tracker (on_table j f o) = ways_done_tracker o /\
  rels_pending_tracker (on_table j f o) = rels_pending_tracker o.
Proof. by destruct j. Qed.

Definition same_trackers (o o' : output_pgsql_t) : Prop :=
  ways_pending_tracker o' = ways_pending_tracker o /\
  ways_done_tracker o' = ways_done_tracker o /\
  rels_pending_tracker o' = rels_pending_tracker o.

Lemma same_trackers_refl o : same_trackers o o.
Proof. done. Qed.

Lemma same_trackers_trans o1 o2 o3 :
  same_trackers o1 o2 -> same_trackers o2 o3 -> same_trackers o1 o3.
Proof. intros (?&?&?) (?&?&?). repeat split; congruence. Qed.

Lemma same_trackers_on_table j f o : same_trackers o (on_table j f o).
Proof. apply on_table_trackers. Qed.

Definition same_tables (o o' : output_pgsql_t) : Prop :=
  forall i, m_tables i o' = m_tables i o.

Lemma same_tables_extend P o o' : same_tables o o' -> all_extend P o o'.
Proof. intros H i. rewrite H. apply extends_refl. Qed.

(** ** Rows streamed and rows held *)

Lemma copied_rows_app t1 t2 :
  copied_rows (t1 ++ t2) = copied_rows t1 ++ copied_rows t2.
Proof. apply flat_map_app. Qed.

Lemma table_rows_snoc t c : table_rows (t ++ [c]) = apply_cmd (table_rows t) c.
Proof. unfold table_rows. by rewrite fold_left_app. Qed.

(** The rows with a given id. *)
Definition rows_with (id : osmid_t) (rows : list row) : list row :=
  List.filter (fun r => osm_id r =? id) rows.

Definition not_about (id : osmid_t) (c : table_cmd) : Prop :=
  match c with
  | CopyRow r => osm_id r <> id
  | EndCopy => True
  | DeleteWhere y => y <> id
  end.

Lemma filter_filter_comm {A} (f g : A -> bool) l :
  List.filter f (List.filter g l) = List.filter g (List.filter f l).
Proof.
  induction l as [|x l IH]; [done|]. simpl.
  destruct (f x) eqn:Hf, (g x) eqn:Hg; simpl; rewrite ?Hf, ?Hg, IH; done.
Qed.

Lemma apply_cmd_not_about id rows c :
  not_about id c ->
  rows_with id (apply_cmd rows c) = rows_with id rows.
Proof.
  unfold rows_with. destruct c as [r| |y]; simpl; intros H; [|done|].
  - rewrite List.filter_app. simpl.
    destruct (osm_id r =? id) eqn:Hr; [lia|]. by rewrite app_nil_r.
  - rewrite filter_filter_comm.
    induction rows as [|r rows IH]; [done|]. simpl.
    destruct (osm_id r =? id) eqn:Hr; simpl; [|done].
    destruct (osm_id r =? y) eqn:Hy; [lia|]. simpl. by rewrite IH.
Qed.

(** Commands about other ids leave the rows with [id] as they are, in the
    table and in the COPY stream. *)
Lemma extends_not_about id t t' :
  extends (not_about id) t t' ->
  rows_with id (table_rows t') = rows_with id (table_rows t) /\
  rows_with id (copied_rows t') = rows_with id (copied_rows t).
Proof.
  intros (cmds & -> & H). revert t.
  induction H as [|c cmds Hc _ IH]; intros t; [by rewrite app_nil_r|].
  replace (t ++ c :: cmds) with ((t ++ [c]) ++ cmds) by by rewrite <- app_assoc.
  destruct (IH (t ++ [c])) as [-> ->]. split.
  - rewrite table_rows_snoc. by apply apply_cmd_not_about.
  - rewrite copied_rows_app. unfold rows_with. rewrite List.filter_app.
    destruct c as [r| |y]; simpl in *; rewrite ?app_nil_r; try done.
    destruct (osm_id r =? id) eqn:Hr; [lia|]. by rewrite app_nil_r.
Qed.

(** What a command is about: the id of the row it streams, or the id it
    deletes. *)
Definition about (C D : osmid_t -> Prop) (c : table_cmd) : Prop :=
  match c with
  | CopyRow r => C (osm_id r)
  | EndCopy => True
  | DeleteWhere y => D y
  end.

(** The WKTs of a build that go to the polygon table, and those that go to
    the line table. *)
Definition poly_wkts (wkts : list (string * double)) : list string :=
  List.filter is_polygon_wkt (List.filter nonempty (map fst wkts)).

Definition line_wkts (wkts : list (string * double)) : list string :=
  List.filter (fun w => negb (is_polygon_wkt w))
    (List.filter nonempty (map fst wkts)).

(** From [o] to [o'], rows with id [id] were streamed: [pw] to the polygon
    table, [lw] to the line table and, when [roads] is set, to the roads
    table as well; nothing else changed. *)
Definition emitted (id : osmid_t) (roads : bool) (pw lw : list string)
    (o o' : output_pgsql_t) : Prop :=
  exists new_poly new_line,
    m_tables t_poly o' = m_tables t_poly o ++ map CopyRow new_poly /\
    m_tables t_line o' = m_tables t_line o ++ map CopyRow new_line /\
    m_tables t_roads o' =
      m_tables t_roads o ++ map CopyRow (if roads then new_line else []) /\
    m_tables t_point o' = m_tables t_point o /\
    same_trackers o o' /\
    map way new_poly = map Wkt pw /\
    map way new_line = map Wkt lw /\
    Forall (fun r => osm_id r = id) new_poly /\
    Forall (fun r => osm_id r = id) new_line.

Lemma emitted_refl id roads o : emitted id roads [] [] o o.
Proof.
  exists [], []. simpl. rewrite !app_nil_r. destruct roads; simpl;
    rewrite ?app_nil_r; split_and!; done.
Qed.

Lemma emitted_trans id roads pw1 lw1 pw2 lw2 o1 o2 o3 :
  emitted id roads pw1 lw1 o1 o2 -> emitted id roads pw2 lw2 o2 o3 ->
  emitted id roads (pw1 ++ pw2) (lw1 ++ lw2) o1 o3.
Proof.
  intros (p1 & l1 & Hp1 & Hl1 & Hr1 & Ht1 & Hs1 & Hwp1 & Hwl1 & Hip1 & Hil1)
         (p2 & l2 & Hp2 & Hl2 & Hr2 & Ht2 & Hs2 & Hwp2 & Hwl2 & Hip2 & Hil2).
  exists (p1 ++ p2), (l1 ++ l2).
  rewrite Hp2, Hp1, Hl2, Hl1, Hr2, Hr1, Ht2, Ht1, !map_app, <- !app_assoc.
  rewrite Hwp1, Hwp2, Hwl1, Hwl2.
  split_and!; try done.
  - destruct roads; [by rewrite map_app|done].
  - by eapply same_trackers_trans.
  - by apply Forall_app.
  - by apply Forall_app.
Qed.

Lemma poly_wkts_cons g wkts : poly_wkts (g :: wkts) = poly_wkts [g] ++ poly_wkts wkts.
Proof. unfold poly_wkts. by rewrite <- !List.filter_app. Qed.

Lemma line_wkts_cons g wkts : line_wkts (g :: wkts) = line_wkts [g] ++ line_wkts wkts.
Proof. unfold line_wkts. by rewrite <- !List.filter_app. Qed.

(** From [o] to [o'], the COPY streams of the four tables grew by rows with
    id [id]: the WKTs [pw] went to the polygon table, the WKTs [lw] to the
    line table and, exactly when [roads] is set, to the roads table as well;
    nothing went to the point table. *)
Definition streamed (id : osmid_t) (roads : bool) (pw lw : list string)
    (o o' : output_pgsql_t) : Prop :=
  exists new_poly new_line,
    copied_rows (m_tables t_poly o') = copied_rows (m_tables t_poly o) ++ new_poly /\
    copied_rows (m_tables t_line o') = copied_rows (m_tables t_line o) ++ new_line /\
    copied_rows (m_tables t_roads o') =
      copied_rows (m_tables t_roads o) ++ (if roads then new_line else []) /\
    copied_rows (m_tables t_point o') = copied_rows (m_tables t_point o) /\
    map way new_poly = map Wkt pw /\
    map way new_line = map Wkt lw /\
    Forall (fun r => osm_id r = id) new_poly /\
    Forall (fun r => osm_id r = id) new_line.

Lemma copied_rows_CopyRow t rows :
  copied_rows (t ++ map CopyRow rows) = copied_rows t ++ rows.
Proof.
  rewrite copied_rows_app. f_equal. induction rows as [|r rows IH]; [done|].
  simpl. by rewrite IH.
Qed.

Lemma emitted_streamed id roads pw lw o o' :
  emitted id roads pw lw o o' -> streamed id roads pw lw o o'.
Proof.
  intros (p & l & Hp & Hl & Hr & Ht & _ & H). exists p, l.
  rewrite Hp, Hl, Hr, Ht, !copied_rows_CopyRow. done.
Qed.

Lemma emitted_extend id roads pw lw o o' :
  emitted id roads pw lw o o' ->
  all_extend (fun _ => about (fun y => y = id) (fun _ => False)) o o'.
Proof.
  intros (p & l & Hp & Hl & Hr & Ht & _ & _ & _ & Hip & Hil) i.
  assert (Hc : forall rows, Forall (fun r => osm_id r = id) rows ->
                 Forall (about (fun y => y = id) (fun _ => False)) (map CopyRow rows)).
  { intros rows H. induction H; simpl; by constructor. }
  destruct i; simpl in *.
  - rewrite Ht. apply extends_refl.
  - rewrite Hl. eexists. split; [done|]. by apply Hc.
  - rewrite Hp. eexists. split; [done|]. by apply Hc.
  - rewrite Hr. eexists. split; [done|]. apply Hc. by destruct roads.
Qed.

Lemma emitted_trackers id roads pw lw o o' :
  emitted id roads pw lw o o' -> same_trackers o o'.
Proof. by intros (p & l & _ & _ & _ & _ & H & _). Qed.

Lemma extends_no_copy D t t' :
  extends (about (fun _ => False) D) t t' -> copied_rows t' = copied_rows t.
Proof.
  intros (cmds & -> & H). rewrite copied_rows_app.
  assert (copied_rows cmds = []) as ->; [|by rewrite app_nil_r].
  induction H as [|c cmds Hc _ IH]; [done|].
  destruct c; simpl in *; done.
Qed.

(** Rows that enter a COPY stream carry an id that satisfies [C]. *)
Lemma extends_copied C D t t' r :
  extends (about C D) t t' ->
  In r (copied_rows t') -> In r (copied_rows t) \/ C (osm_id r).
Proof.
  intros (cmds & -> & H). rewrite copied_rows_app, in_app_iff.
  intros [?|Hin]; [by left|right].
  induction H as [|c cmds Hc _ IH]; [done|].
  destruct c; simpl in *; try by apply IH.
  destruct Hin as [<-|Hin]; [done|by apply IH].
Qed.

Lemma streamed_refl id roads o : streamed id roads [] [] o o.
Proof. apply emitted_streamed, emitted_refl. Qed.

Lemma streamed_trans id roads pw1 lw1 pw2 lw2 o1 o2 o3 :
  streamed id roads pw1 lw1 o1 o2 -> streamed id roads pw2 lw2 o2 o3 ->
  streamed id roads (pw1 ++ pw2) (lw1 ++ lw2) o1 o3.
Proof.
  intros (p1 & l1 & Hp1 & Hl1 & Hr1 & Ht1 & Hwp1 & Hwl1 & Hip1 & Hil1)
         (p2 & l2 & Hp2 & Hl2 & Hr2 & Ht2 & Hwp2 & Hwl2 & Hip2 & Hil2).
  exists (p1 ++ p2), (l1 ++ l2).
  rewrite Hp2, Hp1, Hl2, Hl1, Hr2, Hr1, Ht2, Ht1, !map_app, <- !app_assoc.
  rewrite Hwp1, Hwp2, Hwl1, Hwl2.
  split_and!; try done.
  - by destruct roads.
  - by apply Forall_app.
  - by apply Forall_app.
Qed.

(** Steps that stream nothing can be put before or after. *)
Lemma streamed_same_copied id roads pw lw o1 o2 o3 o4 :
  (forall i, copied_rows (m_tables i o2) = copied_rows (m_tables i o1)) ->
  (forall i, copied_rows (m_tables i o4) = copied_rows (m_tables i o3)) ->
  streamed id roads pw lw o2 o3 -> streamed id roads pw lw o1 o4.
Proof.
  intros H12 H34 (p & l & H). exists p, l.
  rewrite !H34, <- !H12. exact H.
Qed.

(** Without line rows the roads flag does not matter. *)
Lemma streamed_no_lines id roads roads' pw o o' :
  streamed id roads pw [] o o' -> streamed id roads' pw [] o o'.
Proof.
  intros (p & l & Hp & Hl & Hr & Ht & Hwp & Hwl & Hip & Hil).
  destruct l; [|done]. exists p, []. destruct roads, roads'; done.
Qed.

Lemma rows_with_filter id g rows :
  rows_with id (List.filter g rows) = List.filter g (rows_with id rows).
Proof. unfold rows_with. apply filter_filter_comm. Qed.

Lemma rows_with_delete_row id t :
  rows_with id (table_rows (delete_row id t)) = [].
Proof.
  unfold delete_row.
  replace (t ++ [EndCopy; DeleteWhere id])
    with ((t ++ [EndCopy]) ++ [DeleteWhere id]) by by rewrite <- app_assoc.
  rewrite !table_rows_snoc. simpl. unfold rows_with.
  induction (table_rows t) as [|r rows IH]; [done|]. simpl.
  destruct (osm_id r =? id) eqn:Hr; simpl; [done|]. by rewrite Hr.
Qed.

Lemma rows_with_pause id t :
  rows_with id (table_rows (pgsql_pause_copy t)) = rows_with id (table_rows t).
Proof. unfold pgsql_pause_copy. by rewrite table_rows_snoc. Qed.

(** A table without rows for [id] stays so while no row with that id is
    streamed. *)
Lemma extends_keep_empty id t t' :
  extends (about (fun y => y <> id) (fun _ => True)) t t' ->
  rows_with id (table_rows t) = [] -> rows_with id (table_rows t') = [].
Proof.
  intros (cmds & -> & H). revert t.
  induction H as [|c cmds Hc _ IH]; intros t Ht; [by rewrite app_nil_r|].
  replace (t ++ c :: cmds) with ((t ++ [c]) ++ cmds) by by rewrite <- app_assoc.
  apply IH. rewrite table_rows_snoc. destruct c as [r| |y]; simpl in *.
  - unfold rows_with in *. rewrite List.filter_app, Ht. simpl.
    destruct (osm_id r =? id) eqn:Hr; [lia|done].
  - done.
  - by rewrite rows_with_filter, Ht.
Qed.

(** Peel the last table update off the right-hand side of an [all_extend]
    goal. *)
Ltac ext_side :=
  first [ by apply extends_pause
        | by apply extends_delete
        | by apply extends_write ].

Ltac ext_step :=
  lazymatch goal with
  | |- all_extend _ ?o (if ?c then on_table ?j ?f ?x else ?x) =>
      apply (all_extend_trans _ o x);
      [|destruct c; [apply all_extend_on_table; ext_side|apply all_extend_refl]]
  | |- all_extend _ ?o (on_table ?j ?f ?x) =>
      apply (all_extend_trans _ o x); [|apply all_extend_on_table; ext_side]
  end.

Section Facts.

Variable E : output_env.

(** ** The geometry loops *)

Lemma out_way_geom_emitted id roads tags o g :
  emitted id roads (poly_wkts [g]) (line_wkts [g]) o
    (snd (out_way_geom E id roads (tags, o) g)).
Proof.
  destruct g as [wkt area]. unfold out_way_geom, poly_wkts, line_wkts. simpl.
  destruct (nonempty wkt); simpl; [|apply emitted_refl].
  destruct (is_polygon_wkt wkt); simpl.
  - exists [mk_row id (inject_way_area E area tags) (Wkt wkt)], []. simpl.
    rewrite ?app_nil_r. destruct roads; simpl; rewrite ?app_nil_r;
      split_and!; try done; try apply same_trackers_on_table;
      by repeat constructor.
  - exists [], [mk_row id tags (Wkt wkt)]. simpl.
    rewrite ?app_nil_r. destruct roads; simpl; rewrite ?app_nil_r;
      split_and!; try done; try apply same_trackers_on_table;
      by repeat constructor.
Qed.

Lemma out_way_geoms_emitted id roads wkts tags o :
  emitted id roads (poly_wkts wkts) (line_wkts wkts) o
    (snd (fold_left (out_way_geom E id roads) wkts (tags, o))).
Proof.
  revert tags o. induction wkts as [|g wkts IH]; intros tags o.
  - apply emitted_refl.
  - cbn [fold_left]. rewrite poly_wkts_cons, line_wkts_cons.
    pose proof (out_way_geom_emitted id roads tags o g) as H1.
    destruct (out_way_geom E id roads (tags, o) g) as [tags1 o1].
    eapply emitted_trans; [exact H1|apply IH].
Qed.

(** The first loop of [pgsql_out_relation] is the loop of [pgsql_out_way]
    run for the negated id. *)
Lemma out_rel_geom_eq id roads acc g :
  out_rel_geom E id roads acc g = out_way_geom E (- id) roads acc g.
Proof. done. Qed.

Lemma out_rel_geoms_eq id roads wkts acc :
  fold_left (out_rel_geom E id roads) wkts acc =
  fold_left (out_way_geom E (- id) roads) wkts acc.
Proof.
  revert acc. induction wkts as [|g wkts IH]; intros acc; [done|].
  simpl. rewrite IH. done.
Qed.

(** The boundary loop streams the polygons only. *)
Lemma out_boundary_geom_emitted id tags o g :
  emitted (- id) false (poly_wkts [g]) [] o
    (snd (out_boundary_geom E id (tags, o) g)).
Proof.
  destruct g as [wkt area]. unfold out_boundary_geom, poly_wkts. simpl.
  destruct (nonempty wkt); simpl; [|apply emitted_refl].
  destruct (is_polygon_wkt wkt); simpl; [|apply emitted_refl].
  exists [mk_row (- id) (inject_way_area E area tags) (Wkt wkt)], []. simpl.
  rewrite ?app_nil_r. split_and!; try done; by repeat constructor.
Qed.

Lemma out_boundary_geoms_emitted id wkts tags o :
  emitted (- id) false (poly_wkts wkts) [] o
    (snd (fold_left (out_boundary_geom E id) wkts (tags, o))).
Proof.
  revert tags o. induction wkts as [|g wkts IH]; intros tags o.
  - apply emitted_refl.
  - cbn [fold_left]. rewrite poly_wkts_cons.
    pose proof (out_boundary_geom_emitted id tags o g) as H1.
    destruct (out_boundary_geom E id (tags, o) g) as [tags1 o1].
    change (@nil string) with (@nil string ++ []).
    eapply emitted_trans; [exact H1|apply IH].
Qed.

(** ** Deleting a way or a relation from the output *)

Lemma delete_way_noop osm_id o :
  slim (m_options E) = false \/ droptemp (m_options E) = true ->
  pgsql_delete_way_from_output E osm_id o = o.
Proof.
  unfold pgsql_delete_way_from_output.
  intros [->| ->]; [done|]. by destruct (slim (m_options E)).
Qed.

Lemma delete_way_extend osm_id o :
  all_extend (fun _ => about (fun _ => False) (fun y => y = osm_id)) o
    (pgsql_delete_way_from_output E osm_id o).
Proof.
  unfold pgsql_delete_way_from_output.
  destruct (negb _); [apply all_extend_refl|].
  destruct (droptemp _); [apply all_extend_refl|].
  cbv zeta. repeat ext_step. apply all_extend_refl.
Qed.

Lemma delete_way_trackers osm_id o :
  same_trackers o (pgsql_delete_way_from_output E osm_id o).
Proof.
  unfold pgsql_delete_way_from_output.
  destruct (negb _); [done|]. destruct (droptemp _); [done|].
  repeat match goal with
         | |- context [if ?c then _ else _] => destruct c
         end; by destruct o.
Qed.

Lemma delete_way_point osm_id o :
  m_tables t_point (pgsql_delete_way_from_output E osm_id o) = m_tables t_point o.
Proof.
  unfold pgsql_delete_way_from_output.
  destruct (negb _); [done|]. destruct (droptemp _); [done|].
  repeat match goal with
         | |- context [if ?c then _ else _] => destruct c
         end; by destruct o.
Qed.

Lemma delete_relation_extend osm_id o :
  all_extend (fun _ => about (fun _ => False) (fun y => y = - osm_id)) o
    (pgsql_delete_relation_from_output E osm_id o).
Proof.
  unfold pgsql_delete_relation_from_output.
  cbv zeta. repeat ext_step. apply all_extend_refl.
Qed.

Lemma delete_relation_trackers osm_id o :
  same_trackers o (pgsql_delete_relation_from_output E osm_id o).
Proof.
  unfold pgsql_delete_relation_from_output.
  repeat match goal with
         | |- context [if ?c then _ else _] => destruct c
         end; by destruct o.
Qed.

Lemma delete_relation_point osm_id o :
  m_tables t_point (pgsql_delete_relation_from_output E osm_id o)
  = m_tables t_point o.
Proof.
  unfold pgsql_delete_relation_from_output.
  repeat match goal with
         | |- context [if ?c then _ else _] => destruct c
         end; by destruct o.
Qed.

(** ** pgsql_out_way *)

(** The geometries [pgsql_out_way] gets from the builder (none when the tag
    filter drops the way), and its roads verdict. *)
Definition way_wkts (tags : keyval) (nodes : list osmNode)
  : list (string * double) :=
  let '(filter, polygon, _) :=
    filter_way_tags (m_tagtransform E) tags (m_export_list E) in
  if filter then []
  else get_wkt_split (builder E) nodes polygon (split_at E).

Definition way_roads (tags : keyval) : bool :=
  snd (filter_way_tags (m_tagtransform E) tags (m_export_list E)).

Lemma mark_rels_tables rels o :
  let o' := fold_left
              (fun o r => set_rels_pending (mark r (rels_pending_tracker o)) o)
              rels o in
  same_tables o o' /\
  ways_pending_tracker o' = ways_pending_tracker o /\
  ways_done_tracker o' = ways_done_tracker o.
Proof.
  revert o. induction rels as [|r rels IH]; intros o; simpl; [done|].
  destruct (IH (set_rels_pending (mark r (rels_pending_tracker o)) o))
    as (H1 & H2 & H3).
  split_and!; [|by rewrite H2|by rewrite H3].
  intros i. rewrite H1. by destruct i.
Qed.

(** What [pgsql_out_way] does before the tag filter, when the way may
    exist already. *)
Definition way_prelude (id : osmid_t) (exists_ : bool) (o : output_pgsql_t)
  : output_pgsql_t :=
  if exists_ then
    fold_left (fun o r => set_rels_pending (mark r (rels_pending_tracker o)) o)
      (relations_using_way (m_mid E) id) (pgsql_delete_way_from_output E id o)
  else o.

Lemma way_prelude_extend id exists_ o :
  all_extend (fun _ => about (fun _ => False) (fun y => y = id)) o
    (way_prelude id exists_ o).
Proof.
  unfold way_prelude. destruct exists_; [|apply all_extend_refl].
  eapply all_extend_trans; [apply delete_way_extend|].
  apply same_tables_extend, mark_rels_tables.
Qed.

Lemma way_prelude_trackers id exists_ o :
  ways_pending_tracker (way_prelude id exists_ o) = ways_pending_tracker o /\
  ways_done_tracker (way_prelude id exists_ o) = ways_done_tracker o.
Proof.
  unfold way_prelude. destruct exists_; [|done].
  destruct (mark_rels_tables (relations_using_way (m_mid E) id)
              (pgsql_delete_way_from_output E id o)) as (_ & -> & ->).
  destruct (delete_way_trackers id o) as (-> & -> & _). done.
Qed.

Lemma pgsql_out_way_emitted id tags nodes exists_ o :
  emitted id (way_roads tags) (poly_wkts (way_wkts tags nodes))
    (line_wkts (way_wkts tags nodes))
    (way_prelude id exists_ o) (pgsql_out_way E id tags nodes exists_ o).
Proof.
  unfold pgsql_out_way, way_wkts, way_roads. fold (way_prelude id exists_ o).
  destruct (filter_way_tags _ tags _) as [[filter polygon] roads]. simpl.
  destruct filter; [apply emitted_refl|].
  apply out_way_geoms_emitted.
Qed.

Lemma pgsql_out_way_streamed id tags nodes exists_ o :
  streamed id (way_roads tags) (poly_wkts (way_wkts tags nodes))
    (line_wkts (way_wkts tags nodes)) o (pgsql_out_way E id tags nodes exists_ o).
Proof.
  eapply streamed_same_copied;
    [|done|apply emitted_streamed, pgsql_out_way_emitted].
  intros i. eapply extends_no_copy, way_prelude_extend.
Qed.

Lemma pgsql_out_way_extend id tags nodes exists_ o :
  all_extend (fun _ => about (fun y => y = id) (fun y => y = id)) o
    (pgsql_out_way E id tags nodes exists_ o).
Proof.
  eapply all_extend_trans.
  - eapply all_extend_weaken; [|apply (way_prelude_extend id exists_)].
    intros _ []; simpl; done.
  - eapply all_extend_weaken;
      [|eapply emitted_extend, pgsql_out_way_emitted].
    intros _ []; simpl; done.
Qed.

Lemma pgsql_out_way_trackers id tags nodes exists_ o :
  ways_pending_tracker (pgsql_out_way E id tags nodes exists_ o)
    = ways_pending_tracker o /\
  ways_done_tracker (pgsql_out_way E id tags nodes exists_ o)
    = ways_done_tracker o.
Proof.
  destruct (emitted_trackers _ _ _ _ _ _
              (pgsql_out_way_emitted id tags nodes exists_ o)) as (-> & -> & _).
  apply way_prelude_trackers.
Qed.

(** ** The supersession loop *)

(** The ids the loop marks: those of the flagged ways before the first way
    without nodes. *)
Fixpoint marked_ids (ways : list (osmid_t * list osmNode)) (sup : list bool)
  : list osmid_t :=
  match ways with
  | [] => []
  | (xid, xnodes) :: rest =>
      match xnodes with
      | [] => []
      | _ => (if hd false sup then [xid] else []) ++ marked_ids rest (tl sup)
      end
  end.

(** The ids of the flagged ways. *)
Fixpoint flagged_ids (xid : list osmid_t) (sup : list bool) : list osmid_t :=
  match xid with
  | [] => []
  | x :: rest => (if hd false sup then [x] else []) ++ flagged_ids rest (tl sup)
  end.

Lemma marked_ids_flagged ways sup :
  Forall (fun w => snd w <> []) ways ->
  marked_ids ways sup = flagged_ids (map fst ways) sup.
Proof.
  intros H. revert sup. induction H as [|[xid xnodes] ways Hw _ IH]; intros sup;
    [done|].
  simpl in *. destruct xnodes; [done|]. by rewrite IH.
Qed.

Lemma mark_one_spec (flag : bool) xid o :
  let o1 := if flag
            then pgsql_delete_way_from_output E xid
                   (set_ways_done (mark xid (ways_done_tracker o)) o)
            else o in
  ways_done_tracker o1 =
    list_to_set (if flag then [xid] else []) ∪ ways_done_tracker o /\
  ways_pending_tracker o1 = ways_pending_tracker o /\
  rels_pending_tracker o1 = rels_pending_tracker o /\
  m_tables t_point o1 = m_tables t_point o /\
  all_extend (fun _ => about (fun _ => False)
                (fun y => In y (if flag then [xid] else []))) o o1.
Proof.
  destruct flag; cbv zeta.
  - destruct (delete_way_trackers xid
                (set_ways_done (mark xid (ways_done_tracker o)) o))
      as (-> & -> & ->).
    rewrite delete_way_point. split_and!; try done.
    + unfold mark. simpl. set_solver.
    + apply (all_extend_trans _ _
               (set_ways_done (mark xid (ways_done_tracker o)) o));
        [apply same_tables_extend; by intros []|].
      eapply all_extend_weaken; [|apply delete_way_extend].
      intros _ []; simpl; auto.
  - split_and!; try done; [set_solver|apply all_extend_refl].
Qed.

Lemma mark_superseeded_spec ways sup o :
  let o' := mark_superseeded E ways sup o in
  ways_done_tracker o' = list_to_set (marked_ids ways sup) ∪ ways_done_tracker o /\
  ways_pending_tracker o' = ways_pending_tracker o /\
  rels_pending_tracker o' = rels_pending_tracker o /\
  m_tables t_point o' = m_tables t_point o /\
  all_extend (fun _ => about (fun _ => False) (fun y => In y (marked_ids ways sup)))
    o o'.
Proof.
  revert sup o. induction ways as [|[xid xnodes] ways IH]; intros sup o.
  - simpl. split_and!; try done; [set_solver|apply all_extend_refl].
  - cbn [mark_superseeded marked_ids].
    destruct xnodes as [|n xnodes].
    + simpl. split_and!; try done; [set_solver|apply all_extend_refl].
    + destruct (Z.eqb_spec (Z.of_nat (length (n :: xnodes))) 0) as [Hz|_];
        [simpl in Hz; lia|].
      pose proof (mark_one_spec (hd false sup) xid o) as H1. cbv zeta in H1.
      set (o1 := if hd false sup then _ else o) in *.
      destruct H1 as (Hd1 & Hp1 & Hr1 & Ht1 & He1).
      destruct (IH (tl sup) o1) as (Hd & Hp & Hr & Ht & He).
      cbv zeta. rewrite Hd, Hd1, Hp, Hp1, Hr, Hr1, Ht, Ht1.
      split_and!; try done.
      * rewrite list_to_set_app_L. set_solver.
      * eapply all_extend_trans.
        -- eapply all_extend_weaken; [|exact He1].
           intros _ [r| |y]; simpl; try done. intros Hy. apply in_app_iff. by left.
        -- eapply all_extend_weaken; [|exact He].
           intros _ [r| |y]; simpl; try done. intros Hy. apply in_app_iff. by right.
Qed.

(** In the modes where [pgsql_delete_way_from_output] does nothing the loop
    only marks. *)
Lemma mark_superseeded_tables ways sup o :
  slim (m_options E) = false \/ droptemp (m_options E) = true ->
  same_tables o (mark_superseeded E ways sup o).
Proof.
  intros Hm. revert sup o. induction ways as [|[xid xnodes] ways IH];
    intros sup o; [done|].
  cbn [mark_superseeded]. destruct (_ =? 0); [done|].
  intros i. rewrite IH. destruct (hd false sup); [|done].
  rewrite delete_way_noop by done. by destruct i.
Qed.

(** ** pgsql_out_relation *)

Lemma all_extend_no_copy D o o' :
  all_extend (fun _ => about (fun _ => False) D) o o' ->
  forall i, copied_rows (m_tables i o') = copied_rows (m_tables i o).
Proof. intros H i. eapply extends_no_copy, H. Qed.

(** The verdict of the member filter, the two builds, and the ids the
    supersession loop marks, as [pgsql_out_relation] comes to them. *)
Definition rel_verdict (rel_tags : keyval)
    (ways : list (osmid_t * keyval * list osmNode))
    (xrole : list (option string)) : rel_member_verdict :=
  filter_rel_member_tags (m_tagtransform E) rel_tags
    (map (fun w => snd (fst w)) ways) xrole (m_export_list E).

Definition rel_first_build (id : osmid_t) (rel_tags : keyval)
    (ways : list (osmid_t * keyval * list osmNode))
    (xrole : list (option string)) : list (string * double) :=
  match ways with
  | [] => []
  | _ =>
      if v_drop (rel_verdict rel_tags ways xrole) then []
      else build (builder E) id (map snd ways)
             (v_make_polygon (rel_verdict rel_tags ways xrole))
             (enable_multi (m_options E)) (split_at E)
  end.

Definition rel_second_build (id : osmid_t) (rel_tags : keyval)
    (ways : list (osmid_t * keyval * list osmNode))
    (xrole : list (option string)) : list (string * double) :=
  match rel_first_build id rel_tags ways xrole with
  | [] => []
  | _ =>
      if v_make_boundary (rel_verdict rel_tags ways xrole)
      then build (builder E) id (map snd ways) true
             (enable_multi (m_options E)) (split_at E)
      else []
  end.

Definition rel_marks (id : osmid_t) (rel_tags : keyval)
    (ways : list (osmid_t * keyval * list osmNode))
    (xrole : list (option string)) : list osmid_t :=
  match rel_first_build id rel_tags ways xrole with
  | [] => []
  | _ =>
      if v_make_polygon (rel_verdict rel_tags ways xrole)
      then marked_ids (map (fun w => (fst (fst w), snd w)) ways)
             (v_superseeded (rel_verdict rel_tags ways xrole))
      else []
  end.

Lemma pgsql_out_relation_spec id rel_tags ways xrole o :
  let o' := pgsql_out_relation E id rel_tags ways xrole o in
  let w1 := rel_first_build id rel_tags ways xrole in
  let w2 := rel_second_build id rel_tags ways xrole in
  let marks := rel_marks id rel_tags ways xrole in
  streamed (- id) (v_roads (rel_verdict rel_tags ways xrole))
    (poly_wkts w1 ++ poly_wkts w2) (line_wkts w1) o o' /\
  all_extend (fun _ => about (fun y => y = - id) (fun y => In y marks)) o o' /\
  ways_done_tracker o' = list_to_set marks ∪ ways_done_tracker o /\
  ways_pending_tracker o' = ways_pending_tracker o /\
  rels_pending_tracker o' = rels_pending_tracker o.
Proof.
  assert (Htriv : streamed (- id) (v_roads (rel_verdict rel_tags ways xrole))
                    [] [] o o /\
                  all_extend (fun _ => about (fun y => y = - id)
                                         (fun y => In y [])) o o /\
                  ways_done_tracker o = list_to_set [] ∪ ways_done_tracker o /\
                  ways_pending_tracker o = ways_pending_tracker o /\
                  rels_pending_tracker o = rels_pending_tracker o).
  { split_and!; try done;
      [apply streamed_refl|apply all_extend_refl|set_solver]. }
  unfold pgsql_out_relation, rel_marks, rel_second_build, rel_first_build.
  fold (rel_verdict rel_tags ways xrole).
  set (v := rel_verdict rel_tags ways xrole) in *.
  destruct ways as [|w ways]; [exact Htriv|].
  set (ws := w :: ways) in *.
  destruct (v_drop v); [exact Htriv|].
  destruct (build (builder E) id (map snd ws) (v_make_polygon v) _ _)
    as [|g wkts] eqn:Hb; [exact Htriv|].
  cbv zeta. clear Htriv. rewrite out_rel_geoms_eq.
  pose proof (out_way_geoms_emitted (- id) (v_roads v) (g :: wkts) rel_tags o)
    as Hem.
  destruct (fold_left (out_way_geom E (- id) (v_roads v)) (g :: wkts) (rel_tags, o))
    as [tags1 o1]. cbn [snd] in Hem.
  set (marks := if v_make_polygon v
                then marked_ids (map (fun w => (fst (fst w), snd w)) ws)
                       (v_superseeded v)
                else []).
  set (o2 := if v_make_polygon v then mark_superseeded E _ _ o1 else o1).
  assert (H2 : ways_done_tracker o2 = list_to_set marks ∪ ways_done_tracker o1 /\
               ways_pending_tracker o2 = ways_pending_tracker o1 /\
               rels_pending_tracker o2 = rels_pending_tracker o1 /\
               all_extend (fun _ => about (fun _ => False) (fun y => In y marks))
                 o1 o2).
  { subst o2 marks. destruct (v_make_polygon v).
    - pose proof (mark_superseeded_spec
                    (map (fun w => (fst (fst w), snd w)) ws) (v_superseeded v) o1)
        as (Hd & Hp & Hr & _ & He). done.
    - split_and!; try done; [set_solver|apply all_extend_refl]. }
  destruct H2 as (Hd2 & Hp2 & Hr2 & He2).
  destruct (emitted_trackers _ _ _ _ _ _ Hem) as (Hp1 & Hd1 & Hr1).
  set (w2 := if v_make_boundary v
             then build (builder E) id (map snd ws) true _ _ else []).
  set (o3 := if v_make_boundary v then _ else o2).
  assert (H3 : emitted (- id) false (poly_wkts w2) [] o2 o3).
  { subst o3 w2. destruct (v_make_boundary v);
      [apply out_boundary_geoms_emitted|apply emitted_refl]. }
  destruct (emitted_trackers _ _ _ _ _ _ H3) as (Hp3 & Hd3 & Hr3).
  split_and!.
  - rewrite <- (app_nil_r (line_wkts (g :: wkts))).
    eapply streamed_trans.
    + apply emitted_streamed, Hem.
    + eapply streamed_no_lines, streamed_same_copied;
        [apply (all_extend_no_copy _ _ _ He2)|done|].
      apply emitted_streamed, H3.
  - eapply all_extend_trans; [|eapply all_extend_trans].
    + eapply all_extend_weaken; [|apply (emitted_extend _ _ _ _ _ _ Hem)].
      intros _ []; simpl; done.
    + eapply all_extend_weaken; [|exact He2]. intros _ []; simpl; done.
    + eapply all_extend_weaken; [|apply (emitted_extend _ _ _ _ _ _ H3)].
      intros _ []; simpl; done.
  - by rewrite Hd3, Hd2, Hd1.
  - by rewrite Hp3, Hp2, Hp1.
  - by rewrite Hr3, Hr2, Hr1.
Qed.

(** ** pgsql_process_relation and pgsql_out_node *)

Lemma pgsql_process_relation_extend id members tags exists_ o :
  all_extend (fun _ => about (fun y => y = - id) (fun _ => True)) o
    (snd (pgsql_process_relation E id members tags exists_ o)).
Proof.
  unfold pgsql_process_relation.
  set (o0 := if exists_ then pgsql_delete_relation_from_output E id o else o).
  assert (H0 : all_extend (fun _ => about (fun y => y = - id) (fun _ => True)) o o0).
  { subst o0. destruct exists_; [|apply all_extend_refl].
    eapply all_extend_weaken; [|apply delete_relation_extend].
    intros _ []; simpl; done. }
  destruct (filter_rel_tags _ _ _); simpl; [done|].
  eapply all_extend_trans; [exact H0|].
  eapply all_extend_weaken; [|apply pgsql_out_relation_spec].
  intros _ []; simpl; done.
Qed.

Lemma pgsql_process_relation_trackers id members tags exists_ o :
  ways_pending_tracker (snd (pgsql_process_relation E id members tags exists_ o))
    = ways_pending_tracker o /\
  rels_pending_tracker (snd (pgsql_process_relation E id members tags exists_ o))
    = rels_pending_tracker o.
Proof.
  unfold pgsql_process_relation.
  set (o0 := if exists_ then pgsql_delete_relation_from_output E id o else o).
  assert (H0 : same_trackers o o0).
  { subst o0. destruct exists_; [apply delete_relation_trackers|done]. }
  destruct H0 as (Hp & _ & Hr).
  destruct (filter_rel_tags _ _ _); simpl; [done|].
  pose proof (pgsql_out_relation_spec id tags (ways_get_list (m_mid E)
     (map m_id (List.filter (fun m => match m_type m with
                                      | OSMTYPE_WAY => true | _ => false end)
                            members)))) as H.
  cbv zeta in H.
  match goal with
  | |- context [pgsql_out_relation E id tags ?w ?x o0] =>
      destruct (H x o0) as (_ & _ & _ & -> & ->)
  end. done.
Qed.

Lemma pgsql_out_node_extend id tags node_lat node_lon o :
  all_extend (fun i => about (fun y => y = id /\ i = t_point) (fun _ => False)) o
    (snd (pgsql_out_node E id tags node_lat node_lon o)).
Proof.
  unfold pgsql_out_node. destruct (filter_node_tags _ _ _); cbn [snd].
  - apply all_extend_refl.
  - apply all_extend_on_table. eexists. split; [done|]. by repeat constructor.
Qed.

(** Rows that enter the COPY stream of some table from [o] to [o'] carry an
    id that satisfies [P]. *)
Definition new_rows (P : osmid_t -> Prop) (o o' : output_pgsql_t) : Prop :=
  forall i r, In r (copied_rows (m_tables i o')) ->
              In r (copied_rows (m_tables i o)) \/ P (osm_id r).

Lemma all_extend_new_rows (C D : osmid_t -> Prop) o o' :
  all_extend (fun _ => about C D) o o' -> new_rows C o o'.
Proof. intros H i r. eapply extends_copied, H. Qed.

(** ** Classification, sign of the row key, deferral of polygon ways *)

(** [strncmp(wkt, p, strlen(p)) == 0]: [wkt] begins with [p]. *)
Lemma prefix_begins (p w : string) :
  String.prefix p w = true <-> exists rest, w = (p ++ rest)%string.
Proof.
  revert w. induction p as [|a p IH]; intros w.
  - simpl. split; [intros _; by exists w|by destruct w].
  - destruct w as [|c w]; simpl.
    + split; [done|]. by intros (rest & H).
    + destruct (ascii_dec a c) as [->|Hne].
      * rewrite IH. split; intros (rest & H); exists rest.
        -- by rewrite H.
        -- cbn [String.append] in H. by injection H.
      * split; [done|]. intros (rest & H). cbn [String.append] in H.
        injection H as H1 _. done.
Qed.

(** A WKT that begins with POLYGON or with MULTIPOLYGON. *)
Definition begins_with_polygon (w : string) : Prop :=
  exists rest, w = ("POLYGON" ++ rest)%string
               \/ w = ("MULTIPOLYGON" ++ rest)%string.

Lemma is_polygon_wkt_begins (w : string) :
  is_polygon_wkt w = true <-> begins_with_polygon w.
Proof.
  unfold is_polygon_wkt, begins_with_polygon.
  rewrite orb_true_iff, !prefix_begins.
  split.
  - intros [(rest & H)|(rest & H)]; exists rest; auto.
  - intros (rest & [H|H]); [left|right]; by exists rest.
Qed.

Lemma nonempty_spec (w : string) : nonempty w = true <-> w <> EmptyString.
Proof. by destruct w. Qed.

Lemma poly_wkts_spec (wkts : list (string * double)) (w : string) :
  In w (poly_wkts wkts) <->
  In w (map fst wkts) /\ w <> EmptyString /\ begins_with_polygon w.
Proof.
  unfold poly_wkts. rewrite !filter_In, is_polygon_wkt_begins, nonempty_spec.
  tauto.
Qed.

Lemma line_wkts_spec (wkts : list (string * double)) (w : string) :
  In w (line_wkts wkts) <->
  In w (map fst wkts) /\ w <> EmptyString /\ ~ begins_with_polygon w.
Proof.
  unfold line_wkts. rewrite !filter_In, nonempty_spec, negb_true_iff.
  rewrite <- is_polygon_wkt_begins.
  destruct (is_polygon_wkt w); intuition congruence.
Qed.

(** C4: the rows [pgsql_out_way] and [pgsql_out_relation] stream are chosen
    by the WKT prefix of each built geometry, whatever polygon flag the
    build was given: the non-empty WKTs that begin with POLYGON or
    MULTIPOLYGON go to the polygon table (for a relation also those of the
    boundary build), the other non-empty WKTs of the build go to the line
    table, and to the roads table as well exactly when the roads flag is
    set; no row goes anywhere else.  The test is on the text of the WKT:
    [is_polygon_wkt] holds exactly of the strings that begin with POLYGON
    or MULTIPOLYGON. *)
Theorem table_follows_wkt_prefix :
  (forall id tags nodes exists_ o,
     streamed id (way_roads tags)
       (poly_wkts (way_wkts tags nodes)) (line_wkts (way_wkts tags nodes))
       o (pgsql_out_way E id tags nodes exists_ o)) /\
  (forall id rel_tags ways xrole o,
     streamed (- id) (v_roads (rel_verdict rel_tags ways xrole))
       (poly_wkts (rel_first_build id rel_tags ways xrole)
        ++ poly_wkts (rel_second_build id rel_tags ways xrole))
       (line_wkts (rel_first_build id rel_tags ways xrole))
       o (pgsql_out_relation E id rel_tags ways xrole o)) /\
  (forall wkts w, In w (poly_wkts wkts) -> is_polygon_wkt w = true) /\
  (forall wkts w, In w (line_wkts wkts) -> is_polygon_wkt w = false) /\
  (forall w,
     is_polygon_wkt w = true <->
     exists rest, w = ("POLYGON" ++ rest)%string
                  \/ w = ("MULTIPOLYGON" ++ rest)%string) /\
  (forall wkts w,
     In w (poly_wkts wkts) <->
     In w (map fst wkts) /\ w <> EmptyString /\
     exists rest, w = ("POLYGON" ++ rest)%string
                  \/ w = ("MULTIPOLYGON" ++ rest)%string) /\
  (forall wkts w,
     In w (line_wkts wkts) <->
     In w (map fst wkts) /\ w <> EmptyString /\
     ~ exists rest, w = ("POLYGON" ++ rest)%string
                    \/ w = ("MULTIPOLYGON" ++ rest)%string).
Proof.
  split_and!.
  - apply pgsql_out_way_streamed.
  - intros. apply pgsql_out_relation_spec.
  - intros wkts w H. unfold poly_wkts in H. by apply filter_In in H as [_ H].
  - intros wkts w H. unfold line_wkts in H. apply filter_In in H as [_ H].
    by destruct (is_polygon_wkt w).
  - apply is_polygon_wkt_begins.
  - apply poly_wkts_spec.
  - apply line_wkts_spec.
Qed.

(** C5: every row streamed by relation processing has the negated relation
    id as osm_id, every row streamed by way or node processing has the id
    itself; so for positive ids relation rows have osm_id < 0 and way and
    node rows have osm_id > 0. *)
Theorem row_key_sign (id : osmid_t) :
  (forall members tags exists_ o,
     new_rows (fun k => k = - id) o
       (snd (pgsql_process_relation E id members tags exists_ o))) /\
  (forall tags nodes exists_ o,
     new_rows (fun k => k = id) o (pgsql_out_way E id tags nodes exists_ o)) /\
  (forall tags node_lat node_lon o,
     new_rows (fun k => k = id) o
       (snd (pgsql_out_node E id tags node_lat node_lon o))) /\
  (0 < id ->
   (forall members tags exists_ o,
      new_rows (fun k => k < 0) o
        (snd (pgsql_process_relation E id members tags exists_ o))) /\
   (forall tags nodes exists_ o,
      new_rows (fun k => 0 < k) o (pgsql_out_way E id tags nodes exists_ o)) /\
   (forall tags node_lat node_lon o,
      new_rows (fun k => 0 < k) o
        (snd (pgsql_out_node E id tags node_lat node_lon o)))).
Proof.
  assert (Hrel : forall members tags exists_ o,
            new_rows (fun k => k = - id) o
              (snd (pgsql_process_relation E id members tags exists_ o))).
  { intros. eapply all_extend_new_rows, pgsql_process_relation_extend. }
  assert (Hway : forall tags nodes exists_ o,
            new_rows (fun k => k = id) o (pgsql_out_way E id tags nodes exists_ o)).
  { intros. eapply all_extend_new_rows, pgsql_out_way_extend. }
  assert (Hnode : forall tags node_lat node_lon o,
            new_rows (fun k => k = id) o
              (snd (pgsql_out_node E id tags node_lat node_lon o))).
  { intros. intros i r Hr.
    destruct (extends_copied _ _ _ _ r
                (pgsql_out_node_extend id tags node_lat node_lon o i) Hr)
      as [?|[? _]]; auto. }
  split_and!; try done; intros Hpos; split_and!; intros.
  - intros i r Hr. destruct (Hrel _ _ _ _ i r Hr) as [?|?]; [by left|right; lia].
  - intros i r Hr. destruct (Hway _ _ _ _ i r Hr) as [?|?]; [by left|right; lia].
  - intros i r Hr. destruct (Hnode _ _ _ _ i r Hr) as [?|?]; [by left|right; lia].
Qed.

(** C6: [way_add] on a way the tag filter keeps with the polygon flag set
    marks the id in the pending-ways tracker and changes nothing else; on a
    way it keeps without the polygon flag it resolves the nodes through the
    middle, builds, and streams the rows of [pgsql_out_way] for a way that
    does not exist yet (line table, and roads table when flagged) and marks
    nothing; on a way the filter drops it changes nothing. *)
Theorem way_add_defers_polygons (id : osmid_t) (nds : list osmid_t)
    (tags : keyval) (o : output_pgsql_t) (filter polygon roads : bool) :
  filter_way_tags (m_tagtransform E) tags (m_export_list E)
    = (filter, polygon, roads) ->
  (filter = false -> polygon = true ->
     same_tables o (way_add E id nds tags o) /\
     ways_pending_tracker (way_add E id nds tags o)
       = {[ id ]} ∪ ways_pending_tracker o /\
     ways_done_tracker (way_add E id nds tags o) = ways_done_tracker o /\
     rels_pending_tracker (way_add E id nds tags o) = rels_pending_tracker o) /\
  (filter = false -> polygon = false ->
     let wkts := get_wkt_split (builder E) (nodes_get_list (m_mid E) nds) false
                   (split_at E) in
     way_add E id nds tags o
       = pgsql_out_way E id tags (nodes_get_list (m_mid E) nds) false o /\
     emitted id roads (poly_wkts wkts) (line_wkts wkts) o (way_add E id nds tags o) /\
     (Forall (fun g => is_polygon_wkt (fst g) = false) wkts ->
      m_tables t_poly (way_add E id nds tags o) = m_tables t_poly o)) /\
  (filter = true -> way_add E id nds tags o = o).
Proof.
  intros Hf. unfold way_add. rewrite Hf. split_and!.
  - intros -> ->. simpl. split_and!; done.
  - intros -> ->. cbv zeta. cbn [negb andb].
    pose proof (pgsql_out_way_emitted id tags (nodes_get_list (m_mid E) nds)
                  false o) as Hem.
    unfold way_wkts, way_roads, way_prelude in Hem. rewrite Hf in Hem.
    cbn [snd] in Hem. split_and!; [done|exact Hem|].
    intros Hnp. destruct Hem as (p & l & Hp & _ & _ & _ & _ & Hwp & _).
    assert (Hpw : poly_wkts (get_wkt_split (builder E)
                    (nodes_get_list (m_mid E) nds) false (split_at E)) = []).
    { clear -Hnp. unfold poly_wkts.
      induction Hnp as [|[w a] ws Hw _ IH]; [done|].
      simpl in *. destruct (nonempty w); simpl; [|done]. by rewrite Hw. }
    rewrite Hpw in Hwp. destruct p; [|done]. rewrite Hp. simpl.
    by rewrite app_nil_r.
  - intros ->. by destruct polygon.
Qed.

(** C10: when slim mode is off or droptemp mode is on,
    [pgsql_delete_way_from_output] returns the output as it got it (no COPY
    is paused, no row deleted); [way_delete] then either exits (slim off)
    or leaves the output as it is, and the supersession loop of relation
    processing leaves the four tables as they are and only adds its marks
    to the ways_done tracker. *)
Theorem delete_skipped_without_slim :
  slim (m_options E) = false \/ droptemp (m_options E) = true ->
  (forall osm_id o, pgsql_delete_way_from_output E osm_id o = o) /\
  (forall osm_id o,
     way_delete E osm_id o =
     if slim (m_options E) then Return [] o else Exit [CannotApplyDiffs]) /\
  (forall ways sup o,
     same_tables o (mark_superseeded E ways sup o) /\
     ways_done_tracker (mark_superseeded E ways sup o)
       = list_to_set (marked_ids ways sup) ∪ ways_done_tracker o /\
     ways_pending_tracker (mark_superseeded E ways sup o)
       = ways_pending_tracker o /\
     rels_pending_tracker (mark_superseeded E ways sup o)
       = rels_pending_tracker o).
Proof.
  intros Hm. split_and!.
  - intros. by apply delete_way_noop.
  - intros. unfold way_delete. rewrite delete_way_noop by done.
    by destruct (slim (m_options E)).
  - intros ways sup o.
    destruct (mark_superseeded_spec ways sup o) as (Hd & Hp & Hr & _).
    split_and!; try done. by apply mark_superseeded_tables.
Qed.

(** ** Supersession of member ways *)

(** The contract of the existence probe: [from_db] is nonzero for an id
    that has rows in the table. *)
Definition from_db_probes : Prop :=
  forall t y, rows_with y (table_rows t) <> [] -> from_db (expire E) t y <> 0.

(** The tables after [pgsql_delete_way_from_output] in slim mode. *)
Definition probe_delete (osm_id : osmid_t) (t : table_t) : table_t :=
  if negb (from_db (expire E) (pgsql_pause_copy t) osm_id =? 0)
  then delete_row osm_id (pgsql_pause_copy t)
  else pgsql_pause_copy t.

Lemma delete_way_tables osm_id o :
  slim (m_options E) = true -> droptemp (m_options E) = false ->
  m_tables t_roads (pgsql_delete_way_from_output E osm_id o)
    = delete_row osm_id (pgsql_pause_copy (tbl_roads o)) /\
  m_tables t_line (pgsql_delete_way_from_output E osm_id o)
    = probe_delete osm_id (tbl_line o) /\
  m_tables t_poly (pgsql_delete_way_from_output E osm_id o)
    = probe_delete osm_id (tbl_poly o).
Proof.
  intros Hs Hd. unfold pgsql_delete_way_from_output, probe_delete.
  rewrite Hs, Hd. cbv zeta. cbn [negb].
  destruct o as [tp tl tpo tr wp wd rp].
  cbn -[delete_row pgsql_pause_copy Z.eqb].
  destruct (negb (from_db _ (pgsql_pause_copy tl) _ =? 0));
    cbn -[delete_row pgsql_pause_copy Z.eqb];
    destruct (negb (from_db _ (pgsql_pause_copy tpo) _ =? 0));
    cbn -[delete_row pgsql_pause_copy Z.eqb]; done.
Qed.

Lemma delete_way_rows osm_id o i :
  slim (m_options E) = true -> droptemp (m_options E) = false ->
  from_db_probes -> i <> t_point ->
  rows_with osm_id
    (table_rows (m_tables i (pgsql_delete_way_from_output E osm_id o))) = [].
Proof.
  intros Hs Hd Hc Hi.
  destruct (delete_way_tables osm_id o Hs Hd) as (Hr & Hl & Hp).
  assert (Hpd : forall t,
            rows_with osm_id (table_rows (probe_delete osm_id t)) = []).
  { intros t. unfold probe_delete.
    destruct (Z.eqb_spec (from_db (expire E) (pgsql_pause_copy t) osm_id) 0)
      as [Hz|Hz]; cbn [negb]; [|apply rows_with_delete_row].
    destruct (rows_with osm_id (table_rows (pgsql_pause_copy t))) eqn:Hrw;
      [done|].
    exfalso. apply (Hc (pgsql_pause_copy t) osm_id); [by rewrite Hrw|done]. }
  destruct i; [done| | |].
  - rewrite Hl. apply Hpd.
  - rewrite Hp. apply Hpd.
  - rewrite Hr. apply rows_with_delete_row.
Qed.

Lemma mark_superseeded_deleted ways sup o x i :
  slim (m_options E) = true -> droptemp (m_options E) = false ->
  from_db_probes -> i <> t_point ->
  In x (marked_ids ways sup) ->
  rows_with x (table_rows (m_tables i (mark_superseeded E ways sup o))) = [].
Proof.
  intros Hs Hd Hc Hi. revert sup o.
  induction ways as [|[xid xnodes] ways IH]; intros sup o; [done|].
  cbn [mark_superseeded marked_ids]. destruct xnodes as [|n xnodes]; [done|].
  destruct (Z.eqb_spec (Z.of_nat (length (n :: xnodes))) 0) as [Hz|_];
    [simpl in Hz; lia|].
  rewrite in_app_iff. intros [Hx|Hx]; [|by apply IH].
  destruct (hd false sup); [|done]. destruct Hx as [<-|[]].
  eapply extends_keep_empty.
  - eapply extends_weaken; [|apply mark_superseeded_spec].
    intros []; simpl; done.
  - by apply delete_way_rows.
Qed.

(** C3, amended: when the member filter keeps the relation with
    make_polygon set and the builder returns at least one geometry, then,
    the fetched member ways all having nodes, [pgsql_out_relation] marks in
    the ways_done tracker exactly the ids of the member ways flagged
    superseded; when slim mode is on and droptemp mode is off (and the
    existence probe answers for existing rows) no row of a flagged way is
    left in the line, polygon or roads table; the rows of every other id
    are as before.  (Ids equal to the negated relation id, under which the
    relation's own rows are written, are left aside.) *)
Theorem superseded_members_marked (id : osmid_t) (rel_tags : keyval)
    (ways : list (osmid_t * keyval * list osmNode))
    (xrole : list (option string)) (o : output_pgsql_t) :
  v_make_polygon (rel_verdict rel_tags ways xrole) = true ->
  rel_first_build id rel_tags ways xrole <> [] ->
  Forall (fun w => snd w <> []) ways ->
  let o' := pgsql_out_relation E id rel_tags ways xrole o in
  let flagged := flagged_ids (map (fun w => fst (fst w)) ways)
                   (v_superseeded (rel_verdict rel_tags ways xrole)) in
  ways_done_tracker o' = list_to_set flagged ∪ ways_done_tracker o /\
  (slim (m_options E) = true -> droptemp (m_options E) = false ->
   from_db_probes ->
   forall x i, In x flagged -> x <> - id -> i <> t_point ->
     rows_with x (table_rows (m_tables i o')) = []) /\
  (forall x i, ~ In x flagged -> x <> - id ->
     rows_with x (table_rows (m_tables i o'))
       = rows_with x (table_rows (m_tables i o))).
Proof.
  intros Hmp Hb Hn o' flagged.
  destruct (pgsql_out_relation_spec id rel_tags ways xrole o)
    as (_ & He & Hdone & _). fold o' in He, Hdone.
  assert (Hmarks : rel_marks id rel_tags ways xrole = flagged).
  { unfold rel_marks. destruct (rel_first_build _ _ _ _); [done|].
    rewrite Hmp, marked_ids_flagged.
    - unfold flagged. by rewrite map_map.
    - clear -Hn. induction Hn; simpl; by constructor. }
  rewrite Hmarks in He, Hdone. split_and!; [done| |].
  - intros Hs Hd Hc x i Hx Hxid Hi.
    (* replay the function up to the supersession loop *)
    subst o'. unfold pgsql_out_relation.
    unfold rel_first_build in Hb. fold (rel_verdict rel_tags ways xrole) in *.
    set (v := rel_verdict rel_tags ways xrole) in *.
    destruct ways as [|w ways]; [done|]. set (ws := w :: ways) in *.
    destruct (v_drop v); [done|].
    destruct (build (builder E) id (map snd ws) (v_make_polygon v) _ _)
      as [|g wkts]; [done|].
    cbv zeta. rewrite out_rel_geoms_eq.
    destruct (fold_left (out_way_geom E (- id) (v_roads v)) (g :: wkts)
                (rel_tags, o)) as [tags1 o1].
    rewrite Hmp.
    set (o2 := mark_superseeded E _ _ o1).
    assert (H2 : rows_with x (table_rows (m_tables i o2)) = []).
    { apply mark_superseeded_deleted; try done.
      rewrite marked_ids_flagged.
      - subst flagged. by rewrite map_map.
      - clear -Hn. induction Hn; simpl; by constructor. }
    destruct (v_make_boundary v); [|done].
    eapply extends_keep_empty; [|exact H2].
    eapply extends_weaken;
      [|eapply emitted_extend, out_boundary_geoms_emitted].
    intros [r| |y]; simpl; try done. lia.
  - intros x i Hx Hxid. eapply extends_not_about.
    eapply extends_weaken; [|apply He].
    intros [r| |y]; simpl; try done; [lia|]. intros Hy ->. done.
Qed.

(** ** The tags of the polygon rows of one object

    [addItem] changes the tag list of the object in place, so the list a
    polygon row is written with is the list the polygon row before it left
    behind. *)

(** The tag list after the polygon geometries with areas [areas]. *)
Definition tags_after (tags : keyval) (areas : list double) : keyval :=
  fold_left (fun t a => inject_way_area E a t) areas tags.

(** The tag lists of the polygon rows, in order. *)
Fixpoint poly_row_tags (tags : keyval) (areas : list double) : list keyval :=
  match areas with
  | [] => []
  | area :: rest =>
      inject_way_area E area tags
        :: poly_row_tags (inject_way_area E area tags) rest
  end.

(** The areas of the geometries that get a polygon row. *)
Definition poly_areas (wkts : list (string * double)) : list double :=
  map snd (List.filter (fun g => (nonempty (fst g) && is_polygon_wkt (fst g))%bool)
             wkts).

Lemma poly_row_tags_app tags a1 a2 :
  poly_row_tags tags (a1 ++ a2)
  = poly_row_tags tags a1 ++ poly_row_tags (tags_after tags a1) a2.
Proof.
  revert tags. induction a1 as [|a a1 IH]; intros tags; [done|].
  cbn [app poly_row_tags]. by rewrite IH.
Qed.

Lemma last_cons_default {A} (x : A) (l : list A) (d : A) :
  List.last (x :: l) d = List.last l x.
Proof.
  revert x d. induction l as [|y l IH]; intros x d; [done|].
  change (List.last (x :: y :: l) d) with (List.last (y :: l) d).
  by rewrite !IH.
Qed.

Lemma tags_after_last tags areas :
  tags_after tags areas = List.last (poly_row_tags tags areas) tags.
Proof.
  revert tags. induction areas as [|a areas IH]; intros tags; [done|].
  cbn [tags_after fold_left poly_row_tags].
  fold (tags_after (inject_way_area E a tags) areas).
  rewrite IH. symmetry. apply last_cons_default.
Qed.

Lemma poly_areas_app w1 w2 : poly_areas (w1 ++ w2) = poly_areas w1 ++ poly_areas w2.
Proof. unfold poly_areas. by rewrite List.filter_app, map_app. Qed.

Lemma out_way_geoms_poly_rows id roads wkts tags o :
  fst (fold_left (out_way_geom E id roads) wkts (tags, o))
  = tags_after tags (poly_areas wkts) /\
  exists new_poly,
    m_tables t_poly (snd (fold_left (out_way_geom E id roads) wkts (tags, o)))
    = m_tables t_poly o ++ map CopyRow new_poly /\
    map way new_poly = map Wkt (poly_wkts wkts) /\
    map row_tags new_poly = poly_row_tags tags (poly_areas wkts).
Proof.
  revert tags o. induction wkts as [|[wkt area] wkts IH]; intros tags o.
  - split; [done|]. exists []. by rewrite app_nil_r.
  - cbn [fold_left]. rewrite poly_wkts_cons.
    unfold poly_areas, poly_wkts at 1. cbn [List.filter map fst snd].
    unfold out_way_geom at 2 4. fold (poly_areas wkts).
    destruct (nonempty wkt) eqn:Hne; cbn [andb List.filter];
      [destruct (is_polygon_wkt wkt) eqn:Hp; cbn [List.filter map app]|].
    + destruct (IH (inject_way_area E area tags)
                  (on_table t_poly (write_way id (inject_way_area E area tags) wkt) o))
        as (Ht & new & Hn & Hw & Hr).
      split; [exact Ht|].
      exists (mk_row id (inject_way_area E area tags) (Wkt wkt) :: new).
      rewrite Hn. cbn [map poly_row_tags way row_tags]. rewrite Hw, Hr.
      split; [|done]. destruct o. cbn. unfold write_way.
      by rewrite <- app_assoc.
    + match goal with
      | |- context [fold_left _ wkts (tags, ?o1)] =>
          destruct (IH tags o1) as (Ht & new & Hn & Hw & Hr)
      end.
      split; [exact Ht|]. exists new. rewrite Hn. split; [|done].
      f_equal. by destruct o, roads.
    + destruct (IH tags o) as (Ht & new & Hn & Hw & Hr).
      split; [exact Ht|]. by exists new.
Qed.

Lemma out_boundary_geoms_poly_rows id wkts tags o :
  exists new_poly,
    m_tables t_poly (snd (fold_left (out_boundary_geom E id) wkts (tags, o)))
    = m_tables t_poly o ++ map CopyRow new_poly /\
    map way new_poly = map Wkt (poly_wkts wkts) /\
    map row_tags new_poly = poly_row_tags tags (poly_areas wkts).
Proof.
  revert tags o. induction wkts as [|[wkt area] wkts IH]; intros tags o.
  - exists []. by rewrite app_nil_r.
  - cbn [fold_left]. rewrite poly_wkts_cons.
    unfold poly_areas, poly_wkts at 1. cbn [List.filter map fst snd].
    unfold out_boundary_geom at 2. fold (poly_areas wkts).
    destruct (nonempty wkt) eqn:Hne; cbn [andb List.filter];
      [destruct (is_polygon_wkt wkt) eqn:Hp; cbn [List.filter map app]|].
    + destruct (IH (inject_way_area E area tags)
                  (on_table t_poly
                     (write_way (- id) (inject_way_area E area tags) wkt) o))
        as (new & Hn & Hw & Hr).
      exists (mk_row (- id) (inject_way_area E area tags) (Wkt wkt) :: new).
      rewrite Hn. cbn [map poly_row_tags way row_tags]. rewrite Hw, Hr.
      split; [|done]. destruct o. cbn. unfold write_way.
      by rewrite <- app_assoc.
    + destruct (IH tags o) as (new & Hn & Hw & Hr). by exists new.
    + destruct (IH tags o) as (new & Hn & Hw & Hr). by exists new.
Qed.

Lemma pgsql_out_way_poly_rows id tags nodes exists_ o :
  exists new_poly,
    copied_rows (m_tables t_poly (pgsql_out_way E id tags nodes exists_ o))
    = copied_rows (m_tables t_poly o) ++ new_poly /\
    map way new_poly = map Wkt (poly_wkts (way_wkts tags nodes)) /\
    map row_tags new_poly = poly_row_tags tags (poly_areas (way_wkts tags nodes)).
Proof.
  pose proof (extends_no_copy _ _ _ (way_prelude_extend id exists_ o t_poly))
    as H0.
  unfold pgsql_out_way, way_wkts. fold (way_prelude id exists_ o).
  destruct (filter_way_tags _ _ _) as [[filter polygon] roads].
  destruct filter.
  - exists []. by rewrite app_nil_r.
  - destruct (out_way_geoms_poly_rows id roads
                (get_wkt_split (builder E) nodes polygon (split_at E)) tags
                (way_prelude id exists_ o)) as (_ & new & Hn & Hw & Hr).
    exists new. by rewrite Hn, copied_rows_CopyRow, H0.
Qed.

Lemma pgsql_out_relation_poly_rows id rel_tags ways xrole o :
  exists new_poly,
    copied_rows (m_tables t_poly (pgsql_out_relation E id rel_tags ways xrole o))
    = copied_rows (m_tables t_poly o) ++ new_poly /\
    map way new_poly
    = map Wkt (poly_wkts (rel_first_build id rel_tags ways xrole)
               ++ poly_wkts (rel_second_build id rel_tags ways xrole)) /\
    map row_tags new_poly
    = poly_row_tags rel_tags
        (poly_areas (rel_first_build id rel_tags ways xrole)
         ++ poly_areas (rel_second_build id rel_tags ways xrole)).
Proof.
  unfold pgsql_out_relation, rel_second_build, rel_first_build.
  fold (rel_verdict rel_tags ways xrole).
  set (v := rel_verdict rel_tags ways xrole).
  destruct ways as [|w ways]; [exists []; by rewrite app_nil_r|].
  set (ws := w :: ways) in *. cbv zeta.
  destruct (v_drop v); [exists []; by rewrite app_nil_r|].
  destruct (build (builder E) id (map snd ws) (v_make_polygon v) _ _)
    as [|g wkts] eqn:Hb; [exists []; by rewrite app_nil_r|].
  rewrite out_rel_geoms_eq.
  destruct (out_way_geoms_poly_rows (- id) (v_roads v) (g :: wkts) rel_tags o)
    as (Ht1 & new1 & Hn1 & Hw1 & Hr1).
  destruct (fold_left (out_way_geom E (- id) (v_roads v)) (g :: wkts)
              (rel_tags, o)) as [tags1 o1].
  cbn [fst snd] in Ht1, Hn1.
  set (o2 := if v_make_polygon v then _ else o1).
  assert (copied_rows (m_tables t_poly o2) = copied_rows (m_tables t_poly o1))
    as H2.
  { subst o2. destruct (v_make_polygon v); [|done].
    eapply extends_no_copy. apply mark_superseeded_spec. }
  destruct (v_make_boundary v).
  - destruct (out_boundary_geoms_poly_rows id
                (build (builder E) id (map snd ws) true
                   (enable_multi (m_options E)) (split_at E)) tags1 o2)
      as (new2 & Hn2 & Hw2 & Hr2).
    exists (new1 ++ new2).
    rewrite Hn2, copied_rows_CopyRow, H2, Hn1, copied_rows_CopyRow.
    rewrite !map_app, Hw1, Hw2, Hr1, Hr2, poly_row_tags_app, <- Ht1.
    by rewrite <- app_assoc.
  - exists new1. rewrite H2, Hn1, copied_rows_CopyRow, !app_nil_r. done.
Qed.

Lemma inject_way_area_cases (enable : bool) area before :
  m_enable_way_area E = enable ->
  (inject_way_area E area before
   = addItem before "way_area" (snprintf_g E area)
   <-> enable = true /\ double_gt0 area = true) /\
  (inject_way_area E area before = before
   <-> ~ (enable = true /\ double_gt0 area = true)).
Proof.
  intros Hen.
  assert (Hneq : addItem before "way_area" (snprintf_g E area) <> before).
  { unfold addItem. intros H. apply (f_equal (@length _)) in H.
    simpl in H. lia. }
  unfold inject_way_area. rewrite Hen.
  destruct (double_gt0 area), enable; simpl; intuition congruence.
Qed.

(** C8, amended: after the style file is read, enable_way_area is false
    exactly when some rule named way_area has flags that are exactly
    DELETE; and with that value in [m_enable_way_area], over the whole
    geometry loops of [pgsql_out_way] and [pgsql_out_relation], each
    polygon row is written with the tag list the polygon row before it
    left (the tags passed in, for the first polygon row of the object),
    to which a way_area item for the row's own area has been added exactly
    when enable_way_area is true and the area is greater than zero. *)
Theorem way_area_injection (f : FILE) (flags0 : string) (e : list diag)
    (enable : bool) (exl : export_list) :
  read_style_file (Some f) flags0 empty_export_list = Return e (enable, exl) ->
  m_enable_way_area E = enable ->
  (enable = false <->
   exists t, (In t (node_infos exl) \/ In t (way_infos exl)) /\
             name t = "way_area" /\ flags t = FLAG_DELETE) /\
  (forall id roads tags o wkt area,
     nonempty wkt = true -> is_polygon_wkt wkt = true ->
     exists row_tags,
       m_tables t_poly (snd (out_way_geom E id roads (tags, o) (wkt, area)))
         = m_tables t_poly o ++ [CopyRow (mk_row id row_tags (Wkt wkt))] /\
       m_tables t_poly (snd (out_rel_geom E id roads (tags, o) (wkt, area)))
         = m_tables t_poly o ++ [CopyRow (mk_row (- id) row_tags (Wkt wkt))] /\
       m_tables t_poly (snd (out_boundary_geom E id (tags, o) (wkt, area)))
         = m_tables t_poly o ++ [CopyRow (mk_row (- id) row_tags (Wkt wkt))] /\
       (row_tags = addItem tags "way_area" (snprintf_g E area) <->
        enable = true /\ double_gt0 area = true) /\
       (row_tags = tags <-> ~ (enable = true /\ double_gt0 area = true))) /\
  (forall id tags nodes exists_ o,
     exists new_poly,
       copied_rows (m_tables t_poly (pgsql_out_way E id tags nodes exists_ o))
       = copied_rows (m_tables t_poly o) ++ new_poly /\
       map way new_poly = map Wkt (poly_wkts (way_wkts tags nodes)) /\
       map row_tags new_poly
       = poly_row_tags tags (poly_areas (way_wkts tags nodes))) /\
  (forall id rel_tags ways xrole o,
     exists new_poly,
       copied_rows
         (m_tables t_poly (pgsql_out_relation E id rel_tags ways xrole o))
       = copied_rows (m_tables t_poly o) ++ new_poly /\
       map way new_poly
       = map Wkt (poly_wkts (rel_first_build id rel_tags ways xrole)
                  ++ poly_wkts (rel_second_build id rel_tags ways xrole)) /\
       map row_tags new_poly
       = poly_row_tags rel_tags
           (poly_areas (rel_first_build id rel_tags ways xrole)
            ++ poly_areas (rel_second_build id rel_tags ways xrole))) /\
  (forall tags pre area post,
     let before := List.last (poly_row_tags tags pre) tags in
     exists row,
       poly_row_tags tags (pre ++ area :: post)
       = poly_row_tags tags pre ++ row :: poly_row_tags row post /\
       (row = addItem before "way_area" (snprintf_g E area) <->
        enable = true /\ double_gt0 area = true) /\
       (row = before <-> ~ (enable = true /\ double_gt0 area = true))).
Proof.
  intros Hread Hen. split_and!.
  - rewrite (StyleFacts.read_style_file_way_area _ _ _ _ _ Hread).
    rewrite <- StyleFacts.way_area_deleted_spec.
    by destruct (StyleFacts.way_area_deleted exl).
  - intros id roads tags o wkt area Hne Hpoly.
    exists (inject_way_area E area tags).
    unfold out_way_geom, out_rel_geom, out_boundary_geom.
    rewrite Hne, Hpoly. split_and!; try by destruct o.
    all: by apply inject_way_area_cases.
  - apply pgsql_out_way_poly_rows.
  - apply pgsql_out_relation_poly_rows.
  - intros tags pre area post before.
    exists (inject_way_area E area before). split.
    + rewrite poly_row_tags_app. cbn [poly_row_tags].
      subst before. by rewrite <- tags_after_last.
    + by apply inject_way_area_cases.
Qed.

(** ** Updates of a pending tracker commute with the emitter

    [upd] stands for an assignment to one of the pending trackers: it
    leaves the tables and the ways_done tracker alone. *)

Section Agnostic.

Variable upd : output_pgsql_t -> output_pgsql_t.
Hypothesis upd_table : forall j f o, upd (on_table j f o) = on_table j f (upd o).
Hypothesis upd_tables : forall i o, m_tables i (upd o) = m_tables i o.
Hypothesis upd_done : forall o, ways_done_tracker (upd o) = ways_done_tracker o.
Hypothesis upd_set_done :
  forall q o, upd (set_ways_done q o) = set_ways_done q (upd o).

Lemma upd_if (c : bool) o1 o2 :
  (if c then upd o1 else upd o2) = upd (if c then o1 else o2).
Proof. by destruct c. Qed.

Lemma delete_way_upd osm_id o :
  pgsql_delete_way_from_output E osm_id (upd o)
  = upd (pgsql_delete_way_from_output E osm_id o).
Proof.
  unfold pgsql_delete_way_from_output.
  destruct (negb _); [done|]. destruct (droptemp _); [done|].
  cbv zeta.
  repeat (progress (rewrite <- ?upd_table, ?upd_if, ?upd_tables)). done.
Qed.

Lemma delete_relation_upd osm_id o :
  pgsql_delete_relation_from_output E osm_id (upd o)
  = upd (pgsql_delete_relation_from_output E osm_id o).
Proof.
  unfold pgsql_delete_relation_from_output.
  cbv zeta.
  repeat (progress (rewrite <- ?upd_table, ?upd_if, ?upd_tables)). done.
Qed.

Lemma out_way_geoms_upd id roads wkts tags o :
  fold_left (out_way_geom E id roads) wkts (tags, upd o)
  = (fst (fold_left (out_way_geom E id roads) wkts (tags, o)),
     upd (snd (fold_left (out_way_geom E id roads) wkts (tags, o)))).
Proof.
  revert tags o. induction wkts as [|[wkt area] wkts IH]; intros tags o; [done|].
  cbn [fold_left]. unfold out_way_geom at 2 4 6.
  destruct (nonempty wkt); [|apply IH].
  destruct (is_polygon_wkt wkt).
  - rewrite <- upd_table. apply IH.
  - destruct roads; rewrite <- !upd_table; apply IH.
Qed.

Lemma out_boundary_geoms_upd id wkts tags o :
  fold_left (out_boundary_geom E id) wkts (tags, upd o)
  = (fst (fold_left (out_boundary_geom E id) wkts (tags, o)),
     upd (snd (fold_left (out_boundary_geom E id) wkts (tags, o)))).
Proof.
  revert tags o. induction wkts as [|[wkt area] wkts IH]; intros tags o; [done|].
  cbn [fold_left]. unfold out_boundary_geom at 2 4 6.
  destruct (nonempty wkt); [|apply IH].
  destruct (is_polygon_wkt wkt); [|apply IH].
  rewrite <- upd_table. apply IH.
Qed.

Lemma mark_superseeded_upd ways sup o :
  mark_superseeded E ways sup (upd o) = upd (mark_superseeded E ways sup o).
Proof.
  revert sup o. induction ways as [|[xid xnodes] ways IH]; intros sup o; [done|].
  cbn [mark_superseeded]. destruct (_ =? 0); [done|].
  destruct (hd false sup); [|apply IH].
  rewrite upd_done, <- upd_set_done, delete_way_upd. apply IH.
Qed.

Lemma pgsql_out_relation_upd id rel_tags ways xrole o :
  pgsql_out_relation E id rel_tags ways xrole (upd o)
  = upd (pgsql_out_relation E id rel_tags ways xrole o).
Proof.
  unfold pgsql_out_relation. destruct ways as [|w ways]; [done|].
  destruct (v_drop _); [done|].
  destruct (build (builder E) id _ _ _ _) as [|g wkts]; [done|].
  rewrite !out_rel_geoms_eq, out_way_geoms_upd.
  destruct (fold_left (out_way_geom E (- id) _) (g :: wkts) (rel_tags, o))
    as [tags1 o1]. cbn [fst snd].
  destruct (v_make_polygon _), (v_make_boundary _);
    rewrite ?mark_superseeded_upd, ?out_boundary_geoms_upd; done.
Qed.

Lemma pgsql_process_relation_upd id members tags exists_ o :
  snd (pgsql_process_relation E id members tags exists_ (upd o))
  = upd (snd (pgsql_process_relation E id members tags exists_ o)).
Proof.
  unfold pgsql_process_relation.
  destruct exists_; rewrite ?delete_relation_upd;
    destruct (filter_rel_tags _ _ _); cbn [snd]; try done;
    apply pgsql_out_relation_upd.
Qed.

End Agnostic.

Lemma set_ways_pending_on_table p j f o :
  set_ways_pending p (on_table j f o) = on_table j f (set_ways_pending p o).
Proof. by destruct j. Qed.

Lemma m_tables_set_ways_pending p i o :
  m_tables i (set_ways_pending p o) = m_tables i o.
Proof. by destruct i. Qed.

Lemma set_rels_pending_on_table p j f o :
  set_rels_pending p (on_table j f o) = on_table j f (set_rels_pending p o).
Proof. by destruct j. Qed.

Lemma m_tables_set_rels_pending p i o :
  m_tables i (set_rels_pending p o) = m_tables i o.
Proof. by destruct i. Qed.

Lemma pgsql_out_way_set_pending id tags nodes exists_ p o :
  pgsql_out_way E id tags nodes exists_ (set_ways_pending p o)
  = set_ways_pending p (pgsql_out_way E id tags nodes exists_ o).
Proof.
  unfold pgsql_out_way.
  assert (Hpre : (if exists_
                  then fold_left
                         (fun o r => set_rels_pending (mark r (rels_pending_tracker o)) o)
                         (relations_using_way (m_mid E) id)
                         (pgsql_delete_way_from_output E id (set_ways_pending p o))
                  else set_ways_pending p o)
                 = set_ways_pending p
                     (if exists_
                      then fold_left
                             (fun o r => set_rels_pending (mark r (rels_pending_tracker o)) o)
                             (relations_using_way (m_mid E) id)
                             (pgsql_delete_way_from_output E id o)
                      else o)).
  { destruct exists_; [|done].
    rewrite (delete_way_upd (set_ways_pending p)
               (set_ways_pending_on_table p) (m_tables_set_ways_pending p)).
    generalize (pgsql_delete_way_from_output E id o). intros o1.
    generalize (relations_using_way (m_mid E) id). intros rels. revert o1.
    induction rels as [|r rels IH]; intros o1; [done|]. simpl.
    rewrite <- IH. done. }
  rewrite Hpre. destruct (filter_way_tags _ _ _) as [[filter polygon] roads].
  destruct filter; [done|].
  by rewrite (out_way_geoms_upd (set_ways_pending p)
                (set_ways_pending_on_table p)).
Qed.

Lemma pgsql_process_relation_set_pending id members tags exists_ p o :
  snd (pgsql_process_relation E id members tags exists_ (set_rels_pending p o))
  = set_rels_pending p (snd (pgsql_process_relation E id members tags exists_ o)).
Proof.
  apply (pgsql_process_relation_upd (set_rels_pending p)
           (set_rels_pending_on_table p) (m_tables_set_rels_pending p));
    done.
Qed.

End Facts.

(** ** Merging the upstream ids with the pending ids *)

(** [pop_mark] on a tracker whose ids, in ascending order, are [ds]. *)
Lemma sorted_lt_NoDup (ds : list Z) : StronglySorted Z.lt ds -> NoDup ds.
Proof.
  induction 1 as [|d ds Hs IH Hd]; constructor; [|done].
  intros Hin. rewrite Forall_forall in Hd. specialize (Hd d Hin). lia.
Qed.

Lemma sorted_lt_le (ds : list Z) : StronglySorted Z.lt ds -> Sorted Z.le ds.
Proof.
  induction 1 as [|d ds Hs IH Hd]; constructor; [done|].
  destruct ds as [|d' ds]; constructor. apply Forall_inv in Hd. lia.
Qed.

Lemma pop_mark_sorted (ds : list Z) :
  StronglySorted Z.lt ds ->
  pop_mark (list_to_set ds) = (hd osmid_max ds, list_to_set (tl ds)).
Proof.
  intros Hs. unfold pop_mark. destruct ds as [|d ds].
  - simpl. by rewrite elements_empty.
  - assert (Heq : merge_sort Z.le (elements (list_to_set (d :: ds) : gset Z))
                  = d :: ds).
    { apply (Sorted_unique Z.le).
      - apply Sorted_merge_sort, _.
      - apply sorted_lt_le, Hs.
      - rewrite merge_sort_Permutation.
        apply elements_list_to_set, sorted_lt_NoDup, Hs. }
    rewrite Heq. simpl. f_equal.
    apply sorted_lt_NoDup, NoDup_cons in Hs as [Hd _]. set_solver.
Qed.

Lemma filter_lt_sorted_nil (x d : Z) (ds : list Z) :
  StronglySorted Z.lt (d :: ds) -> ~ d < x ->
  List.filter (fun y => y <? x) (d :: ds) = [] /\
  List.filter (fun y => negb (y <? x)) (d :: ds) = d :: ds.
Proof.
  intros Hs Hd. apply StronglySorted_inv in Hs as [_ Hall].
  assert (Hall' : Forall (fun y => ~ y < x) (d :: ds)).
  { constructor; [done|]. eapply Forall_impl; [exact Hall|]. simpl. lia. }
  clear Hall Hd. induction Hall' as [|y l Hy _ [IH1 IH2]]; [done|].
  simpl. destruct (Z.ltb_spec y x); [lia|]. simpl. by rewrite IH1, IH2.
Qed.

Section Merge.

Context {U : Type}.
Variable uid : U -> osmid_t.
Variable get : output_pgsql_t -> gset Z.
Variable set : gset Z -> output_pgsql_t -> output_pgsql_t.
Variable replay : osmid_t -> output_pgsql_t -> output_pgsql_t.
Variable handle : U -> output_pgsql_t -> output_pgsql_t.

Hypothesis get_set : forall p o, get (set p o) = p.
Hypothesis set_set : forall p q o, set p (set q o) = set p o.
Hypothesis replay_set : forall id p o, replay id (set p o) = set p (replay id o).
Hypothesis handle_set : forall u p o, handle u (set p o) = set p (handle u o).

(** The call-back object, over any tracker and any processing. *)
Definition g_pop (cb : cb_func) : cb_func :=
  let '(next, p) := pop_mark (get (m_ptr cb)) in
  mk_cb next (set p (m_ptr cb)).

Fixpoint g_loop (fuel : nat) (id : osmid_t) (cb : cb_func) : cb_func :=
  match fuel with
  | O => cb
  | S fuel' =>
      if m_next_internal_id cb <? id then
        g_loop fuel' id
          (g_pop (mk_cb (m_next_internal_id cb)
                    (replay (m_next_internal_id cb) (m_ptr cb))))
      else cb
  end.

Definition g_until (id : osmid_t) (cb : cb_func) : cb_func :=
  g_loop (S (size (get (m_ptr cb)))) id cb.

Definition g_call (u : U) (cb : cb_func) : cb_func :=
  let cb := if m_next_internal_id cb <? uid u then g_until (uid u) cb else cb in
  let cb := if m_next_internal_id cb =? uid u then g_pop cb else cb in
  mk_cb (m_next_internal_id cb) (handle u (m_ptr cb)).

Definition g_pass (ups : list U) (o : output_pgsql_t) : cb_func :=
  g_until osmid_max
    (fold_left (fun cb u => g_call u cb) ups (g_pop (mk_cb 0 o))).

(** The merged schedule: before each upstream item the pending ids below
    it, in order; a pending id equal to an upstream id is left to the
    upstream item; after the last upstream item the pending ids that
    remain. *)
Inductive visit : Type :=
  | Deferred (id : osmid_t)
  | Upstream (u : U).

Definition visit_id (v : visit) : osmid_t :=
  match v with Deferred id => id | Upstream u => uid u end.

Fixpoint merge_schedule (ups : list U) (defs : list osmid_t) : list visit :=
  match ups with
  | [] => map Deferred defs
  | u :: ups' =>
      map Deferred (List.filter (fun d => d <? uid u) defs)
      ++ Upstream u
         :: merge_schedule ups' (List.filter (fun d => uid u <? d) defs)
  end.

Definition do_visit (o : output_pgsql_t) (v : visit) : output_pgsql_t :=
  match v with Deferred id => replay id o | Upstream u => handle u o end.

(** The cursor and the tracker when the pending ids still to come are
    [defs]. *)
Definition at_cursor (defs : list osmid_t) (o : output_pgsql_t) : cb_func :=
  mk_cb (hd osmid_max defs) (set (list_to_set (tl defs)) o).

Lemma g_pop_at_cursor defs o :
  StronglySorted Z.lt defs ->
  g_pop (at_cursor defs o) = at_cursor (tl defs) o.
Proof.
  intros Hs. unfold g_pop, at_cursor. cbn [m_ptr].
  rewrite get_set, pop_mark_sorted, set_set; [done|].
  destruct defs; [done|]. by apply StronglySorted_inv in Hs as [? _].
Qed.

Lemma g_loop_spec defs fuel id o :
  StronglySorted Z.lt defs -> Forall (fun d => d < osmid_max) defs ->
  id <= osmid_max ->
  Nat.le (length (List.filter (fun d => d <? id) defs)) fuel ->
  g_loop fuel id (at_cursor defs o)
  = at_cursor (List.filter (fun d => negb (d <? id)) defs)
      (fold_left (fun o d => replay d o) (List.filter (fun d => d <? id) defs) o).
Proof.
  intros Hs Hm Hid. revert fuel o.
  induction defs as [|d ds IH]; intros fuel o Hf.
  - destruct fuel; [done|]. simpl. destruct (Z.ltb_spec osmid_max id); [lia|done].
  - destruct (Z.ltb_spec d id) as [Hlt|Hge].
    + cbn [List.filter] in *. destruct (Z.ltb_spec d id); [|lia].
      cbn [negb length fold_left] in *. destruct fuel as [|fuel]; [lia|].
      cbn [g_loop at_cursor m_next_internal_id m_ptr hd tl].
      destruct (Z.ltb_spec d id); [|lia].
      rewrite replay_set.
      change (mk_cb d (set (list_to_set ds) (replay d o)))
        with (at_cursor (d :: ds) (replay d o)).
      rewrite g_pop_at_cursor by done. cbn [tl].
      apply IH; [by apply StronglySorted_inv in Hs as [? _]
                |by apply Forall_inv_tail in Hm|lia].
    + destruct (filter_lt_sorted_nil id d ds Hs) as [-> ->]; [lia|].
      destruct fuel; [done|]. simpl. destruct (Z.ltb_spec d id); [lia|done].
Qed.

Lemma g_until_spec defs id o :
  StronglySorted Z.lt defs -> Forall (fun d => d < osmid_max) defs ->
  id <= osmid_max ->
  g_until id (at_cursor defs o)
  = at_cursor (List.filter (fun d => negb (d <? id)) defs)
      (fold_left (fun o d => replay d o) (List.filter (fun d => d <? id) defs) o).
Proof.
  intros Hs Hm Hid. unfold g_until. apply g_loop_spec; try done.
  cbn [at_cursor m_ptr]. rewrite get_set, size_list_to_set.
  - destruct defs as [|d ds]; [simpl; lia|]. cbn [tl List.filter].
    pose proof (List.filter_length_le (fun d0 => d0 <? id) ds).
    destruct (d <? id); simpl; lia.
  - apply sorted_lt_NoDup. destruct defs; [constructor|].
    by apply StronglySorted_inv in Hs as [? _].
Qed.

Lemma filter_sorted (f : Z -> bool) (ds : list Z) :
  StronglySorted Z.lt ds -> StronglySorted Z.lt (List.filter f ds).
Proof.
  induction 1 as [|d ds Hs IH Hd]; [constructor|]. simpl.
  destruct (f d); [|done]. constructor; [done|].
  rewrite List.Forall_forall in *. intros y Hy. apply Hd.
  by apply filter_In in Hy as [? _].
Qed.

Lemma filter_below_max (f : Z -> bool) (ds : list Z) :
  Forall (fun d => d < osmid_max) ds ->
  Forall (fun d => d < osmid_max) (List.filter f ds).
Proof.
  rewrite !List.Forall_forall. intros H y Hy. apply H.
  by apply filter_In in Hy as [? _].
Qed.

Lemma g_call_spec defs u o :
  StronglySorted Z.lt defs -> Forall (fun d => d < osmid_max) defs ->
  uid u <= osmid_max ->
  g_call u (at_cursor defs o)
  = at_cursor (List.filter (fun d => uid u <? d) defs)
      (handle u (fold_left (fun o d => replay d o) (List.filter (fun d => d <? uid u) defs) o)).
Proof.
  intros Hs Hm Hu. unfold g_call.
  set (lo := List.filter (fun d => d <? uid u) defs).
  set (hi := List.filter (fun d => negb (d <? uid u)) defs).
  assert (H1 : (if m_next_internal_id (at_cursor defs o) <? uid u
                then g_until (uid u) (at_cursor defs o) else at_cursor defs o)
               = at_cursor hi (fold_left (fun o d => replay d o) lo o)).
  { destruct (Z.ltb_spec (m_next_internal_id (at_cursor defs o)) (uid u))
      as [Hlt|Hge]; [by apply g_until_spec|].
    subst lo hi. destruct defs as [|d ds]; [done|].
    destruct (filter_lt_sorted_nil (uid u) d ds Hs) as [-> ->]; [|done].
    simpl in Hge. lia. }
  cbv zeta. rewrite H1. clear H1.
  assert (Hhi : StronglySorted Z.lt hi) by by apply filter_sorted.
  assert (H2 : (if m_next_internal_id (at_cursor hi (fold_left (fun o d => replay d o) lo o))
                   =? uid u
                then g_pop (at_cursor hi (fold_left (fun o d => replay d o) lo o))
                else at_cursor hi (fold_left (fun o d => replay d o) lo o))
               = at_cursor (List.filter (fun d => uid u <? d) defs)
                   (fold_left (fun o d => replay d o) lo o)).
  { assert (Hgt : forall l, Forall (fun d => uid u < d) l ->
                    List.filter (fun d => uid u <? d) l = l).
    { induction 1 as [|y l Hy _ IH]; [done|]. simpl.
      destruct (Z.ltb_spec (uid u) y); [by rewrite IH|lia]. }
    assert (Hhi2 : List.filter (fun d => uid u <? d) defs
                   = List.filter (fun d => uid u <? d) hi).
    { subst hi. clear. induction defs as [|d ds IH]; [done|]. simpl.
      destruct (Z.ltb_spec d (uid u)), (Z.ltb_spec (uid u) d); simpl;
        try lia; rewrite ?IH; try done.
      all: destruct (Z.ltb_spec (uid u) d); try lia; by rewrite ?IH. }
    assert (Hge : Forall (fun d => uid u <= d) hi).
    { subst hi. rewrite List.Forall_forall. intros y Hy.
      apply filter_In in Hy as [_ Hy]. destruct (Z.ltb_spec y (uid u)); [done|lia]. }
    rewrite Hhi2.
    destruct (Z.eqb_spec (m_next_internal_id (at_cursor hi (fold_left (fun o d => replay d o) lo o)))
                (uid u)) as [Heq|Hne].
    - rewrite g_pop_at_cursor by done. f_equal.
      destruct hi as [|d ds]; [done|]. simpl in Heq. subst d. simpl.
      destruct (Z.ltb_spec (uid u) (uid u)); [lia|]. cbn [tl].
      symmetry. apply Hgt. apply StronglySorted_inv in Hhi as [_ Hall]. done.
    - f_equal. symmetry. apply Hgt.
      destruct hi as [|d ds]; [constructor|]. simpl in Hne.
      apply StronglySorted_inv in Hhi as [_ Hall].
      apply Forall_inv in Hge as Hd. constructor; [lia|].
      eapply Forall_impl; [exact Hall|]. simpl. lia. }
  rewrite H2. unfold at_cursor. cbn [m_next_internal_id m_ptr].
  by rewrite handle_set.
Qed.

Lemma fold_left_Deferred ds o :
  fold_left do_visit (map Deferred ds) o = fold_left (fun o d => replay d o) ds o.
Proof. revert o. induction ds as [|d ds IH]; intros o; [done|]. apply IH. Qed.

Lemma g_fold_spec ups defs o :
  StronglySorted Z.lt defs -> Forall (fun d => d < osmid_max) defs ->
  Forall (fun u => uid u <= osmid_max) ups ->
  g_until osmid_max (fold_left (fun cb u => g_call u cb) ups (at_cursor defs o))
  = mk_cb osmid_max (set ∅ (fold_left do_visit (merge_schedule ups defs) o)).
Proof.
  intros Hs Hm Hu. revert defs o Hs Hm.
  induction Hu as [|u ups Hu _ IH]; intros defs o Hs Hm.
  - cbn [fold_left merge_schedule]. rewrite g_until_spec by (done || lia).
    assert (Hall : forall l, Forall (fun d => d < osmid_max) l ->
              List.filter (fun d => d <? osmid_max) l = l /\
              List.filter (fun d => negb (d <? osmid_max)) l = []).
    { induction 1 as [|y l Hy _ [IH1 IH2]]; [done|]. simpl.
      destruct (Z.ltb_spec y osmid_max); [|lia]. simpl. by rewrite IH1, IH2. }
    destruct (Hall defs Hm) as [-> ->]. by rewrite fold_left_Deferred.
  - cbn [fold_left merge_schedule]. rewrite g_call_spec by done.
    rewrite IH by (by apply filter_sorted || by apply filter_below_max).
    by rewrite fold_left_app, fold_left_Deferred.
Qed.

Theorem g_pass_spec ups defs o :
  StronglySorted Z.lt defs -> Forall (fun d => d < osmid_max) defs ->
  Forall (fun u => uid u <= osmid_max) ups ->
  get o = list_to_set defs ->
  g_pass ups o
  = mk_cb osmid_max (set ∅ (fold_left do_visit (merge_schedule ups defs) o)).
Proof.
  intros Hs Hm Hu Hget. unfold g_pass.
  assert (Hctor : g_pop (mk_cb 0 o) = at_cursor defs o).
  { unfold g_pop, at_cursor. cbn [m_ptr]. by rewrite Hget, pop_mark_sorted. }
  rewrite Hctor. by apply g_fold_spec.
Qed.

(** The schedule holds each id of either sequence once, in ascending
    order. *)
Lemma merge_schedule_ids ups defs x :
  In x (map visit_id (merge_schedule ups defs))
  <-> In x (map uid ups) \/ In x defs.
Proof.
  revert defs. induction ups as [|u ups IH]; intros defs.
  - simpl. rewrite map_map, map_id. tauto.
  - cbn [merge_schedule map]. rewrite map_app. cbn [map visit_id].
    rewrite in_app_iff, map_map, map_id. cbn [In]. rewrite IH, !filter_In.
    destruct (Z.ltb_spec x (uid u)), (Z.ltb_spec (uid u) x);
      intuition (try lia; try (subst; auto)).
Qed.

Lemma merge_schedule_sorted ups defs :
  StronglySorted Z.lt (map uid ups) -> StronglySorted Z.lt defs ->
  StronglySorted Z.lt (map visit_id (merge_schedule ups defs)).
Proof.
  revert defs. induction ups as [|u ups IH]; intros defs Hu Hd.
  - simpl. by rewrite map_map, map_id.
  - cbn [merge_schedule map] in *. rewrite map_app, map_map, map_id.
    cbn [map visit_id]. apply StronglySorted_inv in Hu as [Hu Hall].
    apply StronglySorted_app_2.
    + intros x1 x2 H1 H2. apply list_elem_of_In in H1, H2.
      apply filter_In in H1 as [_ H1]. destruct (Z.ltb_spec x1 (uid u)); [|done].
      destruct H2 as [<-|H2]; [done|].
      apply merge_schedule_ids in H2 as [H2|H2].
      * rewrite List.Forall_forall in Hall. specialize (Hall _ H2). lia.
      * apply filter_In in H2 as [_ H2].
        destruct (Z.ltb_spec (uid u) x2); [lia|done].
    + by apply filter_sorted.
    + constructor; [apply IH; [done|by apply filter_sorted]|].
      rewrite List.Forall_forall. intros x Hx.
      apply merge_schedule_ids in Hx as [Hx|Hx].
      * rewrite List.Forall_forall in Hall. by apply Hall.
      * apply filter_In in Hx as [_ Hx].
        destruct (Z.ltb_spec (uid u) x); [lia|done].
Qed.

End Merge.

(** ** The two iteration passes *)

Section Iteration.

Variable E : output_env.

(** An upstream way: id, tags, nodes. *)
Definition way_item : Type := osmid_t * keyval * list osmNode.
Definition way_uid (u : way_item) : osmid_t := fst (fst u).

(** An upstream relation: id, members, tags. *)
Definition rel_item : Type := osmid_t * list member * keyval.
Definition rel_uid (u : rel_item) : osmid_t := fst (fst u).

(** Modelled from the spec: the host's pass over the ways
    ([middle_t::iterate_ways], not in this file) makes the call-back object,
    calls it for every upstream way and then calls [finish]. *)
Definition way_pass (exists_ : bool) (ups : list way_item)
    (o : output_pgsql_t) : cb_func :=
  way_cb_finish E exists_
    (fold_left
       (fun cb u => way_cb_call E (way_uid u) (snd (fst u)) (snd u) exists_ cb)
       ups (way_cb_func o)).

(** Modelled from the spec: the same for the host's pass over the
    relations ([middle_t::iterate_relations]). *)
Definition rel_pass (exists_ : bool) (ups : list rel_item)
    (o : output_pgsql_t) : cb_func :=
  rel_cb_finish E exists_
    (fold_left
       (fun cb u =>
          snd (rel_cb_call E (rel_uid u) (snd (fst u)) (snd u) exists_ cb))
       ups (rel_cb_func o)).

(** What the traversal does with one id.  A deferred way is fetched from
    the middle and, unless it is missing there or marked done, handed to
    [pgsql_out_way]; an upstream way is handed over unless marked done. *)
Definition way_replay (exists_ : bool) (id : osmid_t) (o : output_pgsql_t)
  : output_pgsql_t :=
  match ways_get (m_mid E) id with
  | Some (tags, nodes) =>
      if is_marked id (ways_done_tracker o) then o
      else pgsql_out_way E id tags nodes exists_ o
  | None => o
  end.

Definition way_handle (exists_ : bool) (u : way_item) (o : output_pgsql_t)
  : output_pgsql_t :=
  if is_marked (way_uid u) (ways_done_tracker o) then o
  else pgsql_out_way E (way_uid u) (snd (fst u)) (snd u) exists_ o.

(** A deferred relation is fetched from the middle and, unless missing,
    handed to [pgsql_process_relation]; an upstream relation always is. *)
Definition rel_replay (exists_ : bool) (id : osmid_t) (o : output_pgsql_t)
  : output_pgsql_t :=
  match relations_get (m_mid E) id with
  | Some (members, tags) =>
      snd (pgsql_process_relation E id members tags exists_ o)
  | None => o
  end.

Definition rel_handle (exists_ : bool) (u : rel_item) (o : output_pgsql_t)
  : output_pgsql_t :=
  snd (pgsql_process_relation E (rel_uid u) (snd (fst u)) (snd u) exists_ o).

Lemma way_loop_generic exists_ fuel id cb :
  way_run_internal_loop E fuel id exists_ cb
  = g_loop ways_pending_tracker set_ways_pending (way_replay exists_) fuel id cb.
Proof.
  revert cb. induction fuel as [|fuel IH]; intros cb; [done|].
  cbn [way_run_internal_loop g_loop].
  destruct (m_next_internal_id cb <? id); [|done].
  unfold g_pop, way_replay. cbn [m_ptr m_next_internal_id].
  destruct (ways_get (m_mid E) (m_next_internal_id cb)) as [[tags nodes]|];
    [destruct (is_marked _ _)|]; cbn [negb];
    destruct (pop_mark _); apply IH.
Qed.

Lemma way_call_generic exists_ u cb :
  way_cb_call E (way_uid u) (snd (fst u)) (snd u) exists_ cb
  = g_call way_uid ways_pending_tracker set_ways_pending
      (way_replay exists_) (way_handle exists_) u cb.
Proof.
  unfold way_cb_call, g_call, way_run_internal_until, g_until.
  rewrite way_loop_generic.
  set (cb1 := if m_next_internal_id cb <? way_uid u then _ else cb).
  unfold g_pop, way_handle.
  destruct (m_next_internal_id cb1 =? way_uid u).
  - destruct (pop_mark _). cbn [m_ptr m_next_internal_id].
    by destruct (is_marked _ _).
  - destruct cb1 as [n o1]. cbn [m_ptr m_next_internal_id].
    by destruct (is_marked _ _).
Qed.

Lemma way_pass_generic exists_ ups o :
  way_pass exists_ ups o
  = g_pass way_uid ways_pending_tracker set_ways_pending
      (way_replay exists_) (way_handle exists_) ups o.
Proof.
  unfold way_pass, g_pass, way_cb_finish, way_run_internal_until, g_until.
  rewrite way_loop_generic.
  assert (Hc : way_cb_func o
               = g_pop ways_pending_tracker set_ways_pending (mk_cb 0 o)) by done.
  rewrite Hc. generalize (g_pop ways_pending_tracker set_ways_pending (mk_cb 0 o)).
  intros cb.
  assert (Hf : forall cb,
            fold_left (fun cb u => way_cb_call E (way_uid u) (snd (fst u))
                                     (snd u) exists_ cb) ups cb
            = fold_left (fun cb u => g_call way_uid ways_pending_tracker
                                       set_ways_pending (way_replay exists_)
                                       (way_handle exists_) u cb) ups cb).
  { induction ups as [|u ups IH]; intros cb0; [done|]. simpl.
    by rewrite way_call_generic, IH. }
  by rewrite Hf.
Qed.

Lemma rel_loop_generic exists_ fuel id cb :
  rel_run_internal_loop E fuel id exists_ cb
  = g_loop rels_pending_tracker set_rels_pending (rel_replay exists_) fuel id cb.
Proof.
  revert cb. induction fuel as [|fuel IH]; intros cb; [done|].
  cbn [rel_run_internal_loop g_loop].
  destruct (m_next_internal_id cb <? id); [|done].
  unfold g_pop, rel_replay. cbn [m_ptr m_next_internal_id].
  destruct (relations_get (m_mid E) (m_next_internal_id cb)) as [[members tags]|];
    destruct (pop_mark _); apply IH.
Qed.

Lemma rel_call_generic exists_ u cb :
  snd (rel_cb_call E (rel_uid u) (snd (fst u)) (snd u) exists_ cb)
  = g_call rel_uid rels_pending_tracker set_rels_pending
      (rel_replay exists_) (rel_handle exists_) u cb.
Proof.
  unfold rel_cb_call, g_call, rel_run_internal_until, g_until.
  rewrite rel_loop_generic.
  set (cb1 := if m_next_internal_id cb <? rel_uid u then _ else cb).
  unfold g_pop, rel_handle.
  destruct (m_next_internal_id cb1 =? rel_uid u).
  - destruct (pop_mark _). cbn [m_ptr m_next_internal_id].
    by destruct (pgsql_process_relation _ _ _ _ _ _).
  - by destruct (pgsql_process_relation _ _ _ _ _ _).
Qed.

Lemma rel_pass_generic exists_ ups o :
  rel_pass exists_ ups o
  = g_pass rel_uid rels_pending_tracker set_rels_pending
      (rel_replay exists_) (rel_handle exists_) ups o.
Proof.
  unfold rel_pass, g_pass, rel_cb_finish, rel_run_internal_until, g_until.
  rewrite rel_loop_generic.
  assert (Hc : rel_cb_func o
               = g_pop rels_pending_tracker set_rels_pending (mk_cb 0 o)) by done.
  rewrite Hc. generalize (g_pop rels_pending_tracker set_rels_pending (mk_cb 0 o)).
  intros cb.
  assert (Hf : forall cb,
            fold_left (fun cb u => snd (rel_cb_call E (rel_uid u) (snd (fst u))
                                          (snd u) exists_ cb)) ups cb
            = fold_left (fun cb u => g_call rel_uid rels_pending_tracker
                                       set_rels_pending (rel_replay exists_)
                                       (rel_handle exists_) u cb) ups cb).
  { induction ups as [|u ups IH]; intros cb0; [done|]. simpl.
    by rewrite rel_call_generic, IH. }
  by rewrite Hf.
Qed.

Lemma way_replay_set_pending exists_ id p o :
  way_replay exists_ id (set_ways_pending p o)
  = set_ways_pending p (way_replay exists_ id o).
Proof.
  unfold way_replay. destruct (ways_get _ _) as [[tags nodes]|]; [|done].
  change (ways_done_tracker (set_ways_pending p o)) with (ways_done_tracker o).
  destruct (is_marked _ _); [done|apply pgsql_out_way_set_pending].
Qed.

Lemma way_handle_set_pending exists_ u p o :
  way_handle exists_ u (set_ways_pending p o)
  = set_ways_pending p (way_handle exists_ u o).
Proof.
  unfold way_handle.
  change (ways_done_tracker (set_ways_pending p o)) with (ways_done_tracker o).
  destruct (is_marked _ _); [done|apply pgsql_out_way_set_pending].
Qed.

Lemma rel_replay_set_pending exists_ id p o :
  rel_replay exists_ id (set_rels_pending p o)
  = set_rels_pending p (rel_replay exists_ id o).
Proof.
  unfold rel_replay. destruct (relations_get _ _) as [[members tags]|]; [|done].
  apply pgsql_process_relation_set_pending.
Qed.

(** C1: with the pending ids [defs] in ascending order (all below the
    sentinel) and the upstream ids in ascending order, the pass over the
    ways, and likewise the pass over the relations, handles the ids of the
    merged schedule one after the other: the schedule holds every id of
    either sequence exactly once, in ascending order; an id that only the
    tracker has is replayed from the middle, an id the upstream has is left
    to the upstream call (the cursor moves past it); after [finish()] the
    cursor is the sentinel and the tracker is empty. *)
Theorem merged_traversal (exists_ : bool) (defs : list osmid_t)
    (o : output_pgsql_t) :
  StronglySorted Z.lt defs ->
  Forall (fun d => d < osmid_max) defs ->
  (forall ups : list way_item,
     StronglySorted Z.lt (map way_uid ups) ->
     Forall (fun u => way_uid u <= osmid_max) ups ->
     ways_pending_tracker o = list_to_set defs ->
     way_pass exists_ ups o
     = mk_cb osmid_max
         (set_ways_pending ∅
            (fold_left (do_visit (way_replay exists_) (way_handle exists_))
               (merge_schedule way_uid ups defs) o)) /\
     StronglySorted Z.lt
       (map (visit_id way_uid) (merge_schedule way_uid ups defs)) /\
     (forall x, In x (map (visit_id way_uid) (merge_schedule way_uid ups defs))
                <-> In x (map way_uid ups) \/ x ∈ ways_pending_tracker o)) /\
  (forall ups : list rel_item,
     StronglySorted Z.lt (map rel_uid ups) ->
     Forall (fun u => rel_uid u <= osmid_max) ups ->
     rels_pending_tracker o = list_to_set defs ->
     rel_pass exists_ ups o
     = mk_cb osmid_max
         (set_rels_pending ∅
            (fold_left (do_visit (rel_replay exists_) (rel_handle exists_))
               (merge_schedule rel_uid ups defs) o)) /\
     StronglySorted Z.lt
       (map (visit_id rel_uid) (merge_schedule rel_uid ups defs)) /\
     (forall x, In x (map (visit_id rel_uid) (merge_schedule rel_uid ups defs))
                <-> In x (map rel_uid ups) \/ x ∈ rels_pending_tracker o)).
Proof.
  intros Hs Hm. split.
  - intros ups Hu Hmax Hp. split_and!.
    + rewrite way_pass_generic.
      apply g_pass_spec;
        first [ done | apply way_replay_set_pending
              | apply way_handle_set_pending ].
    + by apply merge_schedule_sorted.
    + intros x. rewrite merge_schedule_ids, Hp, elem_of_list_to_set.
      by rewrite list_elem_of_In.
  - intros ups Hu Hmax Hp. split_and!.
    + rewrite rel_pass_generic.
      apply g_pass_spec;
        first [ done | apply rel_replay_set_pending
              | intros; apply pgsql_process_relation_set_pending ].
    + by apply merge_schedule_sorted.
    + intros x. rewrite merge_schedule_ids, Hp, elem_of_list_to_set.
      by rewrite list_elem_of_In.
Qed.

(** *** Ways marked done *)

(** The calls the host makes on the call-back object of the ways pass. *)
Inductive way_cb_op : Type :=
  | CbCall (id : osmid_t) (tags : keyval) (nodes : list osmNode) (exists_ : bool)
  | CbFinish (exists_ : bool).

Definition way_cb_step (cb : cb_func) (op : way_cb_op) : cb_func :=
  match op with
  | CbCall id tags nodes exists_ => way_cb_call E id tags nodes exists_ cb
  | CbFinish exists_ => way_cb_finish E exists_ cb
  end.

Definition way_cb_run (ops : list way_cb_op) (cb : cb_func) : cb_func :=
  fold_left way_cb_step ops cb.

(** From [o] to [o'] no command about [W] was sent to any table, and [W]
    is marked done in both. *)
Definition untouched (W : osmid_t) (o o' : output_pgsql_t) : Prop :=
  all_extend (fun _ => not_about W) o o' /\
  ways_done_tracker o' = ways_done_tracker o.

Lemma untouched_refl W o : untouched W o o.
Proof. split; [apply all_extend_refl|done]. Qed.

Lemma untouched_trans W o1 o2 o3 :
  untouched W o1 o2 -> untouched W o2 o3 -> untouched W o1 o3.
Proof.
  intros [H1 H1'] [H2 H2']. split; [by eapply all_extend_trans|congruence].
Qed.

Lemma untouched_out_way W id tags nodes exists_ o :
  is_marked W (ways_done_tracker o) = true ->
  untouched W o
    (if is_marked id (ways_done_tracker o) then o
     else pgsql_out_way E id tags nodes exists_ o).
Proof.
  intros HW. destruct (is_marked id (ways_done_tracker o)) eqn:Hid;
    [apply untouched_refl|].
  assert (id <> W) by (intros ->; congruence).
  split; [|apply pgsql_out_way_trackers].
  eapply all_extend_weaken; [|apply pgsql_out_way_extend].
  intros _ [r| |y]; simpl; try done; intros ->; done.
Qed.

Lemma untouched_set_pending W p o : untouched W o (set_ways_pending p o).
Proof. split; [apply same_tables_extend; by intros []|done]. Qed.

Lemma untouched_pop W o :
  untouched W o
    (m_ptr (let '(next, p) := pop_mark (ways_pending_tracker o) in
            mk_cb next (set_ways_pending p o))).
Proof. destruct (pop_mark _). apply untouched_set_pending. Qed.

Lemma untouched_loop W fuel id exists_ cb :
  is_marked W (ways_done_tracker (m_ptr cb)) = true ->
  untouched W (m_ptr cb) (m_ptr (way_run_internal_loop E fuel id exists_ cb)).
Proof.
  revert cb. induction fuel as [|fuel IH]; intros cb HW; [apply untouched_refl|].
  cbn [way_run_internal_loop].
  destruct (m_next_internal_id cb <? id); [|apply untouched_refl].
  set (o1 := match ways_get (m_mid E) (m_next_internal_id cb) with
             | Some _ => _ | None => m_ptr cb end).
  assert (H1 : untouched W (m_ptr cb) o1).
  { subst o1. destruct (ways_get _ _) as [[tags nodes]|]; [|apply untouched_refl].
    pose proof (untouched_out_way W (m_next_internal_id cb) tags nodes exists_
                  (m_ptr cb) HW) as H.
    by destruct (is_marked (m_next_internal_id cb) _). }
  destruct (pop_mark (ways_pending_tracker o1)) as [next p].
  eapply untouched_trans; [exact H1|].
  eapply untouched_trans; [apply (untouched_set_pending W p)|].
  apply (IH (mk_cb next (set_ways_pending p o1))).
  cbn [m_ptr]. change (ways_done_tracker (set_ways_pending p o1))
    with (ways_done_tracker o1). destruct H1 as [_ ->]. done.
Qed.

Lemma untouched_step W cb op :
  is_marked W (ways_done_tracker (m_ptr cb)) = true ->
  untouched W (m_ptr cb) (m_ptr (way_cb_step cb op)).
Proof.
  intros HW. destruct op as [id tags nodes exists_|exists_].
  - cbn [way_cb_step]. unfold way_cb_call.
    set (cb1 := if m_next_internal_id cb <? id then _ else cb).
    assert (H1 : untouched W (m_ptr cb) (m_ptr cb1)).
    { subst cb1. destruct (_ <? _); [|apply untouched_refl].
      by apply untouched_loop. }
    set (cb2 := if m_next_internal_id cb1 =? id then _ else cb1).
    assert (H2 : untouched W (m_ptr cb1) (m_ptr cb2)).
    { subst cb2. destruct (_ =? _); [apply untouched_pop|apply untouched_refl]. }
    pose proof (untouched_trans _ _ _ _ H1 H2) as H12.
    eapply untouched_trans; [exact H12|].
    assert (HW2 : is_marked W (ways_done_tracker (m_ptr cb2)) = true).
    { destruct H12 as [_ ->]. done. }
    pose proof (untouched_out_way W id tags nodes exists_ (m_ptr cb2) HW2) as H3.
    by destruct (is_marked id _).
  - by apply untouched_loop.
Qed.

Lemma untouched_run W ops cb :
  is_marked W (ways_done_tracker (m_ptr cb)) = true ->
  untouched W (m_ptr cb) (m_ptr (way_cb_run ops cb)).
Proof.
  revert cb. induction ops as [|op ops IH]; intros cb HW; [apply untouched_refl|].
  cbn [way_cb_run fold_left].
  pose proof (untouched_step W cb op HW) as H1.
  eapply untouched_trans; [exact H1|]. apply IH.
  destruct H1 as [_ ->]. done.
Qed.

(** C2, amended: a way id the supersession loop of relation processing
    marks is marked in ways_done from then on; and for a way id [W] marked
    in ways_done, whatever calls the ways pass makes on the call-back
    object (upstream calls and [finish()], hence the deferred replay too),
    the rows with osm_id [W] in the COPY stream and in the contents of
    every table are the same afterwards as before, and [W] is still
    marked.  The test of ways_done is in the call-back object; [way_add]
    and [way_modify] do not make it. *)
Theorem done_ways_suppressed (W : osmid_t) :
  (forall id rel_tags ways xrole o,
     In W (rel_marks E id rel_tags ways xrole) ->
     is_marked W (ways_done_tracker
                    (pgsql_out_relation E id rel_tags ways xrole o)) = true) /\
  (forall ops cb,
     is_marked W (ways_done_tracker (m_ptr cb)) = true ->
     is_marked W (ways_done_tracker (m_ptr (way_cb_run ops cb))) = true /\
     forall i,
       rows_with W (copied_rows (m_tables i (m_ptr (way_cb_run ops cb))))
         = rows_with W (copied_rows (m_tables i (m_ptr cb))) /\
       rows_with W (table_rows (m_tables i (m_ptr (way_cb_run ops cb))))
         = rows_with W (table_rows (m_tables i (m_ptr cb)))).
Proof.
  split.
  - intros id rel_tags ways xrole o HW.
    destruct (pgsql_out_relation_spec E id rel_tags ways xrole o)
      as (_ & _ & -> & _).
    unfold is_marked. apply bool_decide_eq_true.
    apply elem_of_union_l, elem_of_list_to_set, list_elem_of_In, HW.
  - intros ops cb HW. destruct (untouched_run W ops cb HW) as [He Hd].
    split; [by rewrite Hd|]. intros i.
    destruct (extends_not_about W _ _ (He i)) as [H1 H2]. done.
Qed.

End Iteration.

(** ** A small world to run the emitter in *)

Definition d_zero : double := S754_zero false.
Definition d_one : double := S754_finite false 1 0.

Definition has_key (k : string) (tags : keyval) : bool :=
  match getItem tags k with Some _ => true | None => false end.

(** Ways are kept when tagged; building and natural make polygons,
    highway makes roads.  Relations supersede all their member ways. *)
Definition demo_tagtransform : tagtransform :=
  mk_tagtransform
    (fun tags _ => match tags with [] => true | _ => false end)
    (fun tags _ =>
       (match tags with [] => true | _ => false end,
        (has_key "building" tags || has_key "natural" tags)%bool,
        has_key "highway" tags))
    (fun tags _ => match tags with [] => true | _ => false end)
    (fun rel_tags xtags _ _ =>
       mk_verdict false (map (fun _ => true) xtags)
         (match getItem rel_tags "type" with
          | Some t => String.eqb t "boundary" | None => false end)
         (match getItem rel_tags "type" with
          | Some t => String.eqb t "multipolygon" | None => false end)
         false).

(** A polygon build of fewer than three nodes collapses to a line. *)
Definition demo_builder : build_geometry :=
  mk_builder
    (fun nodes polygon _ =>
       if (polygon && (2 <? Z.of_nat (length nodes)))%bool
       then [("POLYGON((0 0,1 0,1 1,0 0))", d_one)]
       else [("LINESTRING(0 0,1 1)", d_zero)])
    (fun _ _ make_polygon _ _ =>
       if make_polygon
       then [("MULTIPOLYGON(((0 0,1 0,1 1,0 0)))", d_one)]
       else [("LINESTRING(0 0,1 1)", d_zero)]).

Definition demo_node : osmNode := mk_osmNode d_zero d_zero.

Definition demo_mid : middle_query_t :=
  mk_middle
    (fun nds => map (fun _ => demo_node) nds)
    (fun id => if (id =? 2) || (id =? 9) || (id =? 10)
               then Some ([("natural", "water")], [demo_node; demo_node; demo_node])
               else None)
    (fun ids => map (fun id => (id, [("natural", "water")],
                                [demo_node; demo_node; demo_node])) ids)
    (fun _ => None)
    (fun _ => []).

Definition demo_expire : expire_tiles :=
  mk_expire (fun t id => Z.of_nat (length (rows_with id (table_rows t)))).

Definition demo_env (slim_mode way_area : bool) : output_env :=
  mk_env (mk_options slim_mode false false false) empty_export_list way_area
    demo_tagtransform demo_builder demo_mid demo_expire (fun _ => "1").

Definition empty_output : output_pgsql_t := mk_output [] [] [] [] ∅ ∅ ∅.

(** The line table already holds a row of way 10. *)
Definition output_with_way_10 : output_pgsql_t :=
  mk_output []
    [CopyRow (mk_row 10 [("natural", "water")] (Wkt "LINESTRING(0 0,1 1)"))]
    [] [] ∅ ∅ ∅.

(** Ways 2 and 9 are pending. *)
Definition output_pending_2_9 : output_pgsql_t :=
  mk_output [] [] [] [] (list_to_set [2; 9]) ∅ ∅.

(** Way 10 is marked done. *)
Definition output_done_10 : output_pgsql_t :=
  mk_output [] [] [] [] ∅ {[ 10 ]} ∅.

Definition relation_99_members : list member :=
  [mk_member OSMTYPE_WAY 10 "outer"].

Definition relation_99_tags : keyval := [("type", "multipolygon")].

Definition relation_99_ways : list (osmid_t * keyval * list osmNode) :=
  [(10, [("natural", "water")], [demo_node; demo_node; demo_node])].

Definition upstream_3_9 : list way_item :=
  [(3, [("highway", "x")], [demo_node; demo_node]);
   (9, [("natural", "water")], [demo_node; demo_node; demo_node])].

Lemma demo_from_db_probes slim_mode way_area :
  from_db_probes (demo_env slim_mode way_area).
Proof.
  intros t y H. simpl. destruct (rows_with y (table_rows t)); [done|].
  simpl. lia.
Qed.

(** ** The theorems at work *)

Lemma merged_traversal_witness :
  way_pass (demo_env true true) true upstream_3_9 output_pending_2_9
  = mk_cb osmid_max
      (set_ways_pending ∅
         (fold_left (do_visit (way_replay (demo_env true true) true)
                       (way_handle (demo_env true true) true))
            (merge_schedule way_uid upstream_3_9 [2; 9]) output_pending_2_9)) /\
  map (visit_id way_uid) (merge_schedule way_uid upstream_3_9 [2; 9]) = [2; 3; 9].
Proof.
  assert (Hs : StronglySorted Z.lt [2; 9]).
  { apply SSorted_cons; [apply SSorted_cons; [apply SSorted_nil|apply List.Forall_nil]|].
    apply List.Forall_cons; [reflexivity|apply List.Forall_nil]. }
  assert (Hm : Forall (fun d => d < osmid_max) [2; 9]).
  { apply List.Forall_cons; [reflexivity|].
    apply List.Forall_cons; [reflexivity|apply List.Forall_nil]. }
  destruct (merged_traversal (demo_env true true) true [2; 9]
              output_pending_2_9 Hs Hm) as [Hw _].
  assert (Hu : StronglySorted Z.lt (map way_uid upstream_3_9)).
  { apply SSorted_cons; [apply SSorted_cons; [apply SSorted_nil|apply List.Forall_nil]|].
    apply List.Forall_cons; [reflexivity|apply List.Forall_nil]. }
  assert (Hx : Forall (fun u => way_uid u <= osmid_max) upstream_3_9).
  { apply List.Forall_cons; [discriminate|].
    apply List.Forall_cons; [discriminate|apply List.Forall_nil]. }
  destruct (Hw upstream_3_9 Hu Hx eq_refl) as (H1 & _).
  split; [exact H1|vm_compute; reflexivity].
Defined.

Lemma done_ways_suppressed_witness :
  is_marked 10
    (ways_done_tracker
       (m_ptr (way_cb_run (demo_env true true)
                 [CbCall 10 [("natural", "water")]
                    [demo_node; demo_node; demo_node] true; CbFinish true]
                 (way_cb_func output_done_10)))) = true /\
  rows_with 10
    (copied_rows
       (m_tables t_poly
          (m_ptr (way_cb_run (demo_env true true)
                    [CbCall 10 [("natural", "water")]
                       [demo_node; demo_node; demo_node] true; CbFinish true]
                    (way_cb_func output_done_10))))) = [].
Proof.
  destruct (done_ways_suppressed (demo_env true true) 10) as [_ H].
  destruct (H [CbCall 10 [("natural", "water")]
                 [demo_node; demo_node; demo_node] true; CbFinish true]
              (way_cb_func output_done_10)) as [H1 H2].
  - vm_compute. reflexivity.
  - split; [exact H1|]. destruct (H2 t_poly) as [H3 _]. exact H3.
Defined.

(** C2, as stated, fails outside the ways pass: relation 99 marks way 10
    done, and a [way_add] of way 10 that follows in the same run, with tags
    that make it a road, streams a row with osm_id 10 to the line table. *)
Lemma done_way_written_by_way_add :
  let E := demo_env true true in
  let o1 := relation_add E 99 relation_99_members relation_99_tags
              empty_output in
  let o2 := way_add E 10 [1; 2] [("highway", "residential")] o1 in
  is_marked 10 (ways_done_tracker o1) = true /\
  copied_rows (m_tables t_line o2)
  = copied_rows (m_tables t_line o1)
    ++ [mk_row 10 [("highway", "residential")] (Wkt "LINESTRING(0 0,1 1)")] /\
  rows_with 10 (copied_rows (m_tables t_line o2))
  <> rows_with 10 (copied_rows (m_tables t_line o1)).
Proof.
  cbv zeta. split; [vm_compute; reflexivity|].
  split; [vm_compute; reflexivity|]. vm_compute. discriminate.
Qed.

(** Way 10 added as a highway, slim mode off: it has a row in the line
    table and one in the roads table. *)
Definition output_after_way_10 : output_pgsql_t :=
  way_add (demo_env false true) 10 [1; 2] [("highway", "residential")]
    empty_output.

(** C3, as stated, fails when slim mode is off: after way 10 was added,
    relation 99 is built as a polygon with way 10 flagged superseded and
    marked done, and the rows of way 10 stay where they are. *)
Lemma superseded_rows_kept_without_slim :
  v_make_polygon
    (rel_verdict (demo_env false true) relation_99_tags relation_99_ways
       [Some "outer"]) = true /\
  v_superseeded
    (rel_verdict (demo_env false true) relation_99_tags relation_99_ways
       [Some "outer"]) = [true] /\
  ~ (is_marked 10
       (ways_done_tracker
          (relation_add (demo_env false true) 99 relation_99_members
             relation_99_tags output_after_way_10)) = true /\
     rows_with 10
       (table_rows
          (m_tables t_line
             (relation_add (demo_env false true) 99 relation_99_members
                relation_99_tags output_after_way_10))) = [] /\
     rows_with 10
       (table_rows
          (m_tables t_roads
             (relation_add (demo_env false true) 99 relation_99_members
                relation_99_tags output_after_way_10))) = []).
Proof.
  split; [vm_compute; reflexivity|]. split; [vm_compute; reflexivity|].
  intros (_ & H & _). vm_compute in H. discriminate.
Qed.

Lemma superseded_members_marked_witness :
  ways_done_tracker
    (pgsql_out_relation (demo_env true true) 99 relation_99_tags
       relation_99_ways [Some "outer"] output_with_way_10)
  = list_to_set [10] ∪ ∅ /\
  rows_with 10
    (table_rows
       (m_tables t_line
          (pgsql_out_relation (demo_env true true) 99 relation_99_tags
             relation_99_ways [Some "outer"] output_with_way_10))) = [].
Proof.
  destruct (superseded_members_marked (demo_env true true) 99 relation_99_tags
              relation_99_ways [Some "outer"] output_with_way_10)
    as (H1 & H2 & _).
  - vm_compute. reflexivity.
  - vm_compute. discriminate.
  - repeat constructor. simpl. discriminate.
  - split; [exact H1|].
    apply (H2 eq_refl eq_refl (demo_from_db_probes true true) 10 t_line).
    + simpl. by left.
    + lia.
    + discriminate.
Defined.

(** A way with the polygon flag whose build collapses to a line goes to
    the line table; one whose build is a POLYGON goes to the polygon table;
    a highway goes to the line and the roads table; the MULTIPOLYGON of a
    relation goes to the polygon table. *)
Lemma table_follows_wkt_prefix_witness :
  filter_way_tags demo_tagtransform [("natural", "water")] empty_export_list
    = (false, true, false) /\
  streamed 5 false [] ["LINESTRING(0 0,1 1)"] empty_output
    (pgsql_out_way (demo_env false true) 5 [("natural", "water")]
       [demo_node; demo_node] false empty_output) /\
  streamed 6 false ["POLYGON((0 0,1 0,1 1,0 0))"] [] empty_output
    (pgsql_out_way (demo_env false true) 6 [("natural", "water")]
       [demo_node; demo_node; demo_node] false empty_output) /\
  streamed 7 true [] ["LINESTRING(0 0,1 1)"] empty_output
    (pgsql_out_way (demo_env false true) 7 [("highway", "residential")]
       [demo_node; demo_node] false empty_output) /\
  streamed (- 99) false (["MULTIPOLYGON(((0 0,1 0,1 1,0 0)))"] ++ []) []
    empty_output
    (pgsql_out_relation (demo_env false true) 99 relation_99_tags
       relation_99_ways [Some "outer"] empty_output) /\
  is_polygon_wkt "POLYGON((0 0,1 0,1 1,0 0))" = true /\
  is_polygon_wkt "MULTIPOLYGON(((0 0,1 0,1 1,0 0)))" = true /\
  ~ In "LINESTRING(0 0,1 1)"
      (poly_wkts [("LINESTRING(0 0,1 1)", d_zero);
                  ("POLYGON((0 0,1 0,1 1,0 0))", d_one)]).
Proof.
  split; [vm_compute; reflexivity|].
  destruct (table_follows_wkt_prefix (demo_env false true))
    as (Hw & Hr & Hp & _ & Hb & _ & _).
  split_and!.
  - exact (Hw 5 [("natural", "water")] [demo_node; demo_node] false
             empty_output).
  - exact (Hw 6 [("natural", "water")] [demo_node; demo_node; demo_node] false
             empty_output).
  - exact (Hw 7 [("highway", "residential")] [demo_node; demo_node] false
             empty_output).
  - exact (Hr 99 relation_99_tags relation_99_ways [Some "outer"] empty_output).
  - apply Hb. exists "((0 0,1 0,1 1,0 0))". by left.
  - apply Hb. exists "(((0 0,1 0,1 1,0 0)))". by right.
  - intros Hin. apply Hp in Hin. discriminate Hin.
Defined.

Lemma row_key_sign_witness :
  new_rows (fun k => k < 0) output_with_way_10
    (snd (pgsql_process_relation (demo_env true true) 99 relation_99_members
            relation_99_tags true output_with_way_10)) /\
  new_rows (fun k => 0 < k) output_with_way_10
    (pgsql_out_way (demo_env true true) 99 [("highway", "x")]
       [demo_node; demo_node] true output_with_way_10).
Proof.
  destruct (row_key_sign (demo_env true true) 99) as (_ & _ & _ & H).
  destruct H as (Hr & Hw & _); [lia|]. split; [apply Hr|apply Hw].
Defined.

Lemma way_add_defers_polygons_witness :
  same_tables empty_output
    (way_add (demo_env false true) 7 [1; 2; 3] [("building", "yes")] empty_output) /\
  ways_pending_tracker
    (way_add (demo_env false true) 7 [1; 2; 3] [("building", "yes")] empty_output)
  = {[ 7 ]} ∪ ∅.
Proof.
  destruct (way_add_defers_polygons (demo_env false true) 7 [1; 2; 3]
              [("building", "yes")] empty_output false true false eq_refl)
    as (H & _ & _).
  destruct (H eq_refl eq_refl) as (H1 & H2 & _). split; [exact H1|exact H2].
Defined.

(** C8, as stated, fails: in [style_way_area_two_flags] the rule named
    way_area carries the DELETE flag (together with LINEAR), yet
    enable_way_area stays true. *)
Lemma way_area_kept_with_second_flag :
  match read_style_file (Some StyleFacts.style_way_area_two_flags) ""
          empty_export_list with
  | Return _ (enable, exl) =>
      ~ (enable = false <->
         exists t, (In t (node_infos exl) \/ In t (way_infos exl)) /\
                   name t = "way_area" /\
                   Z.land (flags t) FLAG_DELETE = FLAG_DELETE)
  | Exit _ => False
  end.
Proof.
  assert (Hr : read_style_file (Some StyleFacts.style_way_area_two_flags) ""
                 empty_export_list
               = Return [] (true,
                   mk_export_list
                     [mk_taginfo "highway" "text" FLAG_LINEAR;
                      mk_taginfo "way_area" "real" (Z.lor FLAG_DELETE FLAG_LINEAR)]
                     [mk_taginfo "highway" "text" FLAG_LINEAR] []))
    by (vm_compute; reflexivity).
  rewrite Hr. intros [_ H]. assert (Hf : true = false); [|discriminate].
  apply H. eexists. split; [right; right; left; reflexivity|].
  split; reflexivity.
Qed.

(** With way_area left on, the polygon row of a way of positive area
    carries the way's tags with way_area added; the first polygon row of an
    object of area zero carries the tags alone. *)
Lemma way_area_injection_witness :
  (exists new_poly,
     copied_rows
       (m_tables t_poly
          (pgsql_out_way (demo_env false true) 6 [("natural", "water")]
             [demo_node; demo_node; demo_node] false empty_output))
     = copied_rows (m_tables t_poly empty_output) ++ new_poly /\
     map way new_poly = map Wkt ["POLYGON((0 0,1 0,1 1,0 0))"] /\
     map row_tags new_poly = [[("way_area", "1"); ("natural", "water")]]) /\
  (exists row,
     poly_row_tags (demo_env false true) [("natural", "water")]
       ([] ++ d_zero :: [d_one])
     = [] ++ row :: poly_row_tags (demo_env false true) row [d_one] /\
     (row = [("natural", "water")]
      <-> ~ (true = true /\ double_gt0 d_zero = true))).
Proof.
  destruct (way_area_injection (demo_env false true)
              StyleFacts.style_way_area_two_flags "" [] true
              (mk_export_list
                 [mk_taginfo "highway" "text" FLAG_LINEAR;
                  mk_taginfo "way_area" "real" (Z.lor FLAG_DELETE FLAG_LINEAR)]
                 [mk_taginfo "highway" "text" FLAG_LINEAR] []))
    as (_ & _ & Hw & _ & Hrow).
  - vm_compute. reflexivity.
  - reflexivity.
  - split.
    + exact (Hw 6 [("natural", "water")] [demo_node; demo_node; demo_node]
               false empty_output).
    + destruct (Hrow [("natural", "water")] [] d_zero [d_one])
        as (row & H1 & _ & H2).
      exists row. split; [exact H1|exact H2].
Defined.

Lemma delete_skipped_without_slim_witness :
  pgsql_delete_way_from_output (demo_env false true) 10 output_with_way_10
  = output_with_way_10 /\
  way_delete (demo_env false true) 10 output_with_way_10
  = Exit [CannotApplyDiffs].
Proof.
  destruct (delete_skipped_without_slim (demo_env false true)) as (H1 & H2 & _).
  - left. reflexivity.
  - split; [apply H1|apply H2].
Defined.

End OutputFacts.

(** * More on the style reader *)

Module StyleMore.
Import Style StyleFacts.

(** A rule as the line loop sees it: the text of the OSM type field and the
    entry built from the line. *)
Definition rule : Type := (string * taginfo)%type.

Definition for_nodes (r : rule) : bool := strstr (fst r) "node".
Definition for_ways (r : rule) : bool := strstr (fst r) "way".

(** The two [exlist->add] calls of one line. *)
Definition add_rule (r : rule) (e : export_list) : export_list :=
  let e1 := if for_nodes r then export_list_add OSMTYPE_NODE (snd r) e else e in
  if for_ways r then export_list_add OSMTYPE_WAY (snd r) e1 else e1.

Definition add_rules (rs : list rule) (e : export_list) : export_list :=
  fold_left (fun e r => add_rule r e) rs e.

Fixpoint all_chars (p : ascii -> bool) (s : string) : bool :=
  match s with
  | EmptyString => true
  | String c r => (p c && all_chars p r)%bool
  end.

(** A line with nothing but white space before its end or its comment. *)
Definition blank_line (buffer : string) : bool :=
  all_chars isspace (strip_comment buffer).

(** What a [%<w>s] conversion can store. *)
Definition field_ok (w : nat) (t : string) : Prop :=
  t <> EmptyString /\ (String.length t <= w)%nat /\
  all_chars (fun c => negb (isspace c)) t = true /\
  str_has "#" t = false.

(** The mask of the first token of a flags field, 0 when it has none or the
    token is no flag. *)
Definition first_token_mask (text : string) : Z :=
  match strtok_all EmptyString text with
  | [] => 0
  | tok :: _ =>
      match lookup_flag tagflags tok with Some f => f | None => 0 end
  end.

(** The readers that differ in the line count and in what was printed
    only. *)
Definition same_rules (st st' : reader) : Prop :=
  num_read st = num_read st' /\ flags_buf st = flags_buf st' /\
  exlist st = exlist st' /\ enable_way_area st = enable_way_area st'.

(** ** Comments and blank lines *)

Lemma strip_comment_hash (p c : string) :
  strip_comment (p ++ String "#" c) = strip_comment p.
Proof.
  induction p as [|a p IH]; simpl; [done|].
  destruct (Ascii.eqb a "#"); [done|]. by rewrite IH.
Qed.

Lemma skip_space_blank (s : string) :
  all_chars isspace s = true -> skip_space s = EmptyString.
Proof.
  induction s as [|a s IH]; simpl; [done|].
  intros [Ha Hs]%andb_true_iff. rewrite Ha. by apply IH.
Qed.

Lemma skip_space_head (s : string) :
  match skip_space s with
  | EmptyString => all_chars isspace s = true
  | String c _ => isspace c = false
  end.
Proof.
  induction s as [|a s IH]; simpl; [done|].
  destruct (isspace a) eqn:Ha; simpl; [apply IH|done].
Qed.

Lemma sscanf4_blank (s : string) :
  all_chars isspace s = true <-> fst (sscanf4 s) <= 0.
Proof.
  unfold sscanf4, scan_s. pose proof (skip_space_head s) as Hh.
  destruct (skip_space s) as [|c r] eqn:Hs.
  - simpl. split; [lia|done].
  - assert (all_chars isspace s = false) as ->.
    { destruct (all_chars isspace s) eqn:Ha; [|done].
      apply skip_space_blank in Ha. congruence. }
    destruct (scan_word 23 (String c r)) as [a r1].
    destruct (match skip_space r1 with "" => None | _ => _ end) as [[b r2]|];
      [|simpl; split; [done|lia]].
    destruct (match skip_space r2 with "" => None | _ => _ end) as [[c' r3]|];
      [|simpl; split; [done|lia]].
    destruct (match skip_space r3 with "" => None | _ => _ end) as [[d r4]|];
      simpl; (split; [done|lia]).
Qed.

Lemma blank_line_fields (b : string) :
  blank_line b = true <-> own_fields b <= 0.
Proof. apply sscanf4_blank. Qed.

Lemma style_line_blank (st : reader) (b : string) :
  blank_line b = true ->
  style_line st b =
  inr (mk_reader (lineno st + 1) (num_read st) (flags_buf st) (exlist st)
         (enable_way_area st) (err st)).
Proof.
  intros Hb%blank_line_fields. unfold own_fields in Hb. unfold style_line.
  destruct (sscanf4 (strip_comment b)) as [fields conv]. simpl in Hb.
  destruct (Z.leb_spec fields 0); [done|lia].
Qed.

(** The rule table does not depend on the line count or on what was
    printed so far. *)
Lemma style_line_same_rules (st st' : reader) (b : string) :
  same_rules st st' ->
  match style_line st b, style_line st' b with
  | inl _, inl _ => True
  | inr s, inr s' => same_rules s s'
  | _, _ => False
  end.
Proof.
  intros (Hn & Hf & He & Ha). unfold style_line.
  destruct (sscanf4 (strip_comment b)) as [fields conv].
  destruct (fields <=? 0); [done|].
  destruct (fields <? 3); [done|].
  assert (line_flags st conv = line_flags st' conv) as Hlf.
  { unfold line_flags. by rewrite Hf. }
  rewrite <- Hlf.
  pose proof (parse_flags_mask (lineno st + 1) (lineno st' + 1)
                (strtok_all "" (line_flags st conv)) 0) as Hm.
  destruct (parse_flags (lineno st + 1) _ 0) as [mask warns].
  destruct (parse_flags (lineno st' + 1) _ 0) as [mask' warns'].
  simpl in Hm. subst mask'.
  destruct (negb (mask =? FLAG_DELETE) && _)%bool; [done|].
  destruct (negb _); [done|].
  unfold same_rules. simpl. rewrite Hn, He, Ha. done.
Qed.

Lemma style_loop_same_rules (lines : list string) (st st' : reader) :
  same_rules st st' ->
  match style_loop lines st, style_loop lines st' with
  | inl _, inl _ => True
  | inr s, inr s' => same_rules s s'
  | _, _ => False
  end.
Proof.
  revert st st'. induction lines as [|b lines IH]; intros st st' H; simpl; [done|].
  pose proof (style_line_same_rules st st' b H) as Hb.
  destruct (style_line st b), (style_line st' b); try done. by apply IH.
Qed.

Lemma style_loop_drop_blank (lines : list string) (st st' : reader) :
  same_rules st st' ->
  match style_loop lines st,
        style_loop (List.filter (fun b => negb (blank_line b)) lines) st' with
  | inl _, inl _ => True
  | inr s, inr s' => same_rules s s'
  | _, _ => False
  end.
Proof.
  revert st st'. induction lines as [|b lines IH]; intros st st' H;
    cbn [style_loop List.filter]; [done|].
  destruct (blank_line b) eqn:Hb; cbn [negb style_loop].
  - rewrite (style_line_blank st b Hb). apply IH.
    destruct H as (?&?&?&?). by repeat split.
  - pose proof (style_line_same_rules st st' b H) as Hs.
    destruct (style_line st b), (style_line st' b); try done. by apply IH.
Qed.

(** X1: a trailing comment never changes how a line is read: whatever
    follows the first [#] of a line is ignored, and a line that is all
    comment or all white space only advances the line count. *)
Theorem comment_text_ignored (st : reader) (p c : string) :
  style_line st (p ++ String "#" c) = style_line st p /\
  (blank_line p = true ->
   style_line st (p ++ String "#" c) =
   inr (mk_reader (lineno st + 1) (num_read st) (flags_buf st) (exlist st)
          (enable_way_area st) (err st))).
Proof.
  assert (style_line st (p ++ String "#" c) = style_line st p) as H.
  { unfold style_line. by rewrite strip_comment_hash. }
  split; [done|]. intros Hb. rewrite H. by apply style_line_blank.
Qed.

Lemma comment_text_ignored_witness :
  style_line (mk_reader 0 0 "" empty_export_list true [])
    ("  " ++ String "#" " node,way highway text linear") =
  inr (mk_reader 1 0 "" empty_export_list true []).
Proof.
  apply (proj2 (comment_text_ignored
                  (mk_reader 0 0 "" empty_export_list true []) "  "
                  " node,way highway text linear")).
  reflexivity.
Defined.

(** X2: blank and comment-only lines carry no rule: a style file read
    without them gives the same result, the same way_area switch and the
    same export list, and exits exactly when the full file does. *)
Theorem blank_lines_carry_no_rule (f f' : FILE) (flags0 : string)
    (exl : export_list) :
  fgets_lines f' = List.filter (fun b => negb (blank_line b)) (fgets_lines f) ->
  read_error f' = read_error f ->
  match read_style_file (Some f) flags0 exl,
        read_style_file (Some f') flags0 exl with
  | Return _ r, Return _ r' => r = r'
  | Exit _, Exit _ => True
  | _, _ => False
  end.
Proof.
  intros Hl He. unfold read_style_file. rewrite Hl, He.
  pose proof (style_loop_drop_blank (fgets_lines f)
                (mk_reader 0 0 flags0 exl true [])
                (mk_reader 0 0 flags0 exl true [])) as H.
  specialize (H (conj eq_refl (conj eq_refl (conj eq_refl eq_refl)))).
  destruct (style_loop (fgets_lines f) _) as [e|s],
           (style_loop (List.filter _ _) _) as [e'|s']; simpl in H; try done.
  destruct H as (Hn & _ & Hx & Ha).
  destruct (read_error f); [done|]. rewrite <- Hn.
  destruct (num_read s =? 0); [done|]. by rewrite Hx, Ha.
Qed.

Definition style_with_blank_lines : FILE :=
  mk_FILE ("# columns" ++ String LF ("node,way highway text linear" ++
           String LF ("   " ++ String LF ("way building text polygon" ++
           String LF "")))) false.

Definition style_without_blank_lines : FILE :=
  mk_FILE ("node,way highway text linear" ++
           String LF ("way building text polygon" ++ String LF "")) false.

Lemma blank_lines_carry_no_rule_witness :
  match read_style_file (Some style_with_blank_lines) "" empty_export_list,
        read_style_file (Some style_without_blank_lines) "" empty_export_list
  with
  | Return _ r, Return _ r' => r = r'
  | Exit _, Exit _ => True
  | _, _ => False
  end.
Proof.
  apply (blank_lines_carry_no_rule style_with_blank_lines
           style_without_blank_lines "" empty_export_list); reflexivity.
Defined.

(** ** Flag tokens *)

Definition flag_bit (n : Z) (tok : string) : bool :=
  match lookup_flag tagflags tok with
  | Some f => Z.testbit f n
  | None => false
  end.

Lemma parse_flags_bits (l : Z) (toks : list string) (m n : Z) :
  Z.testbit (fst (parse_flags l toks m)) n =
  (Z.testbit m n || existsb (flag_bit n) toks)%bool.
Proof.
  revert m. induction toks as [|t toks IH]; intros m;
    cbn [parse_flags existsb].
  - simpl. by rewrite orb_false_r.
  - unfold flag_bit at 1. destruct (lookup_flag tagflags t) as [f|].
    + rewrite IH, Z.lor_spec. by rewrite orb_assoc.
    + specialize (IH m). destruct (parse_flags l toks m) as [m' w].
      simpl in *. by rewrite IH.
Qed.

(** X3: the mask of a flags field depends only on which known flag names
    occur in it: their order, repetitions and any unknown tokens between
    them make no difference. *)
Theorem flag_mask_by_token_set (l l' : Z) (toks toks' : list string) (m : Z) :
  (forall t, lookup_flag tagflags t <> None -> In t toks <-> In t toks') ->
  fst (parse_flags l toks m) = fst (parse_flags l' toks' m).
Proof.
  intros H. apply Z.bits_inj. intros n. rewrite !parse_flags_bits. f_equal.
  apply eq_true_iff_eq. rewrite !existsb_exists.
  split; intros (t & Hin & Hb); exists t; (split; [|done]);
    apply H; try done; unfold flag_bit in Hb;
    by destruct (lookup_flag tagflags t).
Qed.

Lemma flag_mask_by_token_set_witness :
  fst (parse_flags 1 ["linear"; "bogus"; "delete"; "linear"] 0) =
  fst (parse_flags 7 ["delete"; "linear"] 0).
Proof.
  apply flag_mask_by_token_set. intros t Ht.
  split; intros H; simpl in H;
    repeat match goal with H : _ \/ _ |- _ => destruct H as [<-|H] end;
    try (by destruct H); try (simpl; auto 10; fail); exfalso; by apply Ht.
Defined.

(** ** The rules a file holds *)

(** The text the [strtok] loop of a line runs over: the line's own fourth
    field, or what the [flags] array still holds. *)
Definition flags_text (buf : string) (b : string) : string :=
  if own_fields b =? 4 then own_field 3 b else buf.

(** The entry a line with at least three fields makes. *)
Definition line_rule (buf : string) (b : string) : rule :=
  (own_field 0 b,
   mk_taginfo (own_field 1 b) (own_field 2 b) (flags_mask (flags_text buf b))).

(** The rules of the lines of a file, in file order; [buf] is the [flags]
    array before the first of them. *)
Fixpoint file_rules (buf : string) (lines : list string) : list rule :=
  match lines with
  | [] => []
  | b :: rest =>
      if blank_line b then file_rules buf rest
      else line_rule buf b
             :: file_rules (strtok_residue false (flags_text buf b)) rest
  end.

Lemma scan_word_ok (c : ascii) (w : nat) (s t rest : string) :
  scan_word w s = (t, rest) ->
  (String.length t <= w)%nat /\
  all_chars (fun c => negb (isspace c)) t = true /\
  (str_has c s = false -> str_has c t = false /\ str_has c rest = false).
Proof.
  revert s t rest. induction w as [|w IH]; intros s t rest.
  - destruct s; simpl; intros [= <- <-]; simpl; repeat split; done || lia.
  - destruct s as [|a s]; cbn [scan_word].
    + intros [= <- <-]. simpl. repeat split; done || lia.
    + destruct (isspace a) eqn:Ha.
      * intros [= <- <-]. simpl. repeat split; done || lia.
      * destruct (scan_word w s) as [t' rest'] eqn:Hs. intros [= <- <-].
        destruct (IH _ _ _ Hs) as (Hl & Hc & Hh). simpl. rewrite Ha. simpl.
        split; [lia|]. split; [done|].
        intros [H1 H2]%orb_false_iff. rewrite H1. simpl. by apply Hh.
Qed.

Lemma skip_space_has (c : ascii) (s : string) :
  str_has c s = false -> str_has c (skip_space s) = false.
Proof.
  induction s as [|a s IH]; simpl; [done|].
  intros H. destruct (isspace a); [|done].
  apply orb_false_iff in H as [_ H]. by apply IH.
Qed.

Lemma scan_s_ok (w : nat) (s t rest : string) :
  scan_s (S w) s = Some (t, rest) ->
  str_has "#" s = false ->
  field_ok (S w) t /\ str_has "#" rest = false.
Proof.
  unfold scan_s. intros H Hh. pose proof (skip_space_head s) as Hd.
  apply skip_space_has in Hh.
  destruct (skip_space s) as [|a r] eqn:Hs; [done|].
  assert (scan_word (S w) (String a r) = (t, rest)) as H'
    by (by injection H).
  clear H. rename H' into H.
  destruct (scan_word_ok "#" _ _ _ _ H) as (Hl & Hc & Hx).
  destruct (Hx Hh) as [Ht Hr]. split; [|done].
  split; [|done]. cbn [scan_word] in H. rewrite Hd in H.
  destruct (scan_word w r). by injection H as <- <-.
Qed.

Lemma strip_comment_no_hash (b : string) :
  str_has "#" (strip_comment b) = false.
Proof.
  induction b as [|a b IH]; simpl; [done|].
  destruct (Ascii.eqb a "#") eqn:Ha; [done|]. simpl. by rewrite Ha.
Qed.

(** The first three fields of a line are never empty and never longer than
    the arrays they are read into. *)
Lemma sscanf4_fields (b : string) :
  3 <= own_fields b ->
  field_ok 23 (own_field 0 b) /\ field_ok 63 (own_field 1 b) /\
  field_ok 23 (own_field 2 b).
Proof.
  unfold own_fields, own_field, sscanf4.
  pose proof (strip_comment_no_hash b) as H0.
  destruct (scan_s 23 (strip_comment b)) as [[a r1]|] eqn:H1; [|simpl; lia].
  destruct (scan_s_ok _ _ _ _ H1 H0) as [Ha Hr1].
  destruct (scan_s 63 r1) as [[n r2]|] eqn:H2; [|simpl; lia].
  destruct (scan_s_ok _ _ _ _ H2 Hr1) as [Hn Hr2].
  destruct (scan_s 23 r2) as [[c r3]|] eqn:H3; [|simpl; lia].
  destruct (scan_s_ok _ _ _ _ H3 Hr2) as [Hc Hr3].
  destruct (scan_s 127 r3) as [[d r4]|]; simpl; done.
Qed.

(** One turn of the line loop, in terms of [line_rule]. *)
Lemma style_line_rule (st st' : reader) (b : string) :
  style_line st b = inr st' ->
  blank_line b = true /\ same_rules st st' \/
  blank_line b = false /\ 3 <= own_fields b /\
  exlist st' = add_rule (line_rule (flags_buf st) b) (exlist st) /\
  num_read st' = num_read st + 1 /\
  flags_buf st' = strtok_residue false (flags_text (flags_buf st) b) /\
  (for_nodes (line_rule (flags_buf st) b)
   || for_ways (line_rule (flags_buf st) b))%bool = true /\
  (has_wildcard (own_field 1 b) = true ->
   flags_mask (flags_text (flags_buf st) b) = FLAG_DELETE).
Proof.
  destruct (blank_line b) eqn:Hb.
  - rewrite (style_line_blank st b Hb). intros [= <-]. left.
    split; [done|]. by repeat split.
  - intros H. right. split; [done|].
    assert (~ own_fields b <= 0) as Hpos.
    { intros Hx%blank_line_fields. congruence. }
    revert H Hpos.
    unfold style_line, add_rule, line_rule, flags_text, for_nodes, for_ways,
      flags_mask, own_field, own_fields.
    destruct (sscanf4_shape (strip_comment b))
      as [H|[(a&H)|[(a&n&H)|[(a&n&c&H)|(a&n&c&d&H)]]]];
      rewrite H; cbn [fst snd nth Z.leb Z.ltb Z.compare Pos.compare
                      Pos.compare_cont Z.eqb Pos.eqb line_flags for_nodes
                      for_ways]; try done; try lia.
    all: match goal with
         | |- context [parse_flags ?l ?t 0] =>
             pose proof (parse_flags_mask l 0 t 0) as Hm;
             destruct (parse_flags l t 0) as [mask warns]
         end; simpl in Hm; rewrite <- Hm;
      destruct (has_wildcard n) eqn:Hw;
      destruct (Z.eqb_spec mask FLAG_DELETE) as [He|He]; simpl; try done;
      destruct (strstr a "node"), (strstr a "way"); simpl; try done;
      intros [= <-] _; simpl; repeat split; try done; try lia.
Qed.

Lemma add_rules_infos (rs : list rule) (e : export_list) :
  node_infos (add_rules rs e) =
    node_infos e ++ map snd (List.filter for_nodes rs) /\
  way_infos (add_rules rs e) =
    way_infos e ++ map snd (List.filter for_ways rs) /\
  relation_infos (add_rules rs e) = relation_infos e.
Proof.
  revert e. induction rs as [|r rs IH]; intros e.
  - simpl. by rewrite !app_nil_r.
  - change (add_rules (r :: rs) e) with (add_rules rs (add_rule r e)).
    destruct (IH (add_rule r e)) as (-> & -> & ->).
    cbn [List.filter]. unfold add_rule.
    destruct (for_nodes r), (for_ways r); simpl;
      rewrite <- ?app_assoc; done.
Qed.

(** What holds of every rule of a file that the reader accepts. *)
Definition rule_ok (r : rule) : Prop :=
  (for_nodes r || for_ways r)%bool = true /\
  field_ok 63 (name (snd r)) /\ field_ok 23 (type (snd r)) /\
  (has_wildcard (name (snd r)) = true -> flags (snd r) = FLAG_DELETE).

Lemma style_loop_rules (lines : list string) (st st' : reader) :
  style_loop lines st = inr st' ->
  exlist st' = add_rules (file_rules (flags_buf st) lines) (exlist st) /\
  num_read st' = num_read st + Z.of_nat (length (file_rules (flags_buf st) lines)) /\
  List.Forall rule_ok (file_rules (flags_buf st) lines).
Proof.
  revert st. induction lines as [|b lines IH]; intros st;
    cbn [style_loop file_rules].
  - intros [= <-]. simpl. split; [done|]. split; [lia|]. constructor.
  - destruct (style_line st b) as [|st1] eqn:Hb; [done|]. intros H.
    destruct (IH _ H) as (He & Hn & Hok).
    destruct (style_line_rule _ _ _ Hb)
      as [(Hbl & Hn1 & Hf1 & He1 & _)|(Hbl & H3 & He1 & Hn1 & Hf1 & Hk & Hw)];
      rewrite Hbl.
    + rewrite Hf1, He1, Hn1. done.
    + rewrite <- Hf1. cbn [length add_rules fold_left].
      rewrite <- He1. split; [done|]. split; [lia|].
      apply List.Forall_cons; [|done].
      destruct (sscanf4_fields b H3) as (_ & Hname & Htype).
      unfold rule_ok. by split_and!.
Qed.

(** A successful read, in terms of the rules of the file. *)
Lemma read_style_file_rules (f : FILE) (flags0 : string)
    (exl exl' : export_list) (w : list diag) (en : bool) :
  read_style_file (Some f) flags0 exl = Return w (en, exl') ->
  let rules := file_rules flags0 (fgets_lines f) in
  rules <> [] /\ exl' = add_rules rules exl /\ List.Forall rule_ok rules.
Proof.
  unfold read_style_file.
  destruct (style_loop (fgets_lines f) _) as [|st] eqn:Hl; [done|].
  destruct (read_error f); [done|].
  destruct (Z.eqb_spec (num_read st) 0) as [|Hn]; [done|].
  intros [= _ _ <-]. apply style_loop_rules in Hl as (He & Hnum & Hok).
  simpl in *. split; [|done].
  intros Hx. rewrite Hx in Hnum. simpl in Hnum. lia.
Qed.

(** The entries a read adds come from the rules of the file. *)
Lemma added_entry_rule (rules : list rule) (exl : export_list) (t : taginfo) :
  In t (node_infos (add_rules rules exl) ++ way_infos (add_rules rules exl)) ->
  In t (node_infos exl ++ way_infos exl) \/
  exists r, In r rules /\ snd r = t.
Proof.
  destruct (add_rules_infos rules exl) as (-> & -> & _).
  rewrite !in_app_iff.
  intros [[Hin|Hin]|[Hin|Hin]]; auto;
    apply in_map_iff in Hin as (r & <- & Hr);
    apply filter_In in Hr as [Hr _]; right; by exists r.
Qed.

(** X4: the export list after a successful read is the one before it with
    the rules of the file appended in file order: every rule whose type
    field names nodes goes to the node list, every rule whose type field
    names ways to the way list (a rule can go to both), and the relation
    list is left alone.  The file holds at least one rule. *)
Theorem rules_appended_in_file_order (f : FILE) (flags0 : string)
    (exl exl' : export_list) (w : list diag) (en : bool) :
  read_style_file (Some f) flags0 exl = Return w (en, exl') ->
  let rules := file_rules flags0 (fgets_lines f) in
  rules <> [] /\
  node_infos exl' = node_infos exl ++ map snd (List.filter for_nodes rules) /\
  way_infos exl' = way_infos exl ++ map snd (List.filter for_ways rules) /\
  relation_infos exl' = relation_infos exl.
Proof.
  intros H. destruct (read_style_file_rules _ _ _ _ _ _ H) as (Hne & -> & _).
  split; [done|]. apply add_rules_infos.
Qed.

Definition style_two_rules : FILE :=
  mk_FILE ("node,way highway text linear" ++
           String LF ("way building text polygon" ++ String LF "")) false.

Lemma rules_appended_in_file_order_witness :
  let rules := file_rules "" (fgets_lines style_two_rules) in
  let exl' := mk_export_list
                [mk_taginfo "highway" "text" FLAG_LINEAR;
                 mk_taginfo "building" "text" FLAG_POLYGON]
                [mk_taginfo "highway" "text" FLAG_LINEAR] [] in
  rules <> [] /\
  node_infos exl' = [] ++ map snd (List.filter for_nodes rules) /\
  way_infos exl' = [] ++ map snd (List.filter for_ways rules) /\
  relation_infos exl' = [].
Proof.
  apply (rules_appended_in_file_order style_two_rules "" empty_export_list
           _ [] true).
  reflexivity.
Defined.

(** X5: every entry a successful read adds has a name of 1 to 63 characters
    and a type of 1 to 23 characters, with no white space and no [#] in
    either. *)
Theorem entry_fields_bounded (f : FILE) (flags0 : string)
    (exl exl' : export_list) (w : list diag) (en : bool) (t : taginfo) :
  read_style_file (Some f) flags0 exl = Return w (en, exl') ->
  In t (node_infos exl' ++ way_infos exl') ->
  In t (node_infos exl ++ way_infos exl) \/
  field_ok 63 (name t) /\ field_ok 23 (type t).
Proof.
  intros H Hin.
  destruct (read_style_file_rules _ _ _ _ _ _ H) as (_ & -> & Hok).
  apply added_entry_rule in Hin as [Hin|(r & Hr & <-)]; [by left|right].
  rewrite List.Forall_forall in Hok. by destruct (Hok r Hr) as (_&?&?&_).
Qed.

Lemma entry_fields_bounded_witness :
  In (mk_taginfo "building" "text" FLAG_POLYGON) [] \/
  field_ok 63 "building" /\ field_ok 23 "text".
Proof.
  apply (entry_fields_bounded style_two_rules "" empty_export_list
           (mk_export_list
                [mk_taginfo "highway" "text" FLAG_LINEAR;
                 mk_taginfo "building" "text" FLAG_POLYGON]
                [mk_taginfo "highway" "text" FLAG_LINEAR] []) [] true
           (mk_taginfo "building" "text" FLAG_POLYGON)).
  - reflexivity.
  - simpl. auto.
Defined.

(** X6: after a successful read, every added entry whose name holds a
    wildcard ([?] or [*]) has exactly the DELETE flag and no other. *)
Theorem wildcard_entries_are_delete (f : FILE) (flags0 : string)
    (exl exl' : export_list) (w : list diag) (en : bool) (t : taginfo) :
  read_style_file (Some f) flags0 exl = Return w (en, exl') ->
  In t (node_infos exl' ++ way_infos exl') ->
  has_wildcard (name t) = true ->
  In t (node_infos exl ++ way_infos exl) \/ flags t = FLAG_DELETE.
Proof.
  intros H Hin Hw.
  destruct (read_style_file_rules _ _ _ _ _ _ H) as (_ & -> & Hok).
  apply added_entry_rule in Hin as [Hin|(r & Hr & <-)]; [by left|right].
  rewrite List.Forall_forall in Hok. destruct (Hok r Hr) as (_&_&_&Hd).
  by apply Hd.
Qed.

Definition style_wildcard_delete : FILE :=
  mk_FILE ("node,way note:* text delete" ++
           String LF ("way building text polygon" ++ String LF "")) false.

Lemma wildcard_entries_are_delete_witness :
  In (mk_taginfo "note:*" "text" FLAG_DELETE) [] \/
  flags (mk_taginfo "note:*" "text" FLAG_DELETE) = FLAG_DELETE.
Proof.
  apply (wildcard_entries_are_delete style_wildcard_delete ""
           empty_export_list
           (mk_export_list
                [mk_taginfo "note:*" "text" FLAG_DELETE;
                 mk_taginfo "building" "text" FLAG_POLYGON]
                [mk_taginfo "note:*" "text" FLAG_DELETE] []) [] true
           (mk_taginfo "note:*" "text" FLAG_DELETE)).
  - reflexivity.
  - simpl. auto.
  - reflexivity.
Defined.

(** ** The flags of a line without a flags field *)

Lemma strtok_residue_tokens (s : string) :
  (forall cur, cur <> EmptyString ->
     strtok_all cur (strtok_residue true s) = firstn 1 (strtok_all cur s)) /\
  strtok_all EmptyString (strtok_residue false s)
  = firstn 1 (strtok_all EmptyString s).
Proof.
  induction s as [|c r [IHt IHf]]; split.
  - intros cur Hc. by destruct cur.
  - done.
  - intros cur Hc. cbn [strtok_residue strtok_all].
    destruct (is_delim c) eqn:Hd.
    + destruct cur; [done|]. done.
    + cbn [strtok_all]. rewrite Hd. apply IHt. by destruct cur.
  - cbn [strtok_residue strtok_all]. destruct (is_delim c) eqn:Hd.
    + cbn [strtok_all]. by rewrite Hd.
    + cbn [strtok_all]. rewrite Hd. by apply IHt.
Qed.

(** After the [strtok] loop has run over a flags field, the array reads as
    the first token of the field. *)
Lemma flags_mask_residue (d : string) :
  flags_mask (strtok_residue false d) = first_token_mask d.
Proof.
  unfold flags_mask, first_token_mask.
  rewrite (proj2 (strtok_residue_tokens d)).
  destruct (strtok_all "" d) as [|t toks]; [done|].
  cbn [firstn parse_flags]. by destruct (lookup_flag tagflags t).
Qed.

(** X7: [sscanf] leaves the [flags] array alone when a line has no fourth
    field, so a three-field line that follows a four-field line gets the
    flag of the first token of that line's flags field (and no flag when
    that token is not a flag name), whatever else the earlier line set. *)
Theorem three_field_line_reuses_flags (st st2 : reader) (b1 b2 : string) :
  style_loop [b1; b2] st = inr st2 ->
  own_fields b1 = 4 -> own_fields b2 = 3 ->
  exlist st2 =
  add_rule (own_field 0 b2,
            mk_taginfo (own_field 1 b2) (own_field 2 b2)
              (first_token_mask (own_field 3 b1)))
    (add_rule (own_field 0 b1,
               mk_taginfo (own_field 1 b1) (own_field 2 b1) (own_mask b1))
       (exlist st)).
Proof.
  intros H H1 H2. apply style_loop_rules in H as (He & _ & _).
  revert He. cbn [file_rules].
  assert (blank_line b1 = false) as ->.
  { destruct (blank_line b1) eqn:Hb; [|done].
    apply blank_line_fields in Hb. lia. }
  assert (blank_line b2 = false) as ->.
  { destruct (blank_line b2) eqn:Hb; [|done].
    apply blank_line_fields in Hb. lia. }
  unfold line_rule, flags_text. rewrite H1, H2. cbn [Z.eqb Pos.eqb].
  intros ->. by rewrite flags_mask_residue.
Qed.

Lemma three_field_line_reuses_flags_witness :
  exlist (mk_reader 2 2 "linear"
            (mk_export_list
               [mk_taginfo "highway" "text" 3;
                mk_taginfo "building" "text" FLAG_LINEAR] [] [])
            true []) =
  add_rule ("way", mk_taginfo "building" "text" (first_token_mask "linear,polygon"))
    (add_rule ("way", mk_taginfo "highway" "text" 3) empty_export_list).
Proof.
  apply (three_field_line_reuses_flags
           (mk_reader 0 0 "" empty_export_list true [])
           (mk_reader 2 2 "linear"
              (mk_export_list
                 [mk_taginfo "highway" "text" 3;
                  mk_taginfo "building" "text" FLAG_LINEAR] [] [])
              true [])
           "way highway text linear,polygon" "way building text");
    reflexivity.
Defined.

(** ** A line with too few fields *)

(** X26: the reader stops at the first line with one or two fields: when
    the lines before it are read without an exit, the run exits there, and
    the last thing printed names the line by its number in the file and
    gives the number of fields found; no later line is read. *)
Theorem short_line_exits (f : FILE) (flags0 : string) (exl : export_list)
    (pre post : list string) (buffer : string) (st : reader) :
  fgets_lines f = pre ++ buffer :: post ->
  style_loop pre (mk_reader 0 0 flags0 exl true []) = inr st ->
  too_few_fields buffer = true ->
  read_style_file (Some f) flags0 exl
  = Exit (err st ++ [ErrorReadingStyle (Z.of_nat (length pre) + 1)
                       (own_fields buffer)]).
Proof.
  intros Hl Hpre Hshort. unfold read_style_file.
  rewrite Hl, style_loop_app, Hpre. cbn [style_loop].
  apply style_loop_lineno in Hpre as Hn. cbn [lineno] in Hn.
  unfold too_few_fields, own_fields in *. unfold style_line.
  destruct (sscanf4 (strip_comment buffer)) as [fields conv]. cbn [fst] in *.
  apply andb_true_iff in Hshort as [H0 H3].
  destruct (Z.leb_spec fields 0) as [Hle|_]; [apply Z.ltb_lt in H0; lia|].
  rewrite H3, Hn. done.
Qed.

Definition style_short_line : FILE :=
  mk_FILE ("node,way highway text linear" ++
           String LF ("way building" ++ String LF
                        ("way natural text polygon" ++ String LF ""))) false.

Lemma short_line_exits_witness :
  read_style_file (Some style_short_line) "" empty_export_list
  = Exit ([] ++ [ErrorReadingStyle (Z.of_nat 1 + 1) 2]).
Proof.
  apply (short_line_exits style_short_line "" empty_export_list
           [String.append "node,way highway text linear" (String LF "")]
           [String.append "way natural text polygon" (String LF "")]
           (String.append "way building" (String LF ""))
           (mk_reader 1 1 "linear"
              (mk_export_list [mk_taginfo "highway" "text" FLAG_LINEAR]
                 [mk_taginfo "highway" "text" FLAG_LINEAR] [])
              true []));
    reflexivity.
Defined.

End StyleMore.

(** * Table set-up *)

Module Setup.
Import Style Output StyleFacts StyleMore.

(** [columns_t]: column name and SQL type. *)
Definition columns_t : Type := list (string * string).

Section Start.

(** Modelled from the spec: POSTGRES_OSMID_TYPE is a macro of osmtypes.hpp
    (the spec gives [osm_id] as a 64-bit integer column). *)
Variable POSTGRES_OSMID_TYPE : string.

(** Body of the loop over [infos] in [start()]. *)
Definition push_column (columns : columns_t) (info : taginfo) : columns_t :=
  if negb (Z.land (flags info) FLAG_DELETE =? 0) then columns
  else if Z.land (flags info) FLAG_PHSTORE =? FLAG_PHSTORE then columns
  else columns ++ [(name info, type info)].

(** [start()]: the columns table [i] is created with. *)
Definition table_columns (exl : export_list) (i : table_id) : columns_t :=
  let infos :=
    export_list_get (match i with t_point => OSMTYPE_NODE | _ => OSMTYPE_WAY end)
      exl in
  fold_left push_column infos [("osm_id", POSTGRES_OSMID_TYPE)].

(** [start()]: the name of table [i]; [prefix] is [m_options->prefix], which
    may be NULL. *)
Definition table_name (prefix : option string) (i : table_id) : string :=
  ((match prefix with Some p => p | None => EmptyString end) ++
   match i with
   | t_point => "_point"
   | t_line => "_line"
   | t_poly => "_polygon"
   | t_roads => "_roads"
   end)%string.

(** [start()]: the geometry type of table [i]. *)
Definition table_type (i : table_id) : string :=
  match i with
  | t_point => "POINT"
  | t_line => "LINESTRING"
  | t_poly => "GEOMETRY"
  | t_roads => "LINESTRING"
  end.

(** An entry that becomes a column. *)
Definition is_column (info : taginfo) : bool :=
  ((Z.land (flags info) FLAG_DELETE =? 0) &&
   negb (Z.land (flags info) FLAG_PHSTORE =? FLAG_PHSTORE))%bool.

Lemma push_columns (infos : list taginfo) (columns : columns_t) :
  fold_left push_column infos columns =
  columns ++ map (fun info => (name info, type info))
               (List.filter is_column infos).
Proof.
  revert columns. induction infos as [|info infos IH]; intros columns.
  - simpl. by rewrite app_nil_r.
  - cbn [fold_left List.filter]. rewrite IH. unfold push_column, is_column.
    destruct (Z.land (flags info) FLAG_DELETE =? 0); simpl; [|done].
    destruct (Z.land (flags info) FLAG_PHSTORE =? FLAG_PHSTORE); simpl; [done|].
    by rewrite <- app_assoc.
Qed.

(** X8: the tables set up from a style file that was read successfully
    have [osm_id] as their first column, and every other column comes from
    an entry of the file: its name has no wildcard, name and type are not
    empty and hold no white space, and they fit the 63 and 23 characters
    the reader allows. *)
Theorem columns_from_style (f : FILE) (flags0 : string) (exl : export_list)
    (w : list diag) (en : bool) (i : table_id) :
  read_style_file (Some f) flags0 empty_export_list = Return w (en, exl) ->
  exists cols,
    table_columns exl i = ("osm_id", POSTGRES_OSMID_TYPE) :: cols /\
    forall c, In c cols ->
      has_wildcard (fst c) = false /\ field_ok 63 (fst c) /\ field_ok 23 (snd c).
Proof.
  intros H. unfold table_columns. rewrite push_columns.
  eexists. split; [reflexivity|]. intros c Hc.
  apply in_map_iff in Hc as (info & <- & Hin).
  apply filter_In in Hin as [Hin Hcol].
  destruct (read_style_file_rules _ _ _ _ _ _ H) as (_ & He & Hok).
  assert (In info (node_infos exl ++ way_infos exl)) as Hin'.
  { apply in_app_iff. destruct i; simpl in Hin; auto. }
  rewrite He in Hin'.
  apply added_entry_rule in Hin' as [Hin'|(r & Hr & <-)]; [done|].
  rewrite List.Forall_forall in Hok.
  destruct (Hok r Hr) as (_ & Hn & Ht & Hw). simpl.
  split; [|done].
  destruct (has_wildcard (name r.2)) eqn:Hwild; [|done].
  unfold is_column in Hcol. rewrite (Hw eq_refl) in Hcol. done.
Qed.

End Start.

Lemma columns_from_style_witness :
  exists cols,
    table_columns "int8"
      (mk_export_list
         [mk_taginfo "note:*" "text" FLAG_DELETE;
          mk_taginfo "building" "text" FLAG_POLYGON]
         [mk_taginfo "note:*" "text" FLAG_DELETE] []) t_poly
    = ("osm_id", "int8") :: cols /\
    forall c, In c cols ->
      has_wildcard (fst c) = false /\ field_ok 63 (fst c) /\ field_ok 23 (snd c).
Proof.
  apply (columns_from_style "int8" style_wildcard_delete "" _ [] true t_poly).
  reflexivity.
Defined.

End Setup.

(** * Finalising a table *)

Module Finish.
Import Output.

(** Modelled from the spec: the fields of [options_t] (options.hpp) that
    [pgsql_out_stop_one] reads beside [slim] and [droptemp].  The two
    tablespace names are C strings that may be NULL; [enable_hstore] is
    compared with HSTORE_NONE only. *)
Record finish_options : Type := mk_finish_options {
  append : bool;
  tblsmain_data : option string;
  tblsmain_index : option string;
  enable_hstore_index : bool;
  enable_hstore : Z;
  hstore_columns : list string
}.

(** Modelled from the spec: HSTORE_NONE is the first value of the hstore
    mode enumeration of options.hpp. *)
Definition HSTORE_NONE : Z := 0.

(** Modelled from the spec: what [pgsql_out_stop_one] reads of a [table_t]
    (table.hpp): its name and the number of bytes left in its COPY
    buffer. *)
Record table_conn : Type := mk_table_conn {
  name : string;
  buflen : Z
}.

(** The statements [pgsql_out_stop_one] sends with [pgsql_exec], by their
    format strings.  [tablespace] is the argument of the TABLESPACE clause
    when the format has one; [blank] tells the two spellings of the tags
    index apart. *)
Inductive statement : Type :=
  | Analyze (table : string)
  | CreateSortedCopy (table : string) (tablespace : option string)
  | DropTable (table : string)
  | RenameCopy (table : string)
  | CreateGistIndex (table : string) (fillfactor_100 : bool)
      (tablespace : option string)
  | CreatePkeyIndex (table : string) (tablespace : option string)
  | CreateTagsIndex (table : string) (tablespace : option string) (blank : bool)
  | CreateHstoreIndex (table : string) (i : nat) (column : string)
      (tablespace : option string)
  | GrantSelect (table : string).

Definition EOL : string := String (ascii_of_nat 10) EmptyString.
Definition DQ : string := String (ascii_of_nat 34) EmptyString.

Definition tablespace_clause (tablespace : option string) : string :=
  match tablespace with
  | Some t => (" TABLESPACE " ++ t)%string
  | None => EmptyString
  end.

(** The text each statement is sent as. *)
Definition statement_text (s : statement) : string :=
  match s with
  | Analyze t => "ANALYZE " ++ t ++ ";" ++ EOL
  | CreateSortedCopy t None =>
      "CREATE TABLE " ++ t ++ "_tmp AS SELECT * FROM " ++ t
      ++ " ORDER BY way;" ++ EOL
  | CreateSortedCopy t (Some ts) =>
      "CREATE TABLE " ++ t ++ "_tmp TABLESPACE " ++ ts ++ " AS SELECT * FROM "
      ++ t ++ " ORDER BY way;" ++ EOL
  | DropTable t => "DROP TABLE " ++ t ++ ";" ++ EOL
  | RenameCopy t => "ALTER TABLE " ++ t ++ "_tmp RENAME TO " ++ t ++ ";" ++ EOL
  | CreateGistIndex t ff ts =>
      "CREATE INDEX " ++ t ++ "_index ON " ++ t ++ " USING GIST (way)"
      ++ (if ff then " WITH (FILLFACTOR=100)" else "")
      ++ tablespace_clause ts ++ ";" ++ EOL
  | CreatePkeyIndex t ts =>
      "CREATE INDEX " ++ t ++ "_pkey ON " ++ t ++ " USING BTREE (osm_id)"
      ++ tablespace_clause ts ++ ";" ++ EOL
  | CreateTagsIndex t ts blank =>
      "CREATE INDEX " ++ t ++ "_tags_index ON " ++ t ++ " USING GIN (tags)"
      ++ tablespace_clause ts ++ (if blank then " ;" else ";") ++ EOL
  | CreateHstoreIndex t i column ts =>
      "CREATE INDEX " ++ t ++ "_hstore_"
      ++ NilZero.string_of_uint (Nat.to_uint i) ++ "_index ON " ++ t
      ++ " USING GIN (" ++ DQ ++ column ++ DQ ++ ")"
      ++ tablespace_clause ts ++ ";" ++ EOL
  | GrantSelect t => "GRANT SELECT ON " ++ t ++ " TO PUBLIC;" ++ EOL
  end%string.

(** What happens on the connection of the table. *)
Inductive conn_event : Type :=
  | PauseCopy
  | Exec (s : statement)
  | PQfinish.

(** The exit of [pgsql_out_stop_one]. *)
Inductive stop_error : Type :=
  | BufferNotEmpty (table : string) (bytes : Z).

Section StopOne.

Variable m_options : options_t.
Variable fin : finish_options.

Definition updatable : bool := (slim m_options && negb (droptemp m_options))%bool.

(** The loop over [hstore_columns], from index [i] on. *)
Fixpoint hstore_indexes (table : string) (i : nat) (columns : list string)
  : list statement :=
  match columns with
  | [] => []
  | column :: rest =>
      CreateHstoreIndex table i column (tblsmain_index fin)
        :: hstore_indexes table (S i) rest
  end.

(** The statements of the [if (!m_options->append)] block of
    [pgsql_out_stop_one], in the order they are sent. *)
Definition sort_and_index (table : table_conn) : list statement :=
  [Analyze (name table);
   CreateSortedCopy (name table) (tblsmain_data fin);
   DropTable (name table);
   RenameCopy (name table);
   (* Use fillfactor 100 for un-updatable imports *)
   CreateGistIndex (name table) (negb updatable) (tblsmain_index fin)]
  (* slim mode needs this to be able to apply diffs *)
  ++ (if updatable
      then [CreatePkeyIndex (name table) (tblsmain_index fin)]
      else [])
  (* Create hstore index if selected *)
  ++ (if enable_hstore_index fin then
        (if negb (enable_hstore fin =? HSTORE_NONE)
         then [CreateTagsIndex (name table) (tblsmain_index fin)
                 (match tblsmain_index fin with
                  | Some _ => false
                  | None => negb updatable
                  end)]
         else [])
        ++ hstore_indexes (name table) 0 (hstore_columns fin)
      else [])
  ++ [GrantSelect (name table); Analyze (name table)].

(** [pgsql_out_stop_one]: the exit, or what is done on the connection when
    the server accepts every statement.  The progress lines written to
    stderr are left out. *)
Definition pgsql_out_stop_one (table : table_conn)
  : stop_error + list conn_event :=
  if negb (buflen table =? 0) then inl (BufferNotEmpty (name table) (buflen table))
  else
    inr
      ([PauseCopy]
       ++ (if negb (append fin) then map Exec (sort_and_index table) else [])
       ++ [PQfinish]).

Definition statement_table (s : statement) : string :=
  match s with
  | Analyze t | CreateSortedCopy t _ | DropTable t | RenameCopy t
  | CreateGistIndex t _ _ | CreatePkeyIndex t _ | CreateTagsIndex t _ _
  | CreateHstoreIndex t _ _ _ | GrantSelect t => t
  end.

(** The statements that create an index, with the tablespace they name. *)
Definition index_tablespace (s : statement) : option (option string) :=
  match s with
  | CreateGistIndex _ _ ts | CreatePkeyIndex _ ts | CreateTagsIndex _ ts _
  | CreateHstoreIndex _ _ _ ts => Some ts
  | _ => None
  end.

Definition statements (ev : list conn_event) : list statement :=
  flat_map (fun e => match e with Exec s => [s] | _ => [] end) ev.

Lemma statements_map_Exec (l : list statement) : statements (map Exec l) = l.
Proof. induction l as [|s l IH]; simpl; [done|]. by rewrite IH. Qed.

Lemma hstore_indexes_spec (table : string) (i : nat) (columns : list string) :
  Forall (fun s => statement_table s = table /\
                   index_tablespace s = Some (tblsmain_index fin))
    (hstore_indexes table i columns) /\
  length (hstore_indexes table i columns) = length columns.
Proof.
  revert i. induction columns as [|c columns IH]; intros i; simpl.
  - split; [constructor|done].
  - destruct (IH (S i)) as [H1 H2]. split; [|by rewrite H2].
    constructor; [done|]. apply H1.
Qed.

Lemma statements_events (l : list statement) :
  statements ([PauseCopy] ++ map Exec l ++ [PQfinish]) = l.
Proof.
  unfold statements. rewrite !flat_map_app. simpl. rewrite app_nil_r.
  induction l as [|s l IH]; simpl; [done|]. by rewrite IH.
Qed.

Lemma hstore_indexes_shape (table : string) (i : nat) (columns : list string)
    (s : statement) :
  In s (hstore_indexes table i columns) ->
  exists j c, s = CreateHstoreIndex table j c (tblsmain_index fin).
Proof.
  revert i. induction columns as [|c columns IH]; intros i; simpl; [done|].
  intros [<-|H]; [by eexists _, _|by eapply IH].
Qed.

Definition is_gist (s : statement) : bool :=
  match s with CreateGistIndex _ _ _ => true | _ => false end.

Definition is_gin (s : statement) : bool :=
  match s with
  | CreateTagsIndex _ _ _ | CreateHstoreIndex _ _ _ _ => true
  | _ => false
  end.

Lemma hstore_indexes_count (table : string) (i : nat) (columns : list string) :
  List.filter is_gist (hstore_indexes table i columns) = [] /\
  length (List.filter is_gin (hstore_indexes table i columns)) = length columns.
Proof.
  revert i. induction columns as [|c columns IH]; intros i; simpl; [done|].
  destruct (IH (S i)) as [-> ->]. done.
Qed.

(** X9: what finalising a table does on its connection.  With a COPY buffer
    that is not empty it exits before anything is sent.  Otherwise it ends
    the COPY first and closes the connection last; in append mode nothing
    is sent in between; else the table is analysed, copied in geometry
    order, dropped and replaced by the copy before any index is made, then
    come the index statements, all on this table and in the index
    tablespace, and last the grant and a second ANALYZE. *)
Theorem stop_one_sequence (table : table_conn) :
  (buflen table <> 0 ->
   pgsql_out_stop_one table = inl (BufferNotEmpty (name table) (buflen table))) /\
  (buflen table = 0 ->
   exists stmts,
     pgsql_out_stop_one table = inr ([PauseCopy] ++ map Exec stmts ++ [PQfinish]) /\
     (append fin = true -> stmts = []) /\
     (append fin = false ->
      exists indexes,
        stmts = [Analyze (name table);
                 CreateSortedCopy (name table) (tblsmain_data fin);
                 DropTable (name table);
                 RenameCopy (name table)]
                ++ indexes
                ++ [GrantSelect (name table); Analyze (name table)] /\
        Forall (fun s => statement_table s = name table /\
                         index_tablespace s = Some (tblsmain_index fin))
          indexes)).
Proof.
  unfold pgsql_out_stop_one. split; intros Hb.
  - by destruct (Z.eqb_spec (buflen table) 0).
  - rewrite Hb. cbn [Z.eqb negb]. destruct (append fin); cbn [negb].
    + exists []. split; [done|]. split; [done|]. done.
    + eexists. split; [reflexivity|]. split; [done|]. intros _.
      unfold sort_and_index. eexists. split.
      { cbn [app]. do 4 f_equal. rewrite <- app_comm_cons. f_equal.
        cbn [app]. rewrite app_assoc. reflexivity. }
      apply Forall_cons. split; [done|]. apply Forall_app. split.
      * destruct updatable; [|constructor]. by repeat constructor.
      * destruct (enable_hstore_index fin); [|constructor].
        apply Forall_app. split; [|apply hstore_indexes_spec].
        destruct (negb _); [|constructor]. by repeat constructor.
Qed.

(** X10: the indexes of a finalised table follow the way the table will be
    used.  A table that can take updates later (slim mode, intermediate
    tables kept) gets a BTREE index on [osm_id] and a GIST index without
    fill factor; any other table gets no [osm_id] index and a GIST index
    with FILLFACTOR=100.  There is exactly one GIST index either way, and
    one GIN index per hstore column (plus one on [tags] when the tags
    column is on) when hstore indexes are asked for, none otherwise. *)
Theorem stop_one_indexes (table : table_conn) (ev : list conn_event) :
  pgsql_out_stop_one table = inr ev ->
  append fin = false ->
  let stmts := statements ev in
  (forall t ff ts, In (CreateGistIndex t ff ts) stmts -> ff = negb updatable) /\
  length (List.filter is_gist stmts) = 1%nat /\
  (In (CreatePkeyIndex (name table) (tblsmain_index fin)) stmts
   <-> updatable = true) /\
  length (List.filter is_gin stmts)
  = (if enable_hstore_index fin
     then (if Z.eqb (enable_hstore fin) HSTORE_NONE then 0 else 1)
          + length (hstore_columns fin)
     else 0)%nat.
Proof.
  unfold pgsql_out_stop_one.
  destruct (negb (buflen table =? 0)); [done|]. intros H Ha.
  rewrite Ha in H. cbn [negb] in H.
  assert (ev = [PauseCopy] ++ map Exec (sort_and_index table) ++ [PQfinish])
    as -> by congruence.
  clear H. cbv zeta. rewrite statements_events. unfold sort_and_index.
  split_and!.
  - intros t ff ts. rewrite !in_app_iff. simpl.
    intros [H|[H|[H|H]]].
    + destruct H as [H|[H|[H|[H|[H|[]]]]]]; try done. by injection H as _ <- _.
    + destruct updatable; simpl in H; [|done]. by destruct H.
    + destruct (enable_hstore_index fin); [|done].
      apply in_app_iff in H as [H|H].
      * destruct (negb _); simpl in H; [|done]. by destruct H.
      * apply hstore_indexes_shape in H as (j & c & H). done.
    + destruct H as [H|[H|[]]]; done.
  - rewrite !List.filter_app. cbn [List.filter app is_gist].
    destruct updatable; cbn [List.filter app length is_gist];
      (destruct (enable_hstore_index fin); [|done]);
      rewrite List.filter_app, (proj1 (hstore_indexes_count _ _ _));
      by destruct (negb (enable_hstore fin =? HSTORE_NONE)).
  - rewrite !in_app_iff. simpl. split.
    + intros [H|[H|[H|H]]].
      * destruct H as [H|[H|[H|[H|[H|[]]]]]]; done.
      * by destruct updatable.
      * destruct (enable_hstore_index fin); [|done].
        apply in_app_iff in H as [H|H].
        -- destruct (negb _); simpl in H; [|done]. by destruct H.
        -- apply hstore_indexes_shape in H as (j & c & H). done.
      * destruct H as [H|[H|[]]]; done.
    + intros ->. right. left. by left.
  - rewrite !List.filter_app. cbn [List.filter app length is_gin].
    rewrite !length_app.
    assert (length (List.filter is_gin
              (if updatable
               then [CreatePkeyIndex (name table) (tblsmain_index fin)]
               else [])) = 0%nat) as -> by (by destruct updatable).
    destruct (enable_hstore_index fin); [|done].
    rewrite List.filter_app, length_app, (proj2 (hstore_indexes_count _ _ _)).
    destruct (enable_hstore fin =? HSTORE_NONE); simpl; lia.
Qed.

End StopOne.

Definition demo_finish_options : finish_options :=
  mk_finish_options false None (Some "fast") true 1 ["name:"].

Lemma stop_one_sequence_witness :
  exists stmts,
    pgsql_out_stop_one (mk_options true false false false) demo_finish_options
      (mk_table_conn "planet_osm_line" 0)
    = inr ([PauseCopy] ++ map Exec stmts ++ [PQfinish]) /\
    (append demo_finish_options = true -> stmts = []) /\
    (append demo_finish_options = false ->
     exists indexes,
       stmts = [Analyze "planet_osm_line";
                CreateSortedCopy "planet_osm_line" None;
                DropTable "planet_osm_line";
                RenameCopy "planet_osm_line"]
               ++ indexes
               ++ [GrantSelect "planet_osm_line"; Analyze "planet_osm_line"] /\
       Forall (fun s => statement_table s = "planet_osm_line" /\
                        index_tablespace s = Some (Some "fast"))
         indexes).
Proof.
  apply (proj2 (stop_one_sequence (mk_options true false false false)
                  demo_finish_options (mk_table_conn "planet_osm_line" 0))).
  reflexivity.
Defined.

Lemma stop_one_indexes_witness :
  In (CreatePkeyIndex "planet_osm_line" (Some "fast"))
    (statements
       [PauseCopy; Exec (Analyze "planet_osm_line");
        Exec (CreateSortedCopy "planet_osm_line" None);
        Exec (DropTable "planet_osm_line");
        Exec (RenameCopy "planet_osm_line");
        Exec (CreateGistIndex "planet_osm_line" false (Some "fast"));
        Exec (CreatePkeyIndex "planet_osm_line" (Some "fast"));
        Exec (CreateTagsIndex "planet_osm_line" (Some "fast") false);
        Exec (CreateHstoreIndex "planet_osm_line" 0 "name:" (Some "fast"));
        Exec (GrantSelect "planet_osm_line");
        Exec (Analyze "planet_osm_line"); PQfinish]).
Proof.
  apply (proj1 (proj2 (proj2 (stop_one_indexes
           (mk_options true false false false) demo_finish_options
           (mk_table_conn "planet_osm_line" 0) _ eq_refl eq_refl)))).
  reflexivity.
Defined.

End Finish.

(** * More on the emitter *)

Module OutputMore.
Import Style Output OutputFacts.

Lemma table_rows_CopyRow (t : table_t) (rows : list row) :
  table_rows (t ++ map CopyRow rows) = table_rows t ++ rows.
Proof.
  unfold table_rows. rewrite fold_left_app. generalize (fold_left apply_cmd t []).
  induction rows as [|r rows IH]; intros acc; simpl; [by rewrite app_nil_r|].
  rewrite IH, <- app_assoc. done.
Qed.

Lemma rows_with_app (id : osmid_t) (a b : list row) :
  rows_with id (a ++ b) = rows_with id a ++ rows_with id b.
Proof. apply List.filter_app. Qed.

Lemma rows_with_all (id : osmid_t) (rows : list row) :
  List.Forall (fun r => osm_id r = id) rows -> rows_with id rows = rows.
Proof.
  induction 1 as [|r rows Hr _ IH]; simpl; [done|].
  rewrite Hr, Z.eqb_refl. by rewrite IH.
Qed.

(** The table of a node or of a relation after the probe and the DELETE it
    guards: [t] has been paused where the source pauses it. *)
Definition guarded_delete (E : output_env) (osm_id : osmid_t) (t : table_t)
    (deleted : table_t) : table_t :=
  if negb (from_db (expire E) t osm_id =? 0) then deleted else t.

Section More.

Variable E : output_env.

Lemma guarded_delete_rows (osm_id : osmid_t) (t deleted : table_t) :
  from_db_probes E ->
  rows_with osm_id (table_rows deleted) = [] ->
  rows_with osm_id (table_rows (guarded_delete E osm_id t deleted)) = [].
Proof.
  intros Hc Hd. unfold guarded_delete.
  destruct (Z.eqb_spec (from_db (expire E) t osm_id) 0) as [Hz|Hz];
    cbn [negb]; [|done].
  destruct (rows_with osm_id (table_rows t)) eqn:Hrw; [done|].
  exfalso. apply (Hc t osm_id); [by rewrite Hrw|done].
Qed.

(** ** Deleting and modifying a node *)

Lemma node_delete_tables (osm_id : osmid_t) (o : output_pgsql_t) :
  slim (m_options E) = true ->
  exists o',
    node_delete E osm_id o = Return [] o' /\
    tbl_point o' = guarded_delete E osm_id (pgsql_pause_copy (tbl_point o))
                     (delete_row osm_id (tbl_point o)) /\
    (forall i, i <> t_point -> m_tables i o' = m_tables i o) /\
    same_trackers o o'.
Proof.
  intros Hs. unfold node_delete, guarded_delete. rewrite Hs. cbn [negb].
  destruct o as [tp tl tpo tr wp wd rp]. cbn [on_table m_tables tbl_point
    tbl_line tbl_poly tbl_roads ways_pending_tracker ways_done_tracker
    rels_pending_tracker].
  destruct (negb (from_db (expire E) (pgsql_pause_copy tp) osm_id =? 0));
    eexists; (split; [reflexivity|]); cbn [tbl_point];
    (split; [|split; [by intros []|done]]); [|done].
  unfold delete_row, pgsql_pause_copy. by rewrite <- app_assoc.
Qed.

Lemma node_delete_spec (osm_id : osmid_t) (o : output_pgsql_t) :
  slim (m_options E) = true -> from_db_probes E ->
  exists o',
    node_delete E osm_id o = Return [] o' /\
    rows_with osm_id (table_rows (tbl_point o')) = [] /\
    extends (about (fun _ => False) (fun y => y = osm_id))
      (tbl_point o) (tbl_point o') /\
    (forall i, i <> t_point -> m_tables i o' = m_tables i o) /\
    same_trackers o o'.
Proof.
  intros Hs Hc. destruct (node_delete_tables osm_id o Hs) as (o' & H & Ht & Hi & Htr).
  exists o'. split; [done|]. rewrite Ht. split_and!; try done.
  - apply guarded_delete_rows; [done|apply rows_with_delete_row].
  - unfold guarded_delete. destruct (negb _).
    + by apply extends_delete.
    + by apply extends_pause.
Qed.

Lemma extends_about_other (C D : osmid_t -> Prop) (y : osmid_t) (t t' : table_t) :
  (forall x, C x -> x <> y) -> (forall x, D x -> x <> y) ->
  extends (about C D) t t' ->
  rows_with y (table_rows t') = rows_with y (table_rows t) /\
  rows_with y (copied_rows t') = rows_with y (copied_rows t).
Proof.
  intros HC HD H. apply extends_not_about.
  eapply extends_weaken; [|exact H].
  intros [r| |x]; simpl; auto.
Qed.

(** X11: in slim mode [node_delete] leaves no row of the node in the point
    table, whatever was copied or deleted there before; the rows of other
    nodes, the stream of copied rows, the other tables and the trackers are
    as before.  Outside slim mode it exits. *)
Theorem node_delete_removes_rows (osm_id : osmid_t) (o : output_pgsql_t) :
  (slim (m_options E) = false ->
   node_delete E osm_id o = Exit [CannotApplyDiffs]) /\
  (slim (m_options E) = true -> from_db_probes E ->
   exists o',
     node_delete E osm_id o = Return [] o' /\
     rows_with osm_id (table_rows (tbl_point o')) = [] /\
     (forall y, y <> osm_id ->
        rows_with y (table_rows (tbl_point o'))
        = rows_with y (table_rows (tbl_point o))) /\
     copied_rows (tbl_point o') = copied_rows (tbl_point o) /\
     (forall i, i <> t_point -> m_tables i o' = m_tables i o) /\
     same_trackers o o').
Proof.
  split.
  - intros Hs. unfold node_delete. by rewrite Hs.
  - intros Hs Hc.
    destruct (node_delete_spec osm_id o Hs Hc) as (o' & H & Hr & He & Hi & Ht).
    exists o'. split_and!; try done.
    + intros y Hy. eapply extends_about_other; [| |exact He]; simpl; [done|].
      by intros x ->.
    + by eapply extends_no_copy.
Qed.

(** X12: in slim mode [node_modify] leaves the point table with exactly one
    row for the node, the new one, when the node filter keeps the new tags,
    and with none when it drops them; rows of other nodes, the other tables
    and the trackers are as before. *)
Theorem node_modify_replaces_row (osm_id : osmid_t) (node_lat node_lon : double)
    (tags : keyval) (o : output_pgsql_t) :
  slim (m_options E) = true -> from_db_probes E ->
  exists o',
    node_modify E osm_id node_lat node_lon tags o = Return [] o' /\
    rows_with osm_id (table_rows (tbl_point o'))
    = (if filter_node_tags (m_tagtransform E) tags (m_export_list E)
       then []
       else [mk_row osm_id tags (NodePoint node_lat node_lon)]) /\
    (forall y, y <> osm_id ->
       rows_with y (table_rows (tbl_point o'))
       = rows_with y (table_rows (tbl_point o))) /\
    (forall i, i <> t_point -> m_tables i o' = m_tables i o) /\
    same_trackers o o'.
Proof.
  intros Hs Hc. unfold node_modify. rewrite Hs. cbn [negb].
  destruct (node_delete_spec osm_id o Hs Hc) as (o1 & -> & Hr & He & Hi & Ht).
  eexists. split; [reflexivity|].
  unfold node_add, pgsql_out_node.
  assert (forall y, y <> osm_id ->
            rows_with y (table_rows (tbl_point o1))
            = rows_with y (table_rows (tbl_point o))) as Hy.
  { intros y Hy. eapply extends_about_other; [| |exact He]; simpl; [done|].
    by intros x ->. }
  destruct (filter_node_tags _ _ _); cbn [snd]; [done|].
  destruct o1 as [tp tl tpo tr wp wd rp]. cbn [on_table tbl_point] in *.
  unfold write_node. rewrite !table_rows_snoc. cbn [apply_cmd]. split_and!.
  - rewrite rows_with_app, Hr. simpl. by rewrite Z.eqb_refl.
  - intros y Hne. rewrite rows_with_app, (Hy y Hne). simpl.
    destruct (Z.eqb_spec osm_id y); [congruence|]. by rewrite app_nil_r.
  - intros i Hne. rewrite <- (Hi i Hne). by destruct i.
  - done.
Qed.

(** ** Deleting a relation *)

Lemma delete_relation_tables (osm_id : osmid_t) (o : output_pgsql_t) :
  m_tables t_roads (pgsql_delete_relation_from_output E osm_id o)
    = delete_row (- osm_id) (pgsql_pause_copy (tbl_roads o)) /\
  m_tables t_line (pgsql_delete_relation_from_output E osm_id o)
    = probe_delete E (- osm_id) (tbl_line o) /\
  m_tables t_poly (pgsql_delete_relation_from_output E osm_id o)
    = probe_delete E (- osm_id) (tbl_poly o).
Proof.
  unfold pgsql_delete_relation_from_output, probe_delete. cbv zeta.
  destruct o as [tp tl tpo tr wp wd rp].
  cbn -[delete_row pgsql_pause_copy Z.eqb Z.opp].
  destruct (negb (from_db _ (pgsql_pause_copy tl) _ =? 0));
    cbn -[delete_row pgsql_pause_copy Z.eqb Z.opp];
    destruct (negb (from_db _ (pgsql_pause_copy tpo) _ =? 0));
    cbn -[delete_row pgsql_pause_copy Z.eqb Z.opp]; done.
Qed.

Lemma probe_delete_rows (osm_id : osmid_t) (t : table_t) :
  from_db_probes E ->
  rows_with osm_id (table_rows (probe_delete E osm_id t)) = [].
Proof.
  intros Hc. apply (guarded_delete_rows osm_id (pgsql_pause_copy t)); [done|].
  apply rows_with_delete_row.
Qed.

Lemma delete_relation_rows (osm_id : osmid_t) (o : output_pgsql_t) (i : table_id) :
  from_db_probes E -> i <> t_point ->
  rows_with (- osm_id)
    (table_rows (m_tables i (pgsql_delete_relation_from_output E osm_id o))) = [].
Proof.
  intros Hc Hi. destruct (delete_relation_tables osm_id o) as (Hr & Hl & Hp).
  destruct i; [done| | |].
  - rewrite Hl. by apply probe_delete_rows.
  - rewrite Hp. by apply probe_delete_rows.
  - rewrite Hr. apply rows_with_delete_row.
Qed.

(** X13: in slim mode [relation_delete] leaves no row of the relation (key
    [-id]) in the line, polygon and roads tables, with or without the
    droptemp option that turns the deletion of ways off; no row is copied,
    rows with other keys, the point table and the trackers are as before.
    Outside slim mode it exits. *)
Theorem relation_delete_removes_rows (osm_id : osmid_t) (o : output_pgsql_t) :
  (slim (m_options E) = false ->
   relation_delete E osm_id o = Exit [CannotApplyDiffs]) /\
  (slim (m_options E) = true -> from_db_probes E ->
   exists o',
     relation_delete E osm_id o = Return [] o' /\
     (forall i, i <> t_point ->
        rows_with (- osm_id) (table_rows (m_tables i o')) = []) /\
     (forall y i, y <> - osm_id ->
        rows_with y (table_rows (m_tables i o'))
        = rows_with y (table_rows (m_tables i o))) /\
     (forall i, copied_rows (m_tables i o') = copied_rows (m_tables i o)) /\
     m_tables t_point o' = m_tables t_point o /\
     same_trackers o o').
Proof.
  split.
  - intros Hs. unfold relation_delete. by rewrite Hs.
  - intros Hs Hc. unfold relation_delete. rewrite Hs. cbn [negb].
    eexists. split; [reflexivity|]. split_and!.
    + intros i Hi. by apply delete_relation_rows.
    + intros y i Hy.
      eapply extends_about_other; [| |apply delete_relation_extend]; simpl;
        [done|]. by intros x ->.
    + intros i. eapply extends_no_copy. apply delete_relation_extend.
    + apply delete_relation_point.
    + apply delete_relation_trackers.
Qed.

(** ** Modifying a way *)

Lemma rows_with_none (id y : osmid_t) (rows : list row) :
  List.Forall (fun r => osm_id r = y) rows -> y <> id -> rows_with id rows = [].
Proof.
  intros H Hy. induction H as [|r rows Hr _ IH]; simpl; [done|].
  rewrite Hr. by destruct (Z.eqb_spec y id).
Qed.

(** X14: in slim mode with the intermediate tables kept, [way_modify]
    replaces the rows of the way: afterwards the line, polygon and roads
    tables hold for this id exactly the rows built from the new node list
    when the way is kept and is no polygon, and no row when the tag filter
    drops it or when it may be a polygon, in which case it is marked
    pending instead.  Rows of other ids, the point table, ways_done and
    rels_pending are as before. *)
Theorem way_modify_replaces_rows (osm_id : osmid_t) (nds : list osmid_t)
    (tags : keyval) (o : output_pgsql_t) (filter polygon roads : bool) :
  slim (m_options E) = true -> droptemp (m_options E) = false ->
  from_db_probes E ->
  filter_way_tags (m_tagtransform E) tags (m_export_list E)
    = (filter, polygon, roads) ->
  exists o',
    way_modify E osm_id nds tags o = Return [] o' /\
    (forall y i, y <> osm_id ->
       rows_with y (table_rows (m_tables i o'))
       = rows_with y (table_rows (m_tables i o))) /\
    m_tables t_point o' = m_tables t_point o /\
    ways_done_tracker o' = ways_done_tracker o /\
    rels_pending_tracker o' = rels_pending_tracker o /\
    ways_pending_tracker o'
    = (if (negb filter && polygon)%bool
       then {[ osm_id ]} ∪ ways_pending_tracker o
       else ways_pending_tracker o) /\
    ((filter || polygon)%bool = true ->
     forall i, i <> t_point ->
       rows_with osm_id (table_rows (m_tables i o')) = []) /\
    (filter = false -> polygon = false ->
     let wkts := get_wkt_split (builder E) (nodes_get_list (m_mid E) nds) false
                   (split_at E) in
     exists new_poly new_line,
       rows_with osm_id (table_rows (m_tables t_poly o')) = new_poly /\
       rows_with osm_id (table_rows (m_tables t_line o')) = new_line /\
       rows_with osm_id (table_rows (m_tables t_roads o'))
       = (if roads then new_line else []) /\
       map way new_poly = map Wkt (poly_wkts wkts) /\
       map way new_line = map Wkt (line_wkts wkts)).
Proof.
  intros Hs Hd Hc Hf. unfold way_modify, way_delete. rewrite Hs. cbn [negb].
  eexists. split; [reflexivity|].
  set (o1 := pgsql_delete_way_from_output E osm_id o).
  assert (forall i, i <> t_point ->
            rows_with osm_id (table_rows (m_tables i o1)) = []) as Hgone.
  { intros i Hi. by apply delete_way_rows. }
  assert (forall y i, y <> osm_id ->
            rows_with y (table_rows (m_tables i o1))
            = rows_with y (table_rows (m_tables i o))) as Hoth.
  { intros y i Hy.
    eapply extends_about_other; [| |apply delete_way_extend]; simpl; [done|].
    by intros x ->. }
  pose proof (delete_way_trackers E osm_id o) as (Hwp & Hwd & Hrp).
  pose proof (delete_way_point E osm_id o) as Hpt.
  fold o1 in Hwp, Hwd, Hrp, Hpt.
  unfold way_add. rewrite Hf.
  destruct filter, polygon; cbn [negb andb orb].
  - by split_and!.
  - by split_and!.
  - split_and!; [|by rewrite <- Hpt|by rewrite <- Hwd|by rewrite <- Hrp
                 | |intros _ i Hi|done].
    + intros y i Hy. rewrite <- (Hoth y i Hy). by destruct i.
    + cbn. by rewrite Hwp.
    + rewrite <- (Hgone i Hi). by destruct i.
  - pose proof (pgsql_out_way_emitted E osm_id tags
                  (nodes_get_list (m_mid E) nds) false o1) as Hem.
    pose proof (pgsql_out_way_extend E osm_id tags
                  (nodes_get_list (m_mid E) nds) false o1) as Hex.
    pose proof (pgsql_out_way_trackers E osm_id tags
                  (nodes_get_list (m_mid E) nds) false o1) as (Hp2 & Hd2).
    unfold way_wkts, way_roads, way_prelude in Hem. rewrite Hf in Hem.
    cbn [snd] in Hem.
    set (o2 := pgsql_out_way E osm_id tags (nodes_get_list (m_mid E) nds)
                 false o1) in *.
    destruct Hem as (new_poly & new_line & Hpo & Hli & Hro & Hpo' & Htr & Hwp' &
                     Hwl' & Hidp & Hidl).
    destruct Htr as (_ & _ & Hr2).
    split_and!; try congruence.
    + intros y i Hy. rewrite <- (Hoth y i Hy).
      eapply extends_about_other; [| |apply Hex]; simpl; by intros x ->.
    + intros _ _. exists new_poly, new_line.
      rewrite Hpo, Hli, Hro, !table_rows_CopyRow, !rows_with_app,
        !Hgone by done.
      rewrite !rows_with_all by (by destruct roads).
      done.
Qed.

(** ** Re-marking the relations of a rewritten way *)

Lemma mark_rels_pending (rels : list osmid_t) (o : output_pgsql_t) :
  rels_pending_tracker
    (fold_left (fun o r => set_rels_pending (mark r (rels_pending_tracker o)) o)
       rels o)
  = list_to_set rels ∪ rels_pending_tracker o.
Proof.
  revert o. induction rels as [|r rels IH]; intros o; simpl.
  - set_solver.
  - rewrite IH. cbn. unfold mark. set_solver.
Qed.

Lemma pgsql_out_way_rels_pending (id : osmid_t) (tags : keyval)
    (nodes : list osmNode) (exists_ : bool) (o : output_pgsql_t) :
  rels_pending_tracker (pgsql_out_way E id tags nodes exists_ o)
  = (if exists_ then list_to_set (relations_using_way (m_mid E) id) else ∅)
    ∪ rels_pending_tracker o.
Proof.
  destruct (pgsql_out_way_emitted E id tags nodes exists_ o)
    as (_ & _ & _ & _ & _ & _ & (_ & _ & ->) & _).
  unfold way_prelude. destruct exists_; [|set_solver].
  rewrite mark_rels_pending.
  by destruct (delete_way_trackers E id o) as (_ & _ & ->).
Qed.

(** X15: writing a way that may exist already ([exists] set, as in the
    passes of an update) marks every relation that uses the way as pending,
    also when the tag filter then drops the way; a first-time write marks
    none.  The two way trackers are not touched either way. *)
Theorem rewritten_way_marks_relations (id : osmid_t) (tags : keyval)
    (nodes : list osmNode) (o : output_pgsql_t) :
  rels_pending_tracker (pgsql_out_way E id tags nodes true o)
  = list_to_set (relations_using_way (m_mid E) id) ∪ rels_pending_tracker o /\
  rels_pending_tracker (pgsql_out_way E id tags nodes false o)
  = rels_pending_tracker o /\
  (forall exists_,
     ways_pending_tracker (pgsql_out_way E id tags nodes exists_ o)
     = ways_pending_tracker o /\
     ways_done_tracker (pgsql_out_way E id tags nodes exists_ o)
     = ways_done_tracker o).
Proof.
  split_and!.
  - apply pgsql_out_way_rels_pending.
  - rewrite pgsql_out_way_rels_pending. set_solver.
  - intros exists_. apply pgsql_out_way_trackers.
Qed.

(** ** The tags of a row *)

(** The tag list [rt] is [tags] with nothing but [way_area] items put in
    front of it. *)
Definition tags_kept (tags rt : keyval) : Prop :=
  exists extra, rt = extra ++ tags /\
                List.Forall (fun kv => fst kv = "way_area") extra.

Definition carries (tags : keyval) (c : table_cmd) : Prop :=
  match c with
  | CopyRow r => tags_kept tags (row_tags r)
  | _ => True
  end.

Lemma tags_kept_refl (tags : keyval) : tags_kept tags tags.
Proof. exists []. split; [done|constructor]. Qed.

Lemma inject_kept (tags t : keyval) (area : double) :
  tags_kept tags t -> tags_kept tags (inject_way_area E area t).
Proof.
  intros (extra & -> & H). unfold inject_way_area, addItem.
  destruct (_ && _)%bool; [|by exists extra].
  exists (("way_area", snprintf_g E area) :: extra). split; [done|].
  by constructor.
Qed.

Lemma extends_copied_any (P : table_cmd -> Prop) (t t' : table_t) (r : row) :
  extends P t t' ->
  In r (copied_rows t') -> In r (copied_rows t) \/ P (CopyRow r).
Proof.
  intros (cmds & -> & H). rewrite copied_rows_app, in_app_iff.
  intros [Hin|Hin]; [by left|right].
  induction H as [|c cmds Hc _ IH]; [done|].
  destruct c as [r'| |y]; simpl in Hin; auto.
  destruct Hin as [<-|Hin]; auto.
Qed.

Lemma out_way_geom_kept (id : osmid_t) (roads : bool) (tags : keyval)
    (acc : keyval * output_pgsql_t) (g : string * double) :
  tags_kept tags (fst acc) ->
  tags_kept tags (fst (out_way_geom E id roads acc g)) /\
  all_extend (fun _ => carries tags) (snd acc) (snd (out_way_geom E id roads acc g)).
Proof.
  destruct acc as [t o], g as [wkt area]. cbn [fst snd]. intros Ht.
  unfold out_way_geom. destruct (nonempty wkt); [|split; [done|apply all_extend_refl]].
  destruct (is_polygon_wkt wkt); cbn [fst snd].
  - pose proof (inject_kept tags t area Ht) as Hi. split; [done|].
    apply all_extend_on_table. by apply extends_write.
  - split; [done|]. cbv zeta. ext_step. ext_step. apply all_extend_refl.
Qed.

Lemma out_way_geoms_kept (id : osmid_t) (roads : bool) (tags : keyval)
    (wkts : list (string * double)) (acc : keyval * output_pgsql_t) :
  tags_kept tags (fst acc) ->
  tags_kept tags (fst (fold_left (out_way_geom E id roads) wkts acc)) /\
  all_extend (fun _ => carries tags) (snd acc)
    (snd (fold_left (out_way_geom E id roads) wkts acc)).
Proof.
  revert acc. induction wkts as [|g wkts IH]; intros acc Ht; cbn [fold_left].
  - split; [done|apply all_extend_refl].
  - destruct (out_way_geom_kept id roads tags acc g Ht) as [H1 H2].
    destruct (IH _ H1) as [H3 H4]. split; [done|].
    by eapply all_extend_trans.
Qed.

Lemma out_boundary_geoms_kept (id : osmid_t) (tags : keyval)
    (wkts : list (string * double)) (acc : keyval * output_pgsql_t) :
  tags_kept tags (fst acc) ->
  all_extend (fun _ => carries tags) (snd acc)
    (snd (fold_left (out_boundary_geom E id) wkts acc)).
Proof.
  revert acc. induction wkts as [|[wkt area] wkts IH]; intros [t o] Ht;
    cbn [fold_left]; [apply all_extend_refl|].
  cbn [fst snd] in *.
  assert (tags_kept tags (fst (out_boundary_geom E id (t, o) (wkt, area))) /\
          all_extend (fun _ => carries tags) o
            (snd (out_boundary_geom E id (t, o) (wkt, area)))) as [H1 H2].
  { unfold out_boundary_geom.
    destruct (nonempty wkt); [|split; [done|apply all_extend_refl]].
    destruct (is_polygon_wkt wkt); cbn [fst snd];
      [|split; [done|apply all_extend_refl]].
    pose proof (inject_kept tags t area Ht) as Hi. split; [done|].
    apply all_extend_on_table. by apply extends_write. }
  eapply all_extend_trans; [exact H2|].
  specialize (IH (out_boundary_geom E id (t, o) (wkt, area)) H1). exact IH.
Qed.

Lemma all_extend_carries (tags : keyval) (D : osmid_t -> Prop)
    (o o' : output_pgsql_t) :
  all_extend (fun _ => about (fun _ => False) D) o o' ->
  all_extend (fun _ => carries tags) o o'.
Proof. apply all_extend_weaken. intros _ [r| |y]; simpl; done. Qed.

Lemma pgsql_out_way_kept (id : osmid_t) (tags : keyval) (nodes : list osmNode)
    (exists_ : bool) (o : output_pgsql_t) :
  all_extend (fun _ => carries tags) o (pgsql_out_way E id tags nodes exists_ o).
Proof.
  pose proof (all_extend_carries tags _ _ _ (way_prelude_extend E id exists_ o))
    as H0.
  unfold pgsql_out_way. fold (way_prelude E id exists_ o).
  destruct (filter_way_tags _ _ _) as [[filter polygon] roads].
  destruct filter; [done|].
  eapply all_extend_trans; [exact H0|].
  apply (out_way_geoms_kept id roads tags _ (tags, way_prelude E id exists_ o)).
  apply tags_kept_refl.
Qed.

Lemma pgsql_out_relation_kept (id : osmid_t) (rel_tags : keyval)
    (ways : list (osmid_t * keyval * list osmNode))
    (xrole : list (option string)) (o : output_pgsql_t) :
  all_extend (fun _ => carries rel_tags) o
    (pgsql_out_relation E id rel_tags ways xrole o).
Proof.
  unfold pgsql_out_relation. destruct ways as [|w ways]; [apply all_extend_refl|].
  set (ws := w :: ways). cbv zeta.
  destruct (v_drop _); [apply all_extend_refl|].
  destruct (build _ _ _ _ _ _) as [|g wkts] eqn:Hb; [apply all_extend_refl|].
  rewrite out_rel_geoms_eq.
  destruct (out_way_geoms_kept (- id) (v_roads (filter_rel_member_tags
              (m_tagtransform E) rel_tags (map (fun w => snd (fst w)) ws) xrole
              (m_export_list E))) rel_tags (g :: wkts) (rel_tags, o)
              (tags_kept_refl rel_tags)) as [H1 H2].
  destruct (fold_left _ (g :: wkts) (rel_tags, o)) as [tags1 o1].
  cbn [fst snd] in H1, H2.
  eapply all_extend_trans; [exact H2|].
  set (o2 := if v_make_polygon _ then _ else o1).
  assert (all_extend (fun _ => carries rel_tags) o1 o2) as H3.
  { subst o2. destruct (v_make_polygon _); [|apply all_extend_refl].
    eapply all_extend_carries. apply mark_superseeded_spec. }
  eapply all_extend_trans; [exact H3|].
  destruct (v_make_boundary _); [|apply all_extend_refl].
  apply (out_boundary_geoms_kept id rel_tags _ (tags1, o2)). exact H1.
Qed.

(** X16: no tag is lost or changed on the way to a table.  Every row that
    writing a way or a relation streams carries the tag list it was called
    with, with nothing but [way_area] items put in front of it; a row of a
    node carries exactly the tags of the node. *)
Theorem rows_carry_the_tags (id : osmid_t) (tags : keyval)
    (o : output_pgsql_t) (i : table_id) (r : row) :
  (forall nodes exists_,
     In r (copied_rows (m_tables i (pgsql_out_way E id tags nodes exists_ o))) ->
     In r (copied_rows (m_tables i o)) \/ tags_kept tags (row_tags r)) /\
  (forall ways xrole,
     In r (copied_rows (m_tables i (pgsql_out_relation E id tags ways xrole o))) ->
     In r (copied_rows (m_tables i o)) \/ tags_kept tags (row_tags r)) /\
  (forall node_lat node_lon,
     In r (copied_rows (m_tables i (node_add E id node_lat node_lon tags o))) ->
     In r (copied_rows (m_tables i o)) \/ row_tags r = tags).
Proof.
  split_and!.
  - intros nodes exists_ Hin.
    apply (extends_copied_any (carries tags) _ _ r
             (pgsql_out_way_kept id tags nodes exists_ o i) Hin).
  - intros ways xrole Hin.
    apply (extends_copied_any (carries tags) _ _ r
             (pgsql_out_relation_kept id tags ways xrole o i) Hin).
  - intros node_lat node_lon. unfold node_add, pgsql_out_node.
    destruct (filter_node_tags _ _ _); cbn [snd]; [by left|].
    rewrite m_tables_on_table. destruct (decide (i = t_point)); [|by left].
    unfold write_node. rewrite copied_rows_app, in_app_iff.
    intros [H|[<-|[]]]; [by left|by right].
Qed.

(** ** Relations that yield nothing, and boundaries *)

(** X18: when the member filter asks for both a polygon build and the
    boundary pass, the second build is the first one over again: every
    polygon of the relation is streamed to the polygon table twice. *)
Theorem boundary_polygons_twice (id : osmid_t) (rel_tags : keyval)
    (ways : list (osmid_t * keyval * list osmNode))
    (xrole : list (option string)) (o : output_pgsql_t) :
  v_make_polygon (rel_verdict E rel_tags ways xrole) = true ->
  v_make_boundary (rel_verdict E rel_tags ways xrole) = true ->
  streamed (- id) (v_roads (rel_verdict E rel_tags ways xrole))
    (poly_wkts (rel_first_build E id rel_tags ways xrole)
     ++ poly_wkts (rel_first_build E id rel_tags ways xrole))
    (line_wkts (rel_first_build E id rel_tags ways xrole))
    o (pgsql_out_relation E id rel_tags ways xrole o).
Proof.
  intros Hp Hb.
  destruct (pgsql_out_relation_spec E id rel_tags ways xrole o) as (H & _).
  assert (rel_second_build E id rel_tags ways xrole
          = rel_first_build E id rel_tags ways xrole) as Heq.
  { unfold rel_second_build. rewrite Hb.
    destruct (rel_first_build E id rel_tags ways xrole) eqn:H1; [done|].
    rewrite <- H1. unfold rel_first_build in *.
    destruct ways; [done|]. destruct (v_drop _); [done|]. by rewrite Hp. }
  by rewrite Heq in H.
Qed.

(** ** Roles of the member ways *)

Lemma find_role_cons (m : member) (members : list member) (i : nat)
    (xid : osmid_t) :
  find_role (m :: members) (S i) xid = find_role members i xid.
Proof. done. Qed.

Lemma imap_find_role (members : list member)
    (ways : list (osmid_t * keyval * list osmNode)) :
  map (fun w => fst (fst w)) ways = map m_id members ->
  imap (fun i w => find_role members i (fst (fst w))) ways
  = map (fun m => Some (m_role m)) members.
Proof.
  revert ways. induction members as [|m members IH]; intros ways H.
  - by destruct ways.
  - destruct ways as [|w ways]; [done|]. injection H as Hw Hr.
    rewrite imap_cons. cbn [map]. f_equal.
    + unfold find_role. cbn [skipn List.find]. rewrite Hw, Z.eqb_refl. done.
    + rewrite <- (IH ways Hr). apply imap_ext. intros i x _. simpl.
      apply find_role_cons.
Qed.

(** X19: when every member of a relation is a way and the middle returns
    all of them in member order, each way gets the role of its own member,
    also when an id occurs more than once among the members. *)
Theorem roles_follow_members (id : osmid_t) (members : list member)
    (tags : keyval) (exists_ : bool) (o : output_pgsql_t) :
  List.Forall (fun m => m_type m = OSMTYPE_WAY) members ->
  map (fun w => fst (fst w)) (ways_get_list (m_mid E) (map m_id members))
  = map m_id members ->
  filter_rel_tags (m_tagtransform E) tags (m_export_list E) = false ->
  pgsql_process_relation E id members tags exists_ o
  = (0, pgsql_out_relation E id tags
          (ways_get_list (m_mid E) (map m_id members))
          (map (fun m => Some (m_role m)) members)
          (if exists_ then pgsql_delete_relation_from_output E id o else o)).
Proof.
  intros Hall Hids Hf. unfold pgsql_process_relation. rewrite Hf.
  assert (List.filter (fun m => match m_type m with
                                | OSMTYPE_WAY => true | _ => false end) members
          = members) as ->.
  { clear Hids. induction Hall as [|m members Hm _ IH]; simpl; [done|].
    by rewrite Hm, IH. }
  by rewrite (imap_find_role members _ Hids).
Qed.

(** ** What the passes keep *)

(** The calls made on the call-back object of the relations pass. *)
Inductive rel_cb_op : Type :=
  | RelCall (id : osmid_t) (mems : list member) (rel_tags : keyval)
      (exists_ : bool)
  | RelFinish (exists_ : bool).

Definition rel_cb_step (cb : cb_func) (op : rel_cb_op) : cb_func :=
  match op with
  | RelCall id mems rel_tags exists_ =>
      snd (rel_cb_call E id mems rel_tags exists_ cb)
  | RelFinish exists_ => rel_cb_finish E exists_ cb
  end.

Definition rel_cb_run (ops : list rel_cb_op) (cb : cb_func) : cb_func :=
  fold_left rel_cb_step ops cb.

Section Kept.

(** A relation between the output before and after that every step of a
    pass keeps. *)
Variable R : output_pgsql_t -> output_pgsql_t -> Prop.
Hypothesis R_refl : forall o, R o o.
Hypothesis R_trans : forall o1 o2 o3, R o1 o2 -> R o2 o3 -> R o1 o3.

Section WaysPass.

Hypothesis R_set_pending : forall p o, R o (set_ways_pending p o).
Hypothesis R_out_way :
  forall id tags nodes exists_ o, R o (pgsql_out_way E id tags nodes exists_ o).

Lemma kept_way_pop (o : output_pgsql_t) :
  R o (m_ptr (let '(next, p) := pop_mark (ways_pending_tracker o) in
              mk_cb next (set_ways_pending p o))).
Proof. destruct (pop_mark _). apply R_set_pending. Qed.

Lemma kept_way_loop (fuel : nat) (id : osmid_t) (exists_ : bool) (cb : cb_func) :
  R (m_ptr cb) (m_ptr (way_run_internal_loop E fuel id exists_ cb)).
Proof.
  revert cb. induction fuel as [|fuel IH]; intros cb; [apply R_refl|].
  cbn [way_run_internal_loop].
  destruct (m_next_internal_id cb <? id); [|apply R_refl].
  set (o1 := match ways_get (m_mid E) (m_next_internal_id cb) with
             | Some _ => _ | None => m_ptr cb end).
  assert (H1 : R (m_ptr cb) o1).
  { subst o1. destruct (ways_get _ _) as [[tags nodes]|]; [|apply R_refl].
    destruct (negb _); [apply R_out_way|apply R_refl]. }
  destruct (pop_mark (ways_pending_tracker o1)) as [next p].
  eapply R_trans; [exact H1|].
  eapply R_trans; [apply (R_set_pending p)|].
  apply (IH (mk_cb next (set_ways_pending p o1))).
Qed.

Lemma kept_way_step (cb : cb_func) (op : way_cb_op) :
  R (m_ptr cb) (m_ptr (way_cb_step E cb op)).
Proof.
  destruct op as [id tags nodes exists_|exists_].
  - cbn [way_cb_step]. unfold way_cb_call.
    set (cb1 := if m_next_internal_id cb <? id then _ else cb).
    assert (H1 : R (m_ptr cb) (m_ptr cb1)).
    { subst cb1. destruct (_ <? _); [|apply R_refl]. apply kept_way_loop. }
    set (cb2 := if m_next_internal_id cb1 =? id then _ else cb1).
    assert (H2 : R (m_ptr cb1) (m_ptr cb2)).
    { subst cb2. destruct (_ =? _); [apply kept_way_pop|apply R_refl]. }
    eapply R_trans; [exact H1|]. eapply R_trans; [exact H2|].
    destruct (is_marked id _); [apply R_refl|apply R_out_way].
  - apply kept_way_loop.
Qed.

Lemma kept_way_run (ops : list way_cb_op) (cb : cb_func) :
  R (m_ptr cb) (m_ptr (way_cb_run E ops cb)).
Proof.
  revert cb. induction ops as [|op ops IH]; intros cb; [apply R_refl|].
  cbn [way_cb_run fold_left].
  eapply R_trans; [apply (kept_way_step cb op)|]. apply IH.
Qed.

End WaysPass.

Section RelationsPass.

Hypothesis R_set_rels : forall p o, R o (set_rels_pending p o).
Hypothesis R_process :
  forall id members tags exists_ o,
    R o (snd (pgsql_process_relation E id members tags exists_ o)).

Lemma kept_rel_loop (fuel : nat) (id : osmid_t) (exists_ : bool) (cb : cb_func) :
  R (m_ptr cb) (m_ptr (rel_run_internal_loop E fuel id exists_ cb)).
Proof.
  revert cb. induction fuel as [|fuel IH]; intros cb; [apply R_refl|].
  cbn [rel_run_internal_loop].
  destruct (m_next_internal_id cb <? id); [|apply R_refl].
  set (o1 := match relations_get (m_mid E) (m_next_internal_id cb) with
             | Some _ => _ | None => m_ptr cb end).
  assert (H1 : R (m_ptr cb) o1).
  { subst o1. destruct (relations_get _ _) as [[members tags]|];
      [apply R_process|apply R_refl]. }
  destruct (pop_mark (rels_pending_tracker o1)) as [next p].
  eapply R_trans; [exact H1|].
  eapply R_trans; [apply (R_set_rels p)|].
  apply (IH (mk_cb next (set_rels_pending p o1))).
Qed.

Lemma kept_rel_step (cb : cb_func) (op : rel_cb_op) :
  R (m_ptr cb) (m_ptr (rel_cb_step cb op)).
Proof.
  destruct op as [id mems tags exists_|exists_].
  - cbn [rel_cb_step]. unfold rel_cb_call.
    set (cb1 := if m_next_internal_id cb <? id then _ else cb).
    assert (H1 : R (m_ptr cb) (m_ptr cb1)).
    { subst cb1. destruct (_ <? _); [|apply R_refl]. apply kept_rel_loop. }
    set (cb2 := if m_next_internal_id cb1 =? id then _ else cb1).
    assert (H2 : R (m_ptr cb1) (m_ptr cb2)).
    { subst cb2. destruct (_ =? _); [|apply R_refl].
      destruct (pop_mark _). apply R_set_rels. }
    eapply R_trans; [exact H1|]. eapply R_trans; [exact H2|].
    pose proof (R_process id mems tags exists_ (m_ptr cb2)) as H3.
    destruct (pgsql_process_relation E id mems tags exists_ (m_ptr cb2)).
    exact H3.
  - apply kept_rel_loop.
Qed.

Lemma kept_rel_run (ops : list rel_cb_op) (cb : cb_func) :
  R (m_ptr cb) (m_ptr (rel_cb_run ops cb)).
Proof.
  revert cb. induction ops as [|op ops IH]; intros cb; [apply R_refl|].
  cbn [rel_cb_run fold_left].
  eapply R_trans; [apply (kept_rel_step cb op)|]. apply IH.
Qed.

End RelationsPass.

End Kept.

Lemma pgsql_out_way_point (id : osmid_t) (tags : keyval) (nodes : list osmNode)
    (exists_ : bool) (o : output_pgsql_t) :
  m_tables t_point (pgsql_out_way E id tags nodes exists_ o) = m_tables t_point o.
Proof.
  destruct (pgsql_out_way_emitted E id tags nodes exists_ o)
    as (_ & _ & _ & _ & _ & -> & _).
  unfold way_prelude. destruct exists_; [|done].
  destruct (mark_rels_tables (relations_using_way (m_mid E) id)
              (pgsql_delete_way_from_output E id o)) as (-> & _).
  apply delete_way_point.
Qed.

Lemma pgsql_out_relation_point (id : osmid_t) (rel_tags : keyval)
    (ways : list (osmid_t * keyval * list osmNode))
    (xrole : list (option string)) (o : output_pgsql_t) :
  m_tables t_point (pgsql_out_relation E id rel_tags ways xrole o)
  = m_tables t_point o.
Proof.
  unfold pgsql_out_relation. destruct ways as [|w ways]; [done|].
  set (ws := w :: ways). cbv zeta.
  destruct (v_drop _); [done|].
  destruct (build _ _ _ _ _ _) as [|g wkts] eqn:Hb; [done|].
  rewrite out_rel_geoms_eq.
  match goal with
  | |- context [fold_left (out_way_geom E (- id) ?r) (g :: wkts) (rel_tags, o)] =>
      pose proof (out_way_geoms_emitted E (- id) r (g :: wkts) rel_tags o)
        as (_ & _ & _ & _ & _ & H1 & _);
      destruct (fold_left (out_way_geom E (- id) r) (g :: wkts) (rel_tags, o))
        as [tags1 o1]
  end.
  cbn [snd] in H1. rewrite <- H1.
  set (o2 := if v_make_polygon _ then _ else o1).
  assert (m_tables t_point o2 = m_tables t_point o1) as <-.
  { subst o2. destruct (v_make_polygon _); [|done].
    apply mark_superseeded_spec. }
  destruct (v_make_boundary _); [|done].
  by destruct (out_boundary_geoms_emitted E id
                 (build (builder E) id (map snd ws) true
                    (enable_multi (m_options E)) (split_at E)) tags1 o2)
    as (_ & _ & _ & _ & _ & -> & _).
Qed.

Lemma pgsql_process_relation_point (id : osmid_t) (members : list member)
    (tags : keyval) (exists_ : bool) (o : output_pgsql_t) :
  m_tables t_point (snd (pgsql_process_relation E id members tags exists_ o))
  = m_tables t_point o.
Proof.
  unfold pgsql_process_relation.
  set (o0 := if exists_ then pgsql_delete_relation_from_output E id o else o).
  assert (m_tables t_point o0 = m_tables t_point o) as <-.
  { subst o0. destruct exists_; [apply delete_relation_point|done]. }
  destruct (filter_rel_tags _ _ _); cbn [snd]; [done|].
  apply pgsql_out_relation_point.
Qed.

(** X20: the point table is written by nodes only, and nodes write to no
    other table: adding a way or a relation and every call of the ways pass
    and of the relations pass (upstream calls, the replay of pending ids
    and [finish]) leave the point table as it is, and [node_add] leaves the
    line, polygon and roads tables as they are. *)
Theorem point_table_is_for_nodes :
  (forall id nds tags o,
     m_tables t_point (way_add E id nds tags o) = m_tables t_point o) /\
  (forall id members tags o,
     m_tables t_point (relation_add E id members tags o) = m_tables t_point o) /\
  (forall ops cb,
     m_tables t_point (m_ptr (way_cb_run E ops cb)) = m_tables t_point (m_ptr cb)) /\
  (forall ops cb,
     m_tables t_point (m_ptr (rel_cb_run ops cb)) = m_tables t_point (m_ptr cb)) /\
  (forall id node_lat node_lon tags o i,
     i <> t_point ->
     m_tables i (node_add E id node_lat node_lon tags o) = m_tables i o).
Proof.
  split_and!.
  - intros id nds tags o. unfold way_add.
    destruct (filter_way_tags _ _ _) as [[filter polygon] roads].
    destruct filter, polygon; cbn [negb andb]; try done.
    apply pgsql_out_way_point.
  - intros id members tags o. unfold relation_add.
    destruct (getItem tags "type"); [|done].
    destruct (_ && _)%bool; [done|]. apply pgsql_process_relation_point.
  - intros ops cb.
    apply (kept_way_run (fun o o' => m_tables t_point o' = m_tables t_point o));
      try done.
    + intros o1 o2 o3 H1 H2. by rewrite H2.
    + intros. apply pgsql_out_way_point.
  - intros ops cb.
    apply (kept_rel_run (fun o o' => m_tables t_point o' = m_tables t_point o));
      try done.
    + intros o1 o2 o3 H1 H2. by rewrite H2.
    + intros. apply pgsql_process_relation_point.
  - intros id node_lat node_lon tags o i Hi. unfold node_add, pgsql_out_node.
    destruct (filter_node_tags _ _ _); cbn [snd]; [done|]. by destruct i.
Qed.

Lemma pgsql_process_relation_done (id : osmid_t) (members : list member)
    (tags : keyval) (exists_ : bool) (o : output_pgsql_t) :
  ways_done_tracker o
  ⊆ ways_done_tracker (snd (pgsql_process_relation E id members tags exists_ o)).
Proof.
  unfold pgsql_process_relation.
  set (o0 := if exists_ then pgsql_delete_relation_from_output E id o else o).
  assert (ways_done_tracker o0 = ways_done_tracker o) as <-.
  { subst o0. destruct exists_; [apply delete_relation_trackers|done]. }
  destruct (filter_rel_tags _ _ _); cbn [snd]; [done|].
  match goal with
  | |- context [pgsql_out_relation E id tags ?w ?x o0] =>
      destruct (pgsql_out_relation_spec E id tags w x o0) as (_ & _ & -> & _)
  end.
  set_solver.
Qed.

(** X21: ways_done is written by relation processing only, and it only
    grows: adding a node or a way and every call of the ways pass leave it
    as it is, and adding a relation and every call of the relations pass
    keep every id that was marked. *)
Theorem done_set_only_grows :
  (forall id node_lat node_lon tags o,
     ways_done_tracker (node_add E id node_lat node_lon tags o)
     = ways_done_tracker o) /\
  (forall id nds tags o,
     ways_done_tracker (way_add E id nds tags o) = ways_done_tracker o) /\
  (forall ops cb,
     ways_done_tracker (m_ptr (way_cb_run E ops cb))
     = ways_done_tracker (m_ptr cb)) /\
  (forall id members tags o,
     ways_done_tracker o ⊆ ways_done_tracker (relation_add E id members tags o)) /\
  (forall ops cb,
     ways_done_tracker (m_ptr cb) ⊆ ways_done_tracker (m_ptr (rel_cb_run ops cb))).
Proof.
  split_and!.
  - intros id node_lat node_lon tags o. unfold node_add, pgsql_out_node.
    destruct (filter_node_tags _ _ _); cbn [snd]; [done|].
    apply on_table_trackers.
  - intros id nds tags o. unfold way_add.
    destruct (filter_way_tags _ _ _) as [[filter polygon] roads].
    destruct filter, polygon; cbn [negb andb]; try done.
    apply pgsql_out_way_trackers.
  - intros ops cb.
    apply (kept_way_run
             (fun o o' => ways_done_tracker o' = ways_done_tracker o)); try done.
    + intros o1 o2 o3 H1 H2. by rewrite H2.
    + intros. apply pgsql_out_way_trackers.
  - intros id members tags o. unfold relation_add.
    destruct (getItem tags "type"); [|done].
    destruct (_ && _)%bool; [done|]. apply pgsql_process_relation_done.
  - intros ops cb.
    apply (kept_rel_run
             (fun o o' => ways_done_tracker o ⊆ ways_done_tracker o'));
      try done.
    + intros o1 o2 o3 H1 H2. set_solver.
    + intros. apply pgsql_process_relation_done.
Qed.

(** ** A superseded way from ingest to the ways pass *)

(** The member ways the middle returns for a relation, and their roles, as
    [pgsql_process_relation] hands them to [pgsql_out_relation]. *)
Definition fetched_ways (members : list member)
  : list (osmid_t * keyval * list osmNode) :=
  ways_get_list (m_mid E)
    (map m_id (List.filter (fun m => match m_type m with
                                     | OSMTYPE_WAY => true
                                     | _ => false
                                     end) members)).

Definition fetched_roles (members : list member) : list (option string) :=
  imap (fun i w => find_role members i (fst (fst w))) (fetched_ways members).

Lemma extends_copied_other (C D : osmid_t -> Prop) (W : osmid_t)
    (t t' : table_t) :
  (forall x, C x -> x <> W) ->
  extends (about C D) t t' ->
  rows_with W (copied_rows t') = rows_with W (copied_rows t).
Proof.
  intros HC (cmds & -> & H). rewrite copied_rows_app, rows_with_app.
  assert (rows_with W (copied_rows cmds) = []) as ->; [|by rewrite app_nil_r].
  induction H as [|c cmds Hc _ IH]; [done|].
  destruct c as [r| |y]; simpl in *; try done.
  destruct (Z.eqb_spec (osm_id r) W) as [Heq|_]; [|done].
  by apply HC in Hc.
Qed.

Lemma way_pass_run (exists_ : bool) (ups : list way_item) (o : output_pgsql_t) :
  way_pass E exists_ ups o
  = way_cb_run E
      (map (fun u => CbCall (way_uid u) (snd (fst u)) (snd u) exists_) ups
       ++ [CbFinish exists_])
      (way_cb_func o).
Proof.
  unfold way_pass, way_cb_run. rewrite fold_left_app. cbn [fold_left way_cb_step].
  f_equal. generalize (way_cb_func o).
  induction ups as [|u ups IH]; intros cb; [done|]. cbn [map fold_left].
  apply IH.
Qed.

(** A way that relation processing marks done is not written by the ways
    pass that follows. *)
Lemma marked_way_is_not_written (W R : osmid_t) (nds : list osmid_t)
    (wtags : keyval) (members : list member) (rtags : keyval) (ty : string)
    (exists_ : bool) (ups : list way_item) (o : output_pgsql_t) :
  fst (fst (filter_way_tags (m_tagtransform E) wtags (m_export_list E))) = false ->
  snd (fst (filter_way_tags (m_tagtransform E) wtags (m_export_list E))) = true ->
  getItem rtags "type" = Some ty ->
  ty = "route" \/ ty = "multipolygon" \/ ty = "boundary" ->
  filter_rel_tags (m_tagtransform E) rtags (m_export_list E) = false ->
  In W (rel_marks E R rtags (fetched_ways members) (fetched_roles members)) ->
  W <> - R ->
  let o1 := way_add E W nds wtags o in
  let o2 := relation_add E R members rtags o1 in
  let o3 := m_ptr (way_pass E exists_ ups o2) in
  is_marked W (ways_pending_tracker o1) = true /\
  is_marked W (ways_done_tracker o2) = true /\
  forall i,
    rows_with W (copied_rows (m_tables i o3))
    = rows_with W (copied_rows (m_tables i o)).
Proof.
  intros Hf Hp Hty Hsup Hrf HW Hne o1 o2 o3.
  assert (o1 = set_ways_pending (mark W (ways_pending_tracker o)) o) as Ho1.
  { subst o1. unfold way_add.
    destruct (filter_way_tags _ _ _) as [[filter polygon] roads].
    cbn [fst snd] in Hf, Hp. by subst. }
  assert (o2 = pgsql_out_relation E R rtags (fetched_ways members)
                 (fetched_roles members) o1) as Ho2.
  { subst o2. unfold relation_add. rewrite Hty.
    assert ((negb (String.eqb ty "route") && negb (String.eqb ty "multipolygon")
             && negb (String.eqb ty "boundary"))%bool = false) as ->
      by (destruct Hsup as [-> | [-> | ->]]; reflexivity).
    unfold pgsql_process_relation. by rewrite Hrf. }
  destruct (pgsql_out_relation_spec E R rtags (fetched_ways members)
              (fetched_roles members) o1) as (_ & Hex & Hdone & _).
  rewrite <- Ho2 in Hex, Hdone.
  assert (is_marked W (ways_done_tracker o2) = true) as Hm.
  { unfold is_marked. apply bool_decide_eq_true. rewrite Hdone.
    apply elem_of_union_l, elem_of_list_to_set, list_elem_of_In, HW. }
  split_and!; [| exact Hm |].
  - rewrite Ho1. unfold is_marked, mark. cbn. apply bool_decide_eq_true.
    set_solver.
  - intros i. subst o3. rewrite way_pass_run.
    assert (is_marked W (ways_done_tracker (m_ptr (way_cb_func o2))) = true)
      as Hm'.
    { unfold way_cb_func. by destruct (pop_mark _). }
    destruct (untouched_run E W
                (map (fun u => CbCall (way_uid u) (snd (fst u)) (snd u) exists_)
                   ups ++ [CbFinish exists_]) (way_cb_func o2) Hm') as [Hun _].
    destruct (extends_not_about W _ _ (Hun i)) as [_ ->].
    assert (m_tables i (m_ptr (way_cb_func o2)) = m_tables i o2) as ->.
    { unfold way_cb_func. destruct (pop_mark _). by destruct i. }
    assert (forall x, x = - R -> x <> W) as HC
      by (intros x -> Heq; by apply Hne).
    rewrite (extends_copied_other _ _ W _ _ HC (Hex i)).
    rewrite Ho1. by destruct i.
Qed.

Lemma flagged_ids_lookup (xid : list osmid_t) (sup : list bool) (i : nat)
    (x : osmid_t) :
  xid !! i = Some x -> sup !! i = Some true -> In x (flagged_ids xid sup).
Proof.
  revert i sup. induction xid as [|y xid IH]; intros [|i] [|b sup] Hx Hs;
    simpl in *; try done.
  - injection Hx as ->. injection Hs as ->. by left.
  - apply in_or_app. right. by apply (IH i sup).
Qed.

(** X22: a polygon way that a relation supersedes is never written on its
    own.  [way_add] writes nothing for a kept polygon way and marks it
    pending.  When [relation_add] then gets a relation of a supported type
    that the relation filter keeps, whose member filter keeps it, asks for
    the polygon build and sets the superseded flag at the position of the
    way among the ways the middle returns, all of which have nodes, and
    whose build yields a geometry, the way is marked done; and the ways
    pass that follows, whatever upstream ways it is called with, streams no
    row with the id of the way to any table. *)
Theorem superseded_way_is_not_written (W R : osmid_t) (nds : list osmid_t)
    (wtags : keyval) (members : list member) (rtags : keyval) (ty : string)
    (pos : nat) (exists_ : bool) (ups : list way_item) (o : output_pgsql_t) :
  fst (fst (filter_way_tags (m_tagtransform E) wtags (m_export_list E))) = false ->
  snd (fst (filter_way_tags (m_tagtransform E) wtags (m_export_list E))) = true ->
  getItem rtags "type" = Some ty ->
  ty = "route" \/ ty = "multipolygon" \/ ty = "boundary" ->
  filter_rel_tags (m_tagtransform E) rtags (m_export_list E) = false ->
  let v := filter_rel_member_tags (m_tagtransform E) rtags
             (map (fun w => snd (fst w)) (fetched_ways members))
             (fetched_roles members) (m_export_list E) in
  v_drop v = false ->
  v_make_polygon v = true ->
  map (fun w => fst (fst w)) (fetched_ways members) !! pos = Some W ->
  v_superseeded v !! pos = Some true ->
  List.Forall (fun w => snd w <> []) (fetched_ways members) ->
  build (builder E) R (map snd (fetched_ways members)) true
    (enable_multi (m_options E)) (split_at E) <> [] ->
  W <> - R ->
  let o1 := way_add E W nds wtags o in
  let o2 := relation_add E R members rtags o1 in
  let o3 := m_ptr (way_pass E exists_ ups o2) in
  is_marked W (ways_pending_tracker o1) = true /\
  is_marked W (ways_done_tracker o2) = true /\
  forall i,
    rows_with W (copied_rows (m_tables i o3))
    = rows_with W (copied_rows (m_tables i o)).
Proof.
  intros Hf Hp Hty Hsup Hrf v Hdrop Hmp Hpos Hflag Hnodes Hbuild Hne.
  apply (marked_way_is_not_written W R nds wtags members rtags ty exists_ ups o);
    try done.
  unfold rel_marks, rel_first_build, rel_verdict. fold v.
  rewrite Hdrop, Hmp.
  destruct (fetched_ways members) as [|w ways] eqn:Hw; [done|].
  destruct (build (builder E) R (map snd (w :: ways)) true _ _); [done|].
  rewrite marked_ids_flagged.
  - rewrite map_map. cbn [fst]. by apply (flagged_ids_lookup _ _ pos).
  - clear -Hnodes. induction Hnodes; simpl; by constructor.
Qed.


(** ** An update reaches the relations of a way *)

Lemma way_cb_run_app (ops1 ops2 : list way_cb_op) (cb : cb_func) :
  way_cb_run E (ops1 ++ ops2) cb = way_cb_run E ops2 (way_cb_run E ops1 cb).
Proof. unfold way_cb_run. apply fold_left_app. Qed.

Lemma way_cb_run_done (ops : list way_cb_op) (cb : cb_func) :
  ways_done_tracker (m_ptr (way_cb_run E ops cb)) = ways_done_tracker (m_ptr cb).
Proof.
  apply (kept_way_run
           (fun o o' => ways_done_tracker o' = ways_done_tracker o)); try done.
  - intros o1 o2 o3 H1 H2. by rewrite H2.
  - intros. apply pgsql_out_way_trackers.
Qed.

Lemma way_cb_run_rels_pending (ops : list way_cb_op) (cb : cb_func) :
  rels_pending_tracker (m_ptr cb)
  ⊆ rels_pending_tracker (m_ptr (way_cb_run E ops cb)).
Proof.
  apply (kept_way_run
           (fun o o' => rels_pending_tracker o ⊆ rels_pending_tracker o'));
    try done.
  - intros o1 o2 o3 H1 H2. set_solver.
  - intros. rewrite pgsql_out_way_rels_pending. set_solver.
Qed.

(** X23: an update reaches the relations of a way.  When the ways pass is
    called with a way that may exist already and is not marked done, every
    relation that uses the way is in rels_pending when the pass is over,
    whatever other calls the pass makes before and after. *)
Theorem rewritten_way_requeues_relations (ops1 ops2 : list way_cb_op)
    (cb : cb_func) (id : osmid_t) (tags : keyval) (nodes : list osmNode)
    (r : osmid_t) :
  In r (relations_using_way (m_mid E) id) ->
  is_marked id (ways_done_tracker (m_ptr cb)) = false ->
  r ∈ rels_pending_tracker
        (m_ptr (way_cb_run E (ops1 ++ CbCall id tags nodes true :: ops2) cb)).
Proof.
  intros Hr Hd. rewrite way_cb_run_app.
  change (way_cb_run E (CbCall id tags nodes true :: ops2) (way_cb_run E ops1 cb))
    with (way_cb_run E ops2
            (way_cb_call E id tags nodes true (way_cb_run E ops1 cb))).
  apply way_cb_run_rels_pending.
  pose proof (way_cb_run_done ops1 cb) as Hd1.
  set (cb0 := way_cb_run E ops1 cb) in *.
  unfold way_cb_call.
  set (cb1 := if m_next_internal_id cb0 <? id then _ else cb0).
  assert (H1 : ways_done_tracker (m_ptr cb1) = ways_done_tracker (m_ptr cb0)).
  { subst cb1. destruct (_ <? _); [|done].
    apply (kept_way_loop
             (fun o o' => ways_done_tracker o' = ways_done_tracker o));
      try done.
    - intros o1 o2 o3 Ha Hb. by rewrite Hb.
    - intros. apply pgsql_out_way_trackers. }
  set (cb2 := if m_next_internal_id cb1 =? id then _ else cb1).
  assert (H2 : ways_done_tracker (m_ptr cb2) = ways_done_tracker (m_ptr cb1)).
  { subst cb2. destruct (_ =? _); [|done]. by destruct (pop_mark _). }
  rewrite H2, H1, Hd1, Hd. cbn [m_ptr].
  rewrite pgsql_out_way_rels_pending.
  apply elem_of_union_l, elem_of_list_to_set, list_elem_of_In, Hr.
Qed.

(** ** A pending polygon from ingest to the ways pass *)

(** X24: a kept polygon way is written by the ways pass, from what the
    middle holds of it.  When no other way is pending, the way is not
    marked done and the middle knows it, a ways pass without upstream ways
    that follows [way_add] writes the way with the tags and nodes of the
    middle and leaves ways_pending empty. *)
Theorem pending_polygon_written_by_pass (W : osmid_t) (nds : list osmid_t)
    (tags tags_int : keyval) (nodes_int : list osmNode) (roads exists_ : bool)
    (o : output_pgsql_t) :
  filter_way_tags (m_tagtransform E) tags (m_export_list E)
    = (false, true, roads) ->
  ways_pending_tracker o = ∅ ->
  is_marked W (ways_done_tracker o) = false ->
  W < osmid_max ->
  ways_get (m_mid E) W = Some (tags_int, nodes_int) ->
  way_pass E exists_ [] (way_add E W nds tags o)
  = mk_cb osmid_max
      (set_ways_pending ∅ (pgsql_out_way E W tags_int nodes_int exists_ o)).
Proof.
  intros Hf Hp Hd Hlt Hget.
  assert (way_add E W nds tags o = set_ways_pending (list_to_set [W]) o) as ->.
  { unfold way_add. rewrite Hf. cbn [negb andb]. f_equal. unfold mark.
    rewrite Hp. set_solver. }
  rewrite way_pass_generic.
  rewrite (g_pass_spec way_uid ways_pending_tracker set_ways_pending
             (way_replay E exists_) (way_handle E exists_)
             (fun p o => eq_refl) (fun p q o => eq_refl)
             (way_replay_set_pending E exists_)
             (way_handle_set_pending E exists_) [] [W]).
  - cbn [merge_schedule map fold_left do_visit]. unfold way_replay.
    rewrite Hget.
    change (ways_done_tracker (set_ways_pending (list_to_set [W]) o))
      with (ways_done_tracker o).
    rewrite Hd. by rewrite pgsql_out_way_set_pending.
  - apply SSorted_cons; [apply SSorted_nil|apply List.Forall_nil].
  - apply List.Forall_cons; [done|apply List.Forall_nil].
  - apply List.Forall_nil.
  - done.
Qed.

(** ** Modifying a relation *)

Lemma extends_rows_undeleted (C D : osmid_t -> Prop) (k : osmid_t)
    (t : table_t) (cmds : list table_cmd) :
  (forall y, D y -> y <> k) ->
  List.Forall (about C D) cmds ->
  rows_with k (table_rows (t ++ cmds))
  = rows_with k (table_rows t) ++ rows_with k (copied_rows cmds).
Proof.
  intros HD H. revert t.
  induction H as [|c cmds Hc _ IH]; intros t.
  - by rewrite !app_nil_r.
  - replace (t ++ c :: cmds) with ((t ++ [c]) ++ cmds) by by rewrite <- app_assoc.
    rewrite IH, table_rows_snoc. destruct c as [r| |y].
    + change (copied_rows (CopyRow r :: cmds)) with ([r] ++ copied_rows cmds).
      cbn [apply_cmd]. by rewrite !rows_with_app, <- app_assoc.
    + done.
    + change (copied_rows (DeleteWhere y :: cmds)) with (copied_rows cmds).
      f_equal. apply apply_cmd_not_about. simpl. by apply HD.
Qed.

(** X25: in slim mode [relation_modify] replaces the rows of the relation.
    For a relation of a supported type that the relation filter keeps, and
    whose key [-id] is not the id of a superseded member way, the line,
    polygon and roads tables hold for the key exactly the rows streamed
    for the new geometries afterwards; a relation without a supported type
    is left with no rows. *)
Theorem relation_modify_replaces_rows (id : osmid_t) (members : list member)
    (tags : keyval) (o : output_pgsql_t) :
  slim (m_options E) = true -> from_db_probes E ->
  exists o',
    relation_modify E id members tags o = Return [] o' /\
    ((forall ty, getItem tags "type" = Some ty ->
        ty <> "route" /\ ty <> "multipolygon" /\ ty <> "boundary") ->
     forall i, i <> t_point ->
       rows_with (- id) (table_rows (m_tables i o')) = []) /\
    (forall ty,
       getItem tags "type" = Some ty ->
       ty = "route" \/ ty = "multipolygon" \/ ty = "boundary" ->
       filter_rel_tags (m_tagtransform E) tags (m_export_list E) = false ->
       ~ In (- id) (rel_marks E id tags (fetched_ways members)
                      (fetched_roles members)) ->
       let w1 := rel_first_build E id tags (fetched_ways members)
                   (fetched_roles members) in
       let w2 := rel_second_build E id tags (fetched_ways members)
                   (fetched_roles members) in
       exists new_poly new_line,
         rows_with (- id) (table_rows (m_tables t_poly o')) = new_poly /\
         rows_with (- id) (table_rows (m_tables t_line o')) = new_line /\
         rows_with (- id) (table_rows (m_tables t_roads o'))
         = (if v_roads (rel_verdict E tags (fetched_ways members)
                          (fetched_roles members))
            then new_line else []) /\
         map way new_poly = map Wkt (poly_wkts w1 ++ poly_wkts w2) /\
         map way new_line = map Wkt (line_wkts w1)).
Proof.
  intros Hs Hc. unfold relation_modify, relation_delete. rewrite Hs. cbn [negb].
  eexists. split; [reflexivity|].
  set (o1 := pgsql_delete_relation_from_output E id o).
  assert (forall i, i <> t_point ->
            rows_with (- id) (table_rows (m_tables i o1)) = []) as Hgone.
  { intros i Hi. by apply delete_relation_rows. }
  split.
  - intros Hty i Hi. unfold relation_add.
    destruct (getItem tags "type") as [ty|]; [|by apply Hgone].
    destruct (Hty ty eq_refl) as (H1 & H2 & H3).
    apply String.eqb_neq in H1, H2, H3. rewrite H1, H2, H3. cbn [negb andb].
    by apply Hgone.
  - intros ty Hty Hsup Hrf Hnot.
    assert (relation_add E id members tags o1
            = pgsql_out_relation E id tags (fetched_ways members)
                (fetched_roles members) o1) as ->.
    { unfold relation_add. rewrite Hty.
      assert ((negb (String.eqb ty "route") && negb (String.eqb ty "multipolygon")
               && negb (String.eqb ty "boundary"))%bool = false) as ->
        by (destruct Hsup as [-> | [-> | ->]]; reflexivity).
      unfold pgsql_process_relation. by rewrite Hrf. }
    destruct (pgsql_out_relation_spec E id tags (fetched_ways members)
                (fetched_roles members) o1) as (Hst & Hex & _).
    set (o2 := pgsql_out_relation E id tags (fetched_ways members)
                 (fetched_roles members) o1) in *.
    destruct Hst as (new_poly & new_line & Hpo & Hli & Hro & _ & Hwp & Hwl &
                     Hidp & Hidl).
    exists new_poly, new_line.
    assert (forall i new,
              i <> t_point ->
              copied_rows (m_tables i o2) = copied_rows (m_tables i o1) ++ new ->
              List.Forall (fun r => osm_id r = - id) new ->
              rows_with (- id) (table_rows (m_tables i o2)) = new) as Hrows.
    { intros i new Hi Hcp Hid. destruct (Hex i) as (cmds & Heq & Hall).
      rewrite Heq in Hcp |- *. rewrite copied_rows_app in Hcp.
      apply app_inv_head in Hcp.
      rewrite (extends_rows_undeleted _ _ (- id) _ _
                 (fun y Hy Heq' => Hnot (eq_ind y (fun z => In z _) Hy _ Heq'))
                 Hall).
      rewrite Hgone, Hcp by done. by apply rows_with_all. }
    split_and!; try done.
    + by apply Hrows.
    + by apply Hrows.
    + apply Hrows; [done|done|]. by destruct (v_roads _).
Qed.

(** ** Relations that change nothing *)

(** X17: [relation_add] changes neither a table nor a tracker when the
    relation has no type tag or a type other than route, multipolygon and
    boundary, when the relation filter drops it, when the middle returns
    none of its member ways, when the member filter drops it, or when the
    builder makes no geometry of it.  In the last three cases this holds
    whatever the member filter says about superseded ways and boundaries:
    no member is marked done. *)
Theorem relation_add_changes_nothing (id : osmid_t) (members : list member)
    (tags : keyval) (o : output_pgsql_t) :
  getItem tags "type" = None \/
  (exists ty, getItem tags "type" = Some ty /\
              ty <> "route" /\ ty <> "multipolygon" /\ ty <> "boundary") \/
  filter_rel_tags (m_tagtransform E) tags (m_export_list E) = true \/
  fetched_ways members = [] \/
  v_drop (rel_verdict E tags (fetched_ways members) (fetched_roles members))
    = true \/
  build (builder E) id (map snd (fetched_ways members))
    (v_make_polygon
       (rel_verdict E tags (fetched_ways members) (fetched_roles members)))
    (enable_multi (m_options E)) (split_at E) = [] ->
  relation_add E id members tags o = o.
Proof.
  unfold relation_add.
  intros [H|[(ty & Hty & H1 & H2 & H3)|H]].
  - by rewrite H.
  - rewrite Hty. apply String.eqb_neq in H1, H2, H3. by rewrite H1, H2, H3.
  - destruct (getItem tags "type") as [ty|]; [|done].
    destruct (_ && _)%bool; [done|]. unfold pgsql_process_relation.
    fold (fetched_ways members). fold (fetched_roles members).
    destruct (filter_rel_tags _ _ _) eqn:Hf; [done|]. cbn [snd].
    destruct H as [H|H]; [done|].
    unfold pgsql_out_relation. fold (rel_verdict E tags (fetched_ways members)
                                       (fetched_roles members)).
    destruct (fetched_ways members) as [|w ways] eqn:Hw; [done|].
    destruct H as [H|[H|H]]; [done| |].
    + cbv zeta. by rewrite H.
    + cbv zeta. destruct (v_drop _); [done|]. by rewrite H.
Qed.

End More.

(** ** The theorems at work *)

Lemma node_delete_removes_rows_witness :
  exists o',
    node_delete (demo_env true true) 10 output_after_way_10 = Return [] o' /\
    rows_with 10 (table_rows (tbl_point o')) = [] /\
    (forall y, y <> 10 ->
       rows_with y (table_rows (tbl_point o'))
       = rows_with y (table_rows (tbl_point output_after_way_10))) /\
    copied_rows (tbl_point o') = copied_rows (tbl_point output_after_way_10) /\
    (forall i, i <> t_point -> m_tables i o' = m_tables i output_after_way_10) /\
    same_trackers output_after_way_10 o'.
Proof.
  apply (proj2 (node_delete_removes_rows (demo_env true true) 10
                  output_after_way_10)).
  - reflexivity.
  - apply demo_from_db_probes.
Defined.

Lemma node_modify_replaces_row_witness :
  exists o',
    node_modify (demo_env true true) 7 d_zero d_one [("amenity", "pub")]
      empty_output = Return [] o' /\
    rows_with 7 (table_rows (tbl_point o'))
    = (if filter_node_tags (m_tagtransform (demo_env true true))
            [("amenity", "pub")] (m_export_list (demo_env true true))
       then []
       else [mk_row 7 [("amenity", "pub")] (NodePoint d_zero d_one)]) /\
    (forall y, y <> 7 ->
       rows_with y (table_rows (tbl_point o'))
       = rows_with y (table_rows (tbl_point empty_output))) /\
    (forall i, i <> t_point -> m_tables i o' = m_tables i empty_output) /\
    same_trackers empty_output o'.
Proof.
  apply (node_modify_replaces_row (demo_env true true) 7 d_zero d_one
           [("amenity", "pub")] empty_output).
  - reflexivity.
  - apply demo_from_db_probes.
Defined.

Lemma relation_delete_removes_rows_witness :
  exists o',
    relation_delete (demo_env true true) 99 empty_output = Return [] o' /\
    (forall i, i <> t_point ->
       rows_with (- 99) (table_rows (m_tables i o')) = []) /\
    (forall y i, y <> - 99 ->
       rows_with y (table_rows (m_tables i o'))
       = rows_with y (table_rows (m_tables i empty_output))) /\
    (forall i, copied_rows (m_tables i o')
               = copied_rows (m_tables i empty_output)) /\
    m_tables t_point o' = m_tables t_point empty_output /\
    same_trackers empty_output o'.
Proof.
  apply (proj2 (relation_delete_removes_rows (demo_env true true) 99
                  empty_output)).
  - reflexivity.
  - apply demo_from_db_probes.
Defined.

Lemma way_modify_replaces_rows_witness :
  exists o',
    way_modify (demo_env true true) 10 [1; 2] [("highway", "x")]
      output_with_way_10 = Return [] o' /\
    (forall y i, y <> 10 ->
       rows_with y (table_rows (m_tables i o'))
       = rows_with y (table_rows (m_tables i output_with_way_10))) /\
    m_tables t_point o' = m_tables t_point output_with_way_10 /\
    ways_done_tracker o' = ways_done_tracker output_with_way_10 /\
    rels_pending_tracker o' = rels_pending_tracker output_with_way_10 /\
    ways_pending_tracker o'
    = (if (negb false && false)%bool
       then {[ 10 ]} ∪ ways_pending_tracker output_with_way_10
       else ways_pending_tracker output_with_way_10) /\
    ((false || false)%bool = true ->
     forall i, i <> t_point ->
       rows_with 10 (table_rows (m_tables i o')) = []) /\
    (false = false -> false = false ->
     let wkts := get_wkt_split (builder (demo_env true true))
                   (nodes_get_list (m_mid (demo_env true true)) [1; 2]) false
                   (split_at (demo_env true true)) in
     exists new_poly new_line,
       rows_with 10 (table_rows (m_tables t_poly o')) = new_poly /\
       rows_with 10 (table_rows (m_tables t_line o')) = new_line /\
       rows_with 10 (table_rows (m_tables t_roads o'))
       = (if true then new_line else []) /\
       map way new_poly = map Wkt (poly_wkts wkts) /\
       map way new_line = map Wkt (line_wkts wkts)).
Proof.
  apply (way_modify_replaces_rows (demo_env true true) 10 [1; 2]
           [("highway", "x")] output_with_way_10 false false true).
  - reflexivity.
  - reflexivity.
  - apply demo_from_db_probes.
  - reflexivity.
Defined.

Lemma relation_add_changes_nothing_witness :
  relation_add (demo_env true true) 99 relation_99_members
    [("type", "site")] output_with_way_10 = output_with_way_10.
Proof.
  apply (relation_add_changes_nothing (demo_env true true) 99
           relation_99_members [("type", "site")] output_with_way_10).
  right. left. exists "site". split; [reflexivity|].
  split; [discriminate|]. split; discriminate.
Defined.

(** A member filter that asks for the polygon build and the boundary pass
    at once. *)
Definition boundary_polygon_tagtransform : tagtransform :=
  mk_tagtransform
    (fun _ _ => false) (fun _ _ => (false, false, false)) (fun _ _ => false)
    (fun _ xtags _ _ => mk_verdict false (map (fun _ => false) xtags) true true
                          false).

Definition boundary_polygon_env : output_env :=
  mk_env (mk_options true false false false) empty_export_list true
    boundary_polygon_tagtransform demo_builder demo_mid demo_expire
    (fun _ => "1").

Lemma boundary_polygons_twice_witness :
  streamed (- 99) false
    (["MULTIPOLYGON(((0 0,1 0,1 1,0 0)))"]
     ++ ["MULTIPOLYGON(((0 0,1 0,1 1,0 0)))"]) []
    empty_output
    (pgsql_out_relation boundary_polygon_env 99 [("type", "boundary")]
       relation_99_ways [Some "outer"] empty_output).
Proof.
  apply (boundary_polygons_twice boundary_polygon_env 99 [("type", "boundary")]
           relation_99_ways [Some "outer"] empty_output); reflexivity.
Defined.

Definition relation_98_members : list member :=
  [mk_member OSMTYPE_WAY 10 "outer"; mk_member OSMTYPE_WAY 11 "inner";
   mk_member OSMTYPE_WAY 10 "inner"].

Lemma roles_follow_members_witness :
  pgsql_process_relation (demo_env true true) 98 relation_98_members
    relation_99_tags false empty_output
  = (0, pgsql_out_relation (demo_env true true) 98 relation_99_tags
          (ways_get_list (m_mid (demo_env true true))
             (map m_id relation_98_members))
          [Some "outer"; Some "inner"; Some "inner"] empty_output).
Proof.
  apply (roles_follow_members (demo_env true true) 98 relation_98_members
           relation_99_tags false empty_output).
  - unfold relation_98_members.
    apply List.Forall_cons; [reflexivity|].
    apply List.Forall_cons; [reflexivity|].
    apply List.Forall_cons; [reflexivity|]. apply List.Forall_nil.
  - reflexivity.
  - reflexivity.
Defined.

Lemma superseded_way_is_not_written_witness :
  let E := demo_env true true in
  let o1 := way_add E 10 [1; 2; 3] [("natural", "water")] empty_output in
  let o2 := relation_add E 99 relation_99_members relation_99_tags o1 in
  let o3 := m_ptr (way_pass E false [] o2) in
  is_marked 10 (ways_pending_tracker o1) = true /\
  is_marked 10 (ways_done_tracker o2) = true /\
  forall i,
    rows_with 10 (copied_rows (m_tables i o3))
    = rows_with 10 (copied_rows (m_tables i empty_output)).
Proof.
  apply (superseded_way_is_not_written (demo_env true true) 10 99 [1; 2; 3]
           [("natural", "water")] relation_99_members relation_99_tags
           "multipolygon" 0%nat false [] empty_output).
  - reflexivity.
  - reflexivity.
  - reflexivity.
  - right. left. reflexivity.
  - reflexivity.
  - reflexivity.
  - reflexivity.
  - reflexivity.
  - reflexivity.
  - apply List.Forall_cons; [discriminate|apply List.Forall_nil].
  - discriminate.
  - discriminate.
Defined.

Lemma rewritten_way_requeues_relations_witness :
  77 ∈ rels_pending_tracker
         (m_ptr (way_cb_run
                   (mk_env (mk_options true false false false) empty_export_list
                      true demo_tagtransform demo_builder
                      (mk_middle (nodes_get_list demo_mid) (ways_get demo_mid)
                         (ways_get_list demo_mid) (relations_get demo_mid)
                         (fun _ => [77]))
                      demo_expire (fun _ => "1"))
                   ([] ++ CbCall 5 [("highway", "x")] [demo_node; demo_node] true
                          :: [CbFinish true])
                   (way_cb_func empty_output))).
Proof.
  apply rewritten_way_requeues_relations.
  - left. reflexivity.
  - reflexivity.
Defined.

Lemma pending_polygon_written_by_pass_witness :
  way_pass (demo_env true true) false []
    (way_add (demo_env true true) 10 [1; 2; 3] [("building", "yes")]
       empty_output)
  = mk_cb osmid_max
      (set_ways_pending ∅
         (pgsql_out_way (demo_env true true) 10 [("natural", "water")]
            [demo_node; demo_node; demo_node] false empty_output)).
Proof.
  apply (pending_polygon_written_by_pass (demo_env true true) 10 [1; 2; 3]
           [("building", "yes")] [("natural", "water")]
           [demo_node; demo_node; demo_node] false false empty_output);
    reflexivity.
Defined.

Lemma relation_modify_replaces_rows_witness :
  exists o',
    relation_modify (demo_env true true) 99 relation_99_members
      relation_99_tags empty_output = Return [] o' /\
    ((forall ty, getItem relation_99_tags "type" = Some ty ->
        ty <> "route" /\ ty <> "multipolygon" /\ ty <> "boundary") ->
     forall i, i <> t_point ->
       rows_with (- 99) (table_rows (m_tables i o')) = []) /\
    (forall ty,
       getItem relation_99_tags "type" = Some ty ->
       ty = "route" \/ ty = "multipolygon" \/ ty = "boundary" ->
       filter_rel_tags (m_tagtransform (demo_env true true)) relation_99_tags
         (m_export_list (demo_env true true)) = false ->
       ~ In (- 99) (rel_marks (demo_env true true) 99 relation_99_tags
                      (fetched_ways (demo_env true true) relation_99_members)
                      (fetched_roles (demo_env true true) relation_99_members)) ->
       let w1 := rel_first_build (demo_env true true) 99 relation_99_tags
                   (fetched_ways (demo_env true true) relation_99_members)
                   (fetched_roles (demo_env true true) relation_99_members) in
       let w2 := rel_second_build (demo_env true true) 99 relation_99_tags
                   (fetched_ways (demo_env true true) relation_99_members)
                   (fetched_roles (demo_env true true) relation_99_members) in
       exists new_poly new_line,
         rows_with (- 99) (table_rows (m_tables t_poly o')) = new_poly /\
         rows_with (- 99) (table_rows (m_tables t_line o')) = new_line /\
         rows_with (- 99) (table_rows (m_tables t_roads o'))
         = (if v_roads (rel_verdict (demo_env true true) relation_99_tags
                          (fetched_ways (demo_env true true) relation_99_members)
                          (fetched_roles (demo_env true true) relation_99_members))
            then new_line else []) /\
         map way new_poly = map Wkt (poly_wkts w1 ++ poly_wkts w2) /\
         map way new_line = map Wkt (line_wkts w1)).
Proof.
  apply (relation_modify_replaces_rows (demo_env true true) 99
           relation_99_members relation_99_tags empty_output).
  - reflexivity.
  - apply demo_from_db_probes.
Defined.

End OutputMore.
